(** * hipages lead monitor: the decision core of the scraper

    A shallow embedding of [scraper.ts] (the variant with the daily and
    morning limits): the keyword matcher that runs inside the page, the
    per-article lead lifecycle of [performScrapeCycle], the cache file
    handling of [writeCache] / [initializeCache], the daily counter
    [getTodaysMatches], the operating window [getWindowTimes] and one turn
    of the [while (true)] loop of [main].

    Conventions.
    - An instant is the number of milliseconds since the epoch, a [Z]
      (what [Date.prototype.getTime] returns).  A [Date] built from a string
      may be invalid; its time value is then [None] (JavaScript's [NaN]).
    - JavaScript strings are modelled by [string]; case mapping and white
      space are the ASCII ones.
    - Browser automation (reload, screenshots, clicks, navigation) and the
      SMTP transport are outside the model: a notification is recorded at the
      call of [sendEmailNotification].
    - The host supplies what ECMAScript leaves to the implementation: the
      local time zone (a fixed offset from UTC; no daylight-saving switch is
      modelled), [toLocaleString], the parsing of non-ISO date strings and
      the JSON codec.  These are the fields of [DateHost] and [JsonHost];
      an instance for a Node process with the en-US locale is given and used
      for the concrete evaluations.
    - The numbers read from the environment ([parseInt]) are integers. *)

From Stdlib Require Import ZArith Lia String Ascii List DecimalString.
From stdpp Require Import base list strings numbers.

Open Scope Z_scope.

(** ** JavaScript string methods *)

Module JsString.

Definition isUpper (c : ascii) : bool :=
  let n := nat_of_ascii c in ((65 <=? n) && (n <=? 90))%nat.

Definition lowerChar (c : ascii) : ascii :=
  if isUpper c then ascii_of_nat (nat_of_ascii c + 32) else c.

(** [String.prototype.toLowerCase] *)
Fixpoint toLowerCase (s : string) : string :=
  match s with
  | EmptyString => EmptyString
  | String c r => String (lowerChar c) (toLowerCase r)
  end.

(** [String.prototype.includes] *)
Fixpoint includes (s k : string) : bool :=
  String.prefix k s ||
  match s with
  | EmptyString => false
  | String _ r => includes r k
  end.

Definition isSpace (c : ascii) : bool :=
  let n := nat_of_ascii c in ((9 <=? n) && (n <=? 13) || (n =? 32))%nat.

Fixpoint trimStart (s : string) : string :=
  match s with
  | EmptyString => EmptyString
  | String c r => if isSpace c then trimStart r else s
  end.

Fixpoint trimEnd (s : string) : string :=
  match s with
  | EmptyString => EmptyString
  | String c r =>
      match trimEnd r with
      | EmptyString => if isSpace c then EmptyString else String c EmptyString
      | r' => String c r'
      end
  end.

(** [String.prototype.trim] *)
Definition trim (s : string) : string := trimEnd (trimStart s).

(** [Array.prototype.join] on an array of strings *)
Fixpoint join (sep : string) (l : list string) : string :=
  match l with
  | [] => EmptyString
  | [x] => x
  | x :: r => (x ++ sep ++ join sep r)%string
  end.

(** Truthiness of a string: only the empty string is falsy. *)
Definition truthy (s : string) : bool :=
  match s with EmptyString => false | _ => true end.

(** [a || b] on strings *)
Definition orElse (a b : string) : string := if truthy a then a else b.

(** Template-literal rendering of an integer. *)
Definition ofZ (n : Z) : string := NilZero.string_of_int (Z.to_int n).

End JsString.

(** ** The Date object

    Day and time arithmetic follow the abstract operations of ECMAScript
    (Day, TimeWithinDay, MakeTime, MakeDay, MakeDate, LocalTime, UTC). *)

Module JsDate.

Definition msPerSecond : Z := 1000.
Definition msPerMinute : Z := 60000.
Definition msPerHour : Z := 3600000.
Definition msPerDay : Z := 86400000.

Definition Day (t : Z) : Z := t / msPerDay.
Definition TimeWithinDay (t : Z) : Z := t mod msPerDay.
Definition HourFromTime (t : Z) : Z := (t / msPerHour) mod 24.
Definition MinFromTime (t : Z) : Z := (t / msPerMinute) mod 60.
Definition SecFromTime (t : Z) : Z := (t / msPerSecond) mod 60.
Definition msFromTime (t : Z) : Z := t mod msPerSecond.

Definition MakeTime (h m s ms : Z) : Z :=
  h * msPerHour + m * msPerMinute + s * msPerSecond + ms.
Definition MakeDate (day time : Z) : Z := day * msPerDay + time.

(** Year, month (1..12) and day of the month (1..31) of a day number, in
    the proleptic Gregorian calendar. *)
Definition civil_from_days (z : Z) : Z * Z * Z :=
  let z := z + 719468 in
  let era := z / 146097 in
  let doe := z - era * 146097 in
  let yoe := (doe - doe / 1460 + doe / 36524 - doe / 146096) / 365 in
  let doy := doe - (365 * yoe + yoe / 4 - yoe / 100) in
  let mp := (5 * doy + 2) / 153 in
  let d := doy - (153 * mp + 2) / 5 + 1 in
  let m := if mp <? 10 then mp + 3 else mp - 9 in
  let y := yoe + era * 400 in
  (if m <=? 2 then y + 1 else y, m, d).

(** Day number of a calendar date; the day of the month may overflow. *)
Definition days_from_civil (y m d : Z) : Z :=
  let y := if m <=? 2 then y - 1 else y in
  let era := y / 400 in
  let yoe := y - era * 400 in
  let doy := (153 * (if 2 <? m then m - 3 else m + 9) + 2) / 5 + d - 1 in
  let doe := yoe * 365 + yoe / 4 - yoe / 100 + doy in
  era * 146097 + doe - 719468.

Definition YearFromTime (t : Z) : Z := fst (fst (civil_from_days (Day t))).
Definition MonthFromTime (t : Z) : Z := snd (fst (civil_from_days (Day t))).
Definition DateFromTime (t : Z) : Z := snd (civil_from_days (Day t)).

(** Day number of day [dt] of the month that contains [t]. *)
Definition MakeDay (t dt : Z) : Z := Day t - (DateFromTime t - 1) + (dt - 1).

(** *** ISO-8601 rendering: [Date.prototype.toISOString] *)

Definition digit (n : Z) : ascii := ascii_of_nat (48 + Z.to_nat (n mod 10)).
Definition pad2 (n : Z) : string :=
  String (digit (n / 10)) (String (digit n) EmptyString).
Definition pad3 (n : Z) : string := String (digit (n / 100)) (pad2 n).
Definition pad4 (n : Z) : string := String (digit (n / 1000)) (pad3 n).
Definition pad6 (n : Z) : string :=
  String (digit (n / 100000)) (String (digit (n / 10000)) (pad4 n)).

(** Four digits for the years 0..9999, a sign and six digits otherwise. *)
Definition yearString (y : Z) : string :=
  if (0 <=? y) && (y <=? 9999) then pad4 y
  else if y <? 0 then String "-" (pad6 (- y)) else String "+" (pad6 y).

Definition toISOString (t : Z) : string :=
  let '(y, m, d) := civil_from_days (Day t) in
  (yearString y ++ "-" ++ pad2 m ++ "-" ++ pad2 d ++ "T" ++
   pad2 (HourFromTime t) ++ ":" ++ pad2 (MinFromTime t) ++ ":" ++
   pad2 (SecFromTime t) ++ "." ++ pad3 (msFromTime t) ++ "Z")%string.

(** *** Reading the ISO-8601 date-time format back *)

Definition digitVal (c : ascii) : option Z :=
  let n := nat_of_ascii c in
  if ((48 <=? n) && (n <=? 57))%nat then Some (Z.of_nat n - 48) else None.

Fixpoint numAcc (acc : Z) (s : string) : option Z :=
  match s with
  | EmptyString => Some acc
  | String c r =>
      match digitVal c with
      | Some v => numAcc (10 * acc + v) r
      | None => None
      end
  end.

(** A non-empty run of decimal digits. *)
Definition num (s : string) : option Z :=
  match s with EmptyString => None | _ => numAcc 0 s end.

Definition charAt (s : string) (i : nat) (c : ascii) : bool :=
  match String.get i s with
  | Some c' => Ascii.eqb c' c
  | None => false
  end.

Definition inRange (lo hi x : Z) : bool := (lo <=? x) && (x <=? hi).

(** [YYYY-MM-DDTHH:mm:ss.sssZ], the year on [ylen] digits starting at
    offset [off]. *)
Definition parseISOAt (sign : Z) (off ylen : nat) (s : string) : option Z :=
  let p := (off + ylen)%nat in
  if (String.length s =? p + 20)%nat
     && charAt s p "-" && charAt s (p + 3) "-" && charAt s (p + 6) "T"
     && charAt s (p + 9) ":" && charAt s (p + 12) ":"
     && charAt s (p + 15) "." && charAt s (p + 19) "Z"
  then
    y ← num (substring off ylen s);
    mo ← num (substring (p + 1) 2 s);
    d ← num (substring (p + 4) 2 s);
    h ← num (substring (p + 7) 2 s);
    mi ← num (substring (p + 10) 2 s);
    sec ← num (substring (p + 13) 2 s);
    ms ← num (substring (p + 16) 3 s);
    if inRange 1 12 mo && inRange 1 31 d && inRange 0 23 h
       && inRange 0 59 mi && inRange 0 59 sec
    then Some (MakeDate (days_from_civil (sign * y) mo d) (MakeTime h mi sec ms))
    else None
  else None.

Definition parseISO (s : string) : option Z :=
  match s with
  | String "+" _ => parseISOAt 1 1 6 s
  | String "-" _ => parseISOAt (-1) 1 6 s
  | _ => parseISOAt 1 0 4 s
  end.

(** Does the string have the shape of an ISO-8601 date-time? *)
Definition isISO8601 (s : string) : bool :=
  match parseISO s with Some _ => true | None => false end.

(** What the host decides.  The zone of the host is at one offset from
    UTC at every instant, so every local day has 24 hours; a zone that
    changes its offset (daylight saving time) is outside this model. *)
Class DateHost := {
  (** offset of local time from UTC, in milliseconds *)
  LocalTZA : Z;
  (** [Date.prototype.toLocaleString] with the default locale *)
  toLocaleString : Z -> string;
  (** the implementation-defined fallback of [Date.parse] *)
  parseLegacy : string -> option Z
}.

Section WithHost.
Context `{DateHost}.

Definition LocalTime (t : Z) : Z := t + LocalTZA.
Definition UTC (t : Z) : Z := t - LocalTZA.

(** [Date.parse]: the ISO format first, then whatever the host accepts.
    [None] is an invalid date. *)
Definition Date_parse (s : string) : option Z :=
  match parseISO s with
  | Some t => Some t
  | None => parseLegacy s
  end.

(** [d.setHours(h, m, s, ms)] *)
Definition setHours (t h m s ms : Z) : Z :=
  UTC (MakeDate (Day (LocalTime t)) (MakeTime h m s ms)).

(** [d.getDate()] *)
Definition getDate (t : Z) : Z := DateFromTime (LocalTime t).

(** [d.setDate(dt)] *)
Definition setDate (t dt : Z) : Z :=
  UTC (MakeDate (MakeDay (LocalTime t) dt) (TimeWithinDay (LocalTime t))).

End WithHost.

End JsDate.

(** ** A Node process with the en-US locale

    [toLocaleString] prints the local wall clock as [M/D/YYYY, h:mm:ss AM];
    the legacy parser reads that format back as a local time. *)

Module NodeEnUS.
Import JsString JsDate.

Definition hour12 (h : Z) : Z := if h mod 12 =? 0 then 12 else h mod 12.

Definition toLocaleString (tza t : Z) : string :=
  let lt := t + tza in
  let '(y, m, d) := civil_from_days (Day lt) in
  (ofZ m ++ "/" ++ ofZ d ++ "/" ++ ofZ y ++ ", " ++
   ofZ (hour12 (HourFromTime lt)) ++ ":" ++ pad2 (MinFromTime lt) ++ ":" ++
   pad2 (SecFromTime lt) ++ " " ++
   (if (HourFromTime lt <? 12)%Z then "AM" else "PM"))%string.

(** The leading digits of a string, as a number, and the rest. *)
Fixpoint readDigits (acc : option Z) (s : string) : option Z * string :=
  match s with
  | EmptyString => (acc, s)
  | String c r =>
      match digitVal c with
      | Some v => readDigits (Some (10 * default 0 acc + v)) r
      | None => (acc, s)
      end
  end.

Definition readNum (s : string) : option (Z * string) :=
  match readDigits None s with
  | (Some n, r) => Some (n, r)
  | (None, _) => None
  end.

Fixpoint expect (k s : string) : option string :=
  match k, s with
  | EmptyString, _ => Some s
  | String a k', String b s' => if Ascii.eqb a b then expect k' s' else None
  | String _ _, EmptyString => None
  end.

Definition parseLegacy (tza : Z) (s : string) : option Z :=
  '(mo, s) ← readNum s; s ← expect "/" s;
  '(d, s) ← readNum s; s ← expect "/" s;
  '(y, s) ← readNum s; s ← expect ", " s;
  '(h, s) ← readNum s; s ← expect ":" s;
  '(mi, s) ← readNum s; s ← expect ":" s;
  '(sec, s) ← readNum s; s ← expect " " s;
  pm ← (if String.eqb s "AM" then Some false
        else if String.eqb s "PM" then Some true else None);
  if inRange 1 12 mo && inRange 1 31 d && inRange 1 12 h
     && inRange 0 59 mi && inRange 0 59 sec
  then
    let h24 := h mod 12 + (if pm : bool then 12 else 0) in
    Some (MakeDate (days_from_civil y mo d) (MakeTime h24 mi sec 0) - tza)
  else None.

Definition host (tza : Z) : DateHost :=
  {| LocalTZA := tza;
     JsDate.toLocaleString := toLocaleString tza;
     JsDate.parseLegacy := parseLegacy tza |}.

End NodeEnUS.

(** ** Exceptions

    Fallible steps return [Ok] or [Throw]; [try_catch] is the [try]/[catch]
    statement. *)

Inductive Error :=
  | TypeError      (* a property read on [undefined] *)
  | SyntaxError    (* [JSON.parse] *)
  | IOError        (* [fs.readFile] / [fs.writeFile] *)
  | CacheEmpty.    (* [new Error("Cache file is empty.")] *)

Inductive Exn (A : Type) :=
  | Ok (a : A)
  | Throw (e : Error).
Arguments Ok {A} a.
Arguments Throw {A} e.

Definition try_catch {A} (body : Exn A) (handler : Error -> Exn A) : Exn A :=
  match body with
  | Ok a => Ok a
  | Throw e => handler e
  end.

Definition ebind {A B} (m : Exn A) (f : A -> Exn B) : Exn B :=
  match m with
  | Ok a => f a
  | Throw e => Throw e
  end.

Notation "'let!' x ':=' m 'in' k" := (ebind m (fun x => k))
  (at level 10, x name, m at level 100, k at level 200).

Fixpoint emapM {A B} (f : A -> Exn B) (l : list A) : Exn (list B) :=
  match l with
  | [] => Ok []
  | x :: r => let! y := f x in let! ys := emapM f r in Ok (y :: ys)
  end.

(** ** Type definitions of [scraper.ts] *)

Inductive LeadStatus :=
  | PotentialLead              (* 'Potential Lead' *)
  | AlreadyWaitlisted          (* 'Already Waitlisted' *)
  | TransitionedToWaitlisted.  (* 'Transitioned to Waitlisted' *)

Global Instance LeadStatus_eq_dec : EqDecision LeadStatus.
Proof. solve_decision. Defined.

Record StatusHistoryItem := {
  datetime_changed : string;
  new_status : LeadStatus
}.

Record LeadLink := {
  href : option string;
  text : string
}.

Record MatchedLead := {
  id : string;
  matchedOn : string;
  links : list LeadLink;
  content : string;
  currentStatus : LeadStatus;
  statusHistory : list StatusHistoryItem
}.

Record Cache := {
  matchedLeads : list MatchedLead
}.

(** [KEYWORD_MATCH_TYPE === 'all' ? 'all' : 'each'] *)
Inductive MatchType := MatchAll | MatchEach.

(** The constants read from the environment at start-up. *)
Record Config := {
  KEYWORD_ARRAY : list string;
  MATCH_TYPE : MatchType;
  START_HOUR : Z;
  START_MINUTE : Z;
  END_HOUR : Z;
  END_MINUTE : Z;
  DAILY_LIMIT : Z;
  MORNING_LIMIT : Z
}.

(** ** What the page callback sees of the DOM *)

Record Anchor := {
  a_href : string;       (* [a.href] *)
  a_innerText : string   (* [a.innerText] *)
}.

Record Article := {
  art_id : string;                  (* [article.id], empty when there is none *)
  art_anchors : list Anchor;        (* [article.querySelectorAll('a')] *)
  art_outerHTML : string;
  art_statusSpan : option string;   (* text of [span[role=status]], if any *)
  art_h2 : list string;             (* texts of the [h2] elements *)
  art_h4 : list string;             (* texts of the [h4] elements *)
  art_h4p : list string;            (* texts of the [h4 + p] elements *)
  art_textContent : string
}.

Record Document := {
  doc_emphasis : list string;       (* [document.querySelectorAll('.text-body-emphasis')] *)
  doc_articles : list Article       (* [page.$$('article')] *)
}.

(** One element of [leadsOnPage]. *)
Record Scraped := {
  s_id : string;
  s_hasMatch : bool;
  s_status : option LeadStatus;
  s_links : list LeadLink;
  s_content : string
}.

(** ** The keyword matcher (inside the [$$eval] callback) *)

Import JsString.

(** [lowerCaseTextToSearch.includes(keyword)] over the keywords, by
    [every] or by [some]. *)
Definition keywordTest (matchType : MatchType) (keywords : list string)
    (lowerCaseTextToSearch : string) : bool :=
  match matchType with
  | MatchAll => forallb (fun keyword => includes lowerCaseTextToSearch keyword) keywords
  | MatchEach => existsb (fun keyword => includes lowerCaseTextToSearch keyword) keywords
  end.

(** The value [hasMatch] gets in the keyword branch. *)
Definition keywordMatch (textToSearch : string) (keywords : list string)
    (matchType : MatchType) : bool :=
  let lowerCaseTextToSearch := toLowerCase textToSearch in
  if truthy lowerCaseTextToSearch
  then keywordTest matchType keywords lowerCaseTextToSearch
  else false.

(** The callback applied to one [article]. *)
Definition scrapeArticle (doc : Document) (keywords : list string)
    (matchType : MatchType) (article : Article) : Exn Scraped :=
  let primaryLink := head (art_anchors article) in
  let id :=
    if truthy (art_id article) then art_id article
    else match primaryLink with
         | Some a => a_href a
         | None => art_outerHTML article
         end in
  let allLinks :=
    map (fun a => {| href := Some (a_href a); text := trim (a_innerText a) |})
        (art_anchors article) in
  let content := orElse (trim (art_textContent article)) "" in
  if match art_statusSpan article with
     | Some t => String.eqb (trim t) "Waitlist"
     | None => false
     end
  then
    Ok {| s_id := id; s_hasMatch := true; s_status := Some AlreadyWaitlisted;
          s_links := allLinks; s_content := content |}
  else
    match art_h2 article with
    | [] => Throw TypeError
    | h2 :: _ =>
        let headingText := orElse h2 "" in
        let textToSearch :=
          (headingText
           ++ orElse (join " " (doc_emphasis doc)) ""
           ++ orElse (join " " (art_h4 article)) ""
           ++ orElse (join " " (art_h4p article)) "")%string in
        let hasMatch := keywordMatch textToSearch keywords matchType in
        Ok {| s_id := id; s_hasMatch := hasMatch;
              s_status := if hasMatch then Some PotentialLead else None;
              s_links := if hasMatch then allLinks else [];
              s_content := content |}
    end.

(** ** Helper functions of [scraper.ts] *)

Import JsDate.

(** [formatElapsedTime(ms)]; [None] is [NaN].  [%] is the truncating
    remainder, [Math.floor] of a quotient the flooring division. *)
Definition formatElapsedTime (ms : option Z) : string :=
  match ms with
  | None => "NaN second(s)"
  | Some ms =>
      let totalSeconds := ms / 1000 in
      let days := totalSeconds / 86400 in
      let hours := Z.rem totalSeconds 86400 / 3600 in
      let minutes := Z.rem totalSeconds 3600 / 60 in
      let seconds := Z.rem totalSeconds 60 in
      let parts :=
        (if 0 <? days then [(ofZ days ++ " day(s)")%string] else []) ++
        (if 0 <? hours then [(ofZ hours ++ " hour(s)")%string] else []) ++
        (if 0 <? minutes then [(ofZ minutes ++ " minute(s)")%string] else []) ++
        [(ofZ seconds ++ " second(s)")%string] in
      join ", " parts
  end.

(** *** The cache file *)

Class JsonHost := {
  JSON_stringify : Cache -> string;
  (** [None]: [JSON.parse] throws *)
  JSON_parse : string -> option Cache
}.

(** The file at [CACHE_FILE_PATH]: its content when it exists, and whether
    the next write is refused. *)
Record FileSystem := {
  fileContent : option string;
  writeRefused : bool
}.

Definition fs_readFile (fs : FileSystem) : Exn string :=
  match fileContent fs with
  | Some data => Ok data
  | None => Throw IOError
  end.

Definition fs_writeFile (data : string) (fs : FileSystem) : Exn FileSystem :=
  if writeRefused fs then Throw IOError
  else Ok {| fileContent := Some data; writeRefused := writeRefused fs |}.

Section Store.
Context `{JsonHost}.

Definition writeCache (cache : Cache) (fs : FileSystem) : Exn FileSystem :=
  try_catch
    (fs_writeFile (JSON_stringify cache) fs)
    (fun error => Ok fs).

Definition initializeCache (fs : FileSystem) : Exn (Cache * FileSystem) :=
  try_catch
    (let! data := fs_readFile fs in
     let! _ := (if String.eqb (trim data) "" then Throw CacheEmpty else Ok tt) in
     match JSON_parse data with
     | Some cache => Ok (cache, fs)
     | None => Throw SyntaxError
     end)
    (fun error =>
       let initialCache := {| matchedLeads := [] |} in
       let! fs' := writeCache initialCache fs in
       Ok (initialCache, fs')).

End Store.

(** *** The daily counter and the operating window *)

Section Clock.
Context `{DateHost}.

(** [a < b] on dates; an invalid date compares false with everything. *)
Definition dateLt (a b : option Z) : bool :=
  match a, b with
  | Some x, Some y => x <? y
  | _, _ => false
  end.

Definition dateGe (a b : option Z) : bool :=
  match a, b with
  | Some x, Some y => y <=? x
  | _, _ => false
  end.

(** [getTodaysMatches(cache)]; [clock] is what [new Date()] returns in
    its first line. *)
Definition getTodaysMatches (clock : Z) (cache : Cache) : list MatchedLead :=
  let today := setHours clock 0 0 0 0 in
  let tomorrow := setDate today (getDate today + 1) in
  List.filter
    (fun lead =>
       let matchedDate := Date_parse (matchedOn lead) in
       dateGe matchedDate (Some today) && dateLt matchedDate (Some tomorrow)
       && bool_decide (currentStatus lead = PotentialLead))
    (matchedLeads cache).

(** [getWindowTimes(date)] *)
Definition getWindowTimes (cfg : Config) (date : Z) : Z * Z :=
  let start := setHours date (START_HOUR cfg) (START_MINUTE cfg) 0 0 in
  let end_ := setHours date (END_HOUR cfg) (END_MINUTE cfg) 0 0 in
  (start, end_).

End Clock.

(** ** The JSON codec of the same Node process

    [stringify] lays the cache out as [JSON.stringify(cache, null, 2)] does;
    [parse] reads any JSON text and then the fields of a cache from it.  A
    text that is JSON but not a cache is outside what the type assertion
    [as Cache] covers; the codec refuses it as well. *)

Module NodeJson.
Import JsString.

Definition quote : ascii := ascii_of_nat 34.
Definition backslash : ascii := ascii_of_nat 92.
Definition newline : string := String (ascii_of_nat 10) EmptyString.

Definition hexDigit (n : nat) : ascii :=
  if (n <? 10)%nat then ascii_of_nat (48 + n) else ascii_of_nat (87 + n).

Definition escapeChar (c : ascii) : string :=
  let n := nat_of_ascii c in
  if (n =? 34)%nat then String backslash (String quote EmptyString)
  else if (n =? 92)%nat then String backslash (String backslash EmptyString)
  else if (n =? 8)%nat then String backslash "b"
  else if (n =? 12)%nat then String backslash "f"
  else if (n =? 10)%nat then String backslash "n"
  else if (n =? 13)%nat then String backslash "r"
  else if (n =? 9)%nat then String backslash "t"
  else if (n <? 32)%nat then
    String backslash
      (String "u" (String "0" (String "0"
        (String (hexDigit (n / 16)) (String (hexDigit (n mod 16)) EmptyString)))))
  else String c EmptyString.

Fixpoint escape (s : string) : string :=
  match s with
  | EmptyString => EmptyString
  | String c r => (escapeChar c ++ escape r)%string
  end.

Definition quoted (s : string) : string :=
  String quote (escape s ++ String quote EmptyString).

Definition statusText (st : LeadStatus) : string :=
  match st with
  | PotentialLead => "Potential Lead"
  | AlreadyWaitlisted => "Already Waitlisted"
  | TransitionedToWaitlisted => "Transitioned to Waitlisted"
  end.

Definition field (indent name value : string) : string :=
  (indent ++ quoted name ++ ": " ++ value)%string.

(** An array whose elements are already printed. *)
Definition array (indent : string) (items : list string) : string :=
  match items with
  | [] => "[]"
  | _ =>
      ("[" ++ newline
       ++ join ("," ++ newline) (map (fun i => (indent ++ "  " ++ i)%string) items)
       ++ newline ++ indent ++ "]")%string
  end.

Definition object (indent : string) (fields : list (string * string)) : string :=
  ("{" ++ newline
   ++ join ("," ++ newline)
        (map (fun f => field (indent ++ "  ") (fst f) (snd f)) fields)
   ++ newline ++ indent ++ "}")%string.

Definition printLink (indent : string) (l : LeadLink) : string :=
  object indent
    [("href", match href l with Some h => quoted h | None => "null" end);
     ("text", quoted (text l))].

Definition printHistory (indent : string) (h : StatusHistoryItem) : string :=
  object indent
    [("datetime_changed", quoted (datetime_changed h));
     ("new_status", quoted (statusText (new_status h)))].

Definition printLead (indent : string) (l : MatchedLead) : string :=
  let inner := (indent ++ "  ")%string in
  object indent
    [("id", quoted (id l));
     ("matchedOn", quoted (matchedOn l));
     ("links", array inner (map (printLink (inner ++ "  ")) (links l)));
     ("content", quoted (content l));
     ("currentStatus", quoted (statusText (currentStatus l)));
     ("statusHistory",
      array inner (map (printHistory (inner ++ "  ")) (statusHistory l)))].

Definition stringify (cache : Cache) : string :=
  object ""
    [("matchedLeads", array "  " (map (printLead "    ") (matchedLeads cache)))].

(** *** Reading *)

#[local] Unset Elimination Schemes.
Inductive Json :=
  | JNull
  | JBool (b : bool)
  | JNum (digits : string)
  | JStr (s : string)
  | JArr (items : list Json)
  | JObj (fields : list (string * Json)).
#[local] Set Elimination Schemes.

Fixpoint skipWs (s : string) : string :=
  match s with
  | String c r => if isSpace c then skipWs r else s
  | EmptyString => EmptyString
  end.

Definition hexVal (c : ascii) : option nat :=
  let n := nat_of_ascii c in
  if ((48 <=? n) && (n <=? 57))%nat then Some (n - 48)%nat
  else if ((97 <=? n) && (n <=? 102))%nat then Some (n - 87)%nat
  else if ((65 <=? n) && (n <=? 70))%nat then Some (n - 55)%nat
  else None.

(** The characters of a string literal after its opening quote. *)
Fixpoint readString (s : string) : option (string * string) :=
  match s with
  | EmptyString => None
  | String c r =>
      let n := nat_of_ascii c in
      if (n =? 34)%nat then Some (EmptyString, r)
      else if (n <? 32)%nat then None
      else if (n =? 92)%nat then
        match r with
        | String e r' =>
            let plain (x : nat) :=
              '(t, rest) ← readString r'; Some (String (ascii_of_nat x) t, rest) in
            match nat_of_ascii e with
            | 34 => plain 34 | 92 => plain 92 | 47 => plain 47
            | 98 => plain 8 | 102 => plain 12 | 110 => plain 10
            | 114 => plain 13 | 116 => plain 9
            | 117 =>
                match r' with
                | String a (String b (String c1 (String d r''))) =>
                    h1 ← hexVal a; h2 ← hexVal b; h3 ← hexVal c1; h4 ← hexVal d;
                    if ((h1 =? 0) && (h2 =? 0))%nat then
                      '(t, rest) ← readString r'';
                      Some (String (ascii_of_nat (16 * h3 + h4)) t, rest)
                    else None
                | _ => None
                end
            | _ => None
            end
        | EmptyString => None
        end
      else '(t, rest) ← readString r; Some (String c t, rest)
  end%nat.

Definition isNumChar (c : ascii) : bool :=
  let n := nat_of_ascii c in
  ((48 <=? n) && (n <=? 57) || (n =? 45) || (n =? 43) || (n =? 46)
   || (n =? 101) || (n =? 69))%nat.

Fixpoint readNumber (s : string) : string * string :=
  match s with
  | String c r =>
      if isNumChar c then let '(d, rest) := readNumber r in (String c d, rest)
      else (EmptyString, s)
  | EmptyString => (EmptyString, EmptyString)
  end.

(** What the reader is in the middle of. *)
Inductive Pending :=
  | TValue
  | TItems (acc : list Json)
  | TFields (acc : list (string * Json)).

Fixpoint read (fuel : nat) (pending : Pending) (s : string) : option (Json * string) :=
  match fuel with
  | O => None
  | S fuel =>
      let s := skipWs s in
      match pending with
      | TValue =>
          match s with
          | String "{" r =>
              match skipWs r with
              | String "}" r' => Some (JObj [], r')
              | _ => read fuel (TFields []) r
              end
          | String "[" r =>
              match skipWs r with
              | String "]" r' => Some (JArr [], r')
              | _ => read fuel (TItems []) r
              end
          | String c r =>
              if Ascii.eqb c quote then
                '(t, rest) ← readString r; Some (JStr t, rest)
              else if isNumChar c then
                let '(d, rest) := readNumber s in Some (JNum d, rest)
              else
                match NodeEnUS.expect "null" s, NodeEnUS.expect "true" s, NodeEnUS.expect "false" s with
                | Some rest, _, _ => Some (JNull, rest)
                | _, Some rest, _ => Some (JBool true, rest)
                | _, _, Some rest => Some (JBool false, rest)
                | _, _, _ => None
                end
          | EmptyString => None
          end
      | TItems acc =>
          '(v, rest) ← read fuel TValue s;
          match skipWs rest with
          | String "," rest' => read fuel (TItems (acc ++ [v])) rest'
          | String "]" rest' => Some (JArr (acc ++ [v]), rest')
          | _ => None
          end
      | TFields acc =>
          match s with
          | String c r =>
              if Ascii.eqb c quote then
                '(k, rest) ← readString r;
                match skipWs rest with
                | String ":" rest' =>
                    '(v, rest'') ← read fuel TValue rest';
                    match skipWs rest'' with
                    | String "," r3 => read fuel (TFields (acc ++ [(k, v)])) r3
                    | String "}" r3 => Some (JObj (acc ++ [(k, v)]), r3)
                    | _ => None
                    end
                | _ => None
                end
              else None
          | EmptyString => None
          end
      end
  end.

(** A repeated key keeps its last value. *)
Definition lookupField (k : string) (fields : list (string * Json)) : option Json :=
  snd <$> head (List.filter (fun f => String.eqb (fst f) k) (rev fields)).

Definition asString (j : Json) : option string :=
  match j with JStr s => Some s | _ => None end.

Definition asArray (j : Json) : option (list Json) :=
  match j with JArr l => Some l | _ => None end.

Definition asObject (j : Json) : option (list (string * Json)) :=
  match j with JObj f => Some f | _ => None end.

Definition readStatus (s : string) : option LeadStatus :=
  if String.eqb s "Potential Lead" then Some PotentialLead
  else if String.eqb s "Already Waitlisted" then Some AlreadyWaitlisted
  else if String.eqb s "Transitioned to Waitlisted" then Some TransitionedToWaitlisted
  else None.

Definition readLink (j : Json) : option LeadLink :=
  f ← asObject j;
  h ← lookupField "href" f;
  t ← lookupField "text" f ≫= asString;
  Some {| href := asString h; text := t |}.

Definition readHistory (j : Json) : option StatusHistoryItem :=
  f ← asObject j;
  d ← lookupField "datetime_changed" f ≫= asString;
  st ← (lookupField "new_status" f ≫= asString) ≫= readStatus;
  Some {| datetime_changed := d; new_status := st |}.

Definition readLead (j : Json) : option MatchedLead :=
  f ← asObject j;
  i ← lookupField "id" f ≫= asString;
  m ← lookupField "matchedOn" f ≫= asString;
  ls ← (lookupField "links" f ≫= asArray) ≫= mapM readLink;
  c ← lookupField "content" f ≫= asString;
  st ← (lookupField "currentStatus" f ≫= asString) ≫= readStatus;
  hs ← (lookupField "statusHistory" f ≫= asArray) ≫= mapM readHistory;
  Some {| id := i; matchedOn := m; links := ls; content := c;
          currentStatus := st; statusHistory := hs |}.

Definition readCache (j : Json) : option Cache :=
  f ← asObject j;
  ls ← (lookupField "matchedLeads" f ≫= asArray) ≫= mapM readLead;
  Some {| matchedLeads := ls |}.

Definition parse (s : string) : option Cache :=
  '(j, rest) ← read (2 * String.length s + 2) TValue s;
  match skipWs rest with
  | EmptyString => readCache j
  | _ => None
  end.

Definition host : JsonHost :=
  {| JSON_stringify := stringify; JSON_parse := parse |}.

End NodeJson.

(** ** The scrape cycle *)

(** A call of [sendEmailNotification(lead, elapsedTime?)]. *)
Record Notification := {
  n_lead : MatchedLead;
  n_elapsedTime : option string
}.

(** The variables of [performScrapeCycle] that the loop over
    [leadsOnPage] updates, and the notifications sent so far. *)
Record CycleState := {
  cs_cache : Cache;
  cs_cacheUpdated : bool;
  cs_newMatchFoundThisCycle : bool;
  cs_sent : list Notification
}.

Section Lifecycle.
Context `{DateHost}.

(** The body of [for (const scrapedArticle of leadsOnPage)]; [clock] is
    what [new Date()] returns where [nowISO] is computed. *)
Definition processArticle (clock : Z) (scrapedArticle : Scraped)
    (st : CycleState) : CycleState :=
  let leads := matchedLeads (cs_cache st) in
  match list_find (fun l => id l = s_id scrapedArticle) leads with
  | None =>
      (* new lead logic *)
      match s_hasMatch scrapedArticle, s_status scrapedArticle with
      | true, Some status =>
          let nowISO := toLocaleString clock in
          let newLead :=
            {| id := s_id scrapedArticle;
               matchedOn := nowISO;
               links := s_links scrapedArticle;
               content := s_content scrapedArticle;
               currentStatus := status;
               statusHistory :=
                 [{| datetime_changed := nowISO; new_status := status |}] |} in
          {| cs_cache := {| matchedLeads := newLead :: leads |};
             cs_cacheUpdated := true;
             cs_newMatchFoundThisCycle := true;
             cs_sent :=
               if bool_decide (currentStatus newLead = PotentialLead)
               then cs_sent st ++ [{| n_lead := newLead; n_elapsedTime := None |}]
               else cs_sent st |}
      | _, _ => st
      end
  | Some (existingLeadIndex, existingLead) =>
      (* existing lead logic *)
      if bool_decide (currentStatus existingLead = PotentialLead)
         && bool_decide (s_status scrapedArticle = Some AlreadyWaitlisted)
      then
        let nowISO := toISOString clock in
        let newStatus := TransitionedToWaitlisted in
        let existingLead' :=
          {| id := id existingLead;
             matchedOn := matchedOn existingLead;
             links := links existingLead;
             content := content existingLead;
             currentStatus := newStatus;
             statusHistory :=
               statusHistory existingLead ++
               [{| datetime_changed := nowISO; new_status := newStatus |}] |} in
        let initialTime := Date_parse (matchedOn existingLead') in
        let transitionTime := Date_parse nowISO in
        let elapsedTimeMs :=
          match transitionTime, initialTime with
          | Some a, Some b => Some (a - b)
          | _, _ => None
          end in
        let formattedElapsedTime := formatElapsedTime elapsedTimeMs in
        {| cs_cache := {| matchedLeads := <[existingLeadIndex := existingLead']> leads |};
           cs_cacheUpdated := true;
           cs_newMatchFoundThisCycle := true;
           cs_sent :=
             cs_sent st ++
             [{| n_lead := existingLead'; n_elapsedTime := Some formattedElapsedTime |}] |}
      else st
  end.

(** The loop; [clock k] is the reading taken while the [k]-th article is
    processed. *)
Fixpoint forEachArticle (clock : nat -> Z) (k : nat) (leadsOnPage : list Scraped)
    (st : CycleState) : CycleState :=
  match leadsOnPage with
  | [] => st
  | scrapedArticle :: rest =>
      forEachArticle clock (S k) rest (processArticle (clock k) scrapedArticle st)
  end.

(** What a call of [performScrapeCycle] leaves behind. *)
Record CycleResult := {
  r_newMatchFound : bool;
  r_cache : Cache;
  r_fs : FileSystem;
  r_sent : list Notification
}.

Context `{JsonHost}.

(** [performScrapeCycle(page, cache)].  An exception in the page callback
    is caught by the outer [catch]: nothing has been touched then. *)
Definition performScrapeCycle (cfg : Config) (clock : nat -> Z) (doc : Document)
    (cache : Cache) (fs : FileSystem) : CycleResult :=
  match emapM (scrapeArticle doc (KEYWORD_ARRAY cfg) (MATCH_TYPE cfg))
              (doc_articles doc) with
  | Throw _ =>
      {| r_newMatchFound := false; r_cache := cache; r_fs := fs; r_sent := [] |}
  | Ok leadsOnPage =>
      let st :=
        forEachArticle clock 0 leadsOnPage
          {| cs_cache := cache; cs_cacheUpdated := false;
             cs_newMatchFoundThisCycle := false; cs_sent := [] |} in
      let fs' :=
        if cs_cacheUpdated st
        then match writeCache (cs_cache st) fs with
             | Ok fs' => fs'
             | Throw _ => fs
             end
        else fs in
      {| r_newMatchFound := cs_newMatchFoundThisCycle st;
         r_cache := cs_cache st; r_fs := fs'; r_sent := cs_sent st |}
  end.

End Lifecycle.

(** ** One turn of the loop of [main] *)

(** The instants [new Date()] returns during one turn, in program order:
    [now] itself, the reading inside [getTodaysMatches], and the reading
    taken in the branch that computes a sleep ([tomorrow], [noon]). *)
Record Readings := {
  rd_now : Z;
  rd_today : Z;
  rd_later : Z
}.

(** What the turn does once the cache is loaded. *)
Inductive Decision :=
  | OutsideWindow (sleepDuration : Z)     (* "Outside operating hours" *)
  | QuotaExhausted (sleepDuration : Z)    (* "Daily limit ... reached" *)
  | MorningPause (sleepDuration : Z)      (* "Pausing until 12:00 PM" *)
  | Active.                               (* [performScrapeCycle] runs *)

Section Scheduler.
Context `{DateHost}.

Definition decide_turn (cfg : Config) (cache : Cache) (rd : Readings)
    : Exn Decision :=
  let now := rd_now rd in
  let todayWindow := getWindowTimes cfg now in
  let todaysMatches := getTodaysMatches (rd_today rd) cache in
  if (now <? fst todayWindow) || (snd todayWindow <? now) then
    let sleepUntil :=
      if snd todayWindow <? now then
        let tomorrow := setDate (rd_later rd) (getDate now + 1) in
        fst (getWindowTimes cfg tomorrow)
      else fst todayWindow in
    Ok (OutsideWindow (sleepUntil - now))
  else if DAILY_LIMIT cfg <=? Z.of_nat (length todaysMatches) then
    let tomorrow := setDate (rd_later rd) (getDate now + 1) in
    let sleepUntil := fst (getWindowTimes cfg tomorrow) in
    Ok (QuotaExhausted (sleepUntil - now))
  else if Z.of_nat (length todaysMatches) =? MORNING_LIMIT cfg then
    match todaysMatches with
    | [] => Throw TypeError
    | first :: _ =>
        let firstMatchTime := Date_parse (matchedOn first) in
        let noon := setHours (rd_later rd) 12 0 0 0 in
        if dateLt firstMatchTime (Some noon) && (now <? noon)
        then Ok (MorningPause (noon - now))
        else Ok Active
    end
  else Ok Active.

End Scheduler.

(** The cache is read again at the top of every turn; a turn that is
    [Active] runs one scrape cycle on it. *)
Record Turn := {
  t_decision : Exn Decision;
  t_cache : Cache;
  t_fs : FileSystem;
  t_sent : list Notification
}.

Section Main.
Context `{DateHost} `{JsonHost}.

Definition main_turn (cfg : Config) (rd : Readings) (clock : nat -> Z)
    (doc : Document) (fs : FileSystem) : Turn :=
  match initializeCache fs with
  | Throw e => {| t_decision := Throw e; t_cache := {| matchedLeads := [] |};
                  t_fs := fs; t_sent := [] |}
  | Ok (cache, fs1) =>
      match decide_turn cfg cache rd with
      | Ok Active =>
          let r := performScrapeCycle cfg clock doc cache fs1 in
          {| t_decision := Ok Active; t_cache := r_cache r;
             t_fs := r_fs r; t_sent := r_sent r |}
      | d => {| t_decision := d; t_cache := cache; t_fs := fs1; t_sent := [] |}
      end
  end.

End Main.

(** ** Vocabulary of the specification *)

Section Vocabulary.
Context `{DateHost}.

(** Local midnight and local noon of the day that contains [t]. *)
Definition localMidnight (t : Z) : Z := Day (LocalTime t) * msPerDay - LocalTZA.
Definition localNoon (t : Z) : Z := localMidnight t + 12 * msPerHour.

Definition sameLocalDay (a b : Z) : Prop := Day (LocalTime a) = Day (LocalTime b).

(** The operating window of the day that contains [t]. *)
Definition windowStart (cfg : Config) (t : Z) : Z :=
  localMidnight t + MakeTime (START_HOUR cfg) (START_MINUTE cfg) 0 0.
Definition windowEnd (cfg : Config) (t : Z) : Z :=
  localMidnight t + MakeTime (END_HOUR cfg) (END_MINUTE cfg) 0 0.

(** A lead that counts for the day of [now]: still a Potential Lead and
    matched in [[local midnight, next local midnight)]. *)
Definition countsToday (now : Z) (lead : MatchedLead) : bool :=
  bool_decide (currentStatus lead = PotentialLead) &&
  match Date_parse (matchedOn lead) with
  | Some t => (localMidnight now <=? t) && (t <? localMidnight now + msPerDay)
  | None => false
  end.

Definition dailyCount (now : Z) (cache : Cache) : Z :=
  Z.of_nat (length (List.filter (countsToday now) (matchedLeads cache))).

(** All the readings of a turn fall on the local day of [now]. *)
Definition withinOneDay (rd : Readings) : Prop :=
  sameLocalDay (rd_today rd) (rd_now rd) /\ sameLocalDay (rd_later rd) (rd_now rd).

End Vocabulary.

Definition isOutsideWindow (d : Exn Decision) : bool :=
  match d with Ok (OutsideWindow _) => true | _ => false end.

Definition isMorningPause (d : Exn Decision) : bool :=
  match d with Ok (MorningPause _) => true | _ => false end.

(** The ids of the ledger, in ledger order. *)
Definition ids (cache : Cache) : list string := id <$> matchedLeads cache.

(** The lead after the transition stamped [nowISO]: a new status and one
    more history entry, everything else as it was. *)
Definition transitioned (nowISO : string) (lead : MatchedLead) : MatchedLead :=
  {| id := id lead;
     matchedOn := matchedOn lead;
     links := links lead;
     content := content lead;
     currentStatus := TransitionedToWaitlisted;
     statusHistory :=
       statusHistory lead ++
       [{| datetime_changed := nowISO; new_status := TransitionedToWaitlisted |}] |}.

(** The lead a record gives rise to when its id is new. *)
Definition created (stamp : string) (status : LeadStatus) (s : Scraped) : MatchedLead :=
  {| id := s_id s;
     matchedOn := stamp;
     links := s_links s;
     content := s_content s;
     currentStatus := status;
     statusHistory := [{| datetime_changed := stamp; new_status := status |}] |}.

(** What each cycle of a run observes. *)
Record CycleInput := {
  ci_clock : nat -> Z;
  ci_doc : Document
}.

Section Runs.
Context `{DateHost} `{JsonHost}.

(** The earliest instant at which one of [leads] was matched. *)
Definition earliestMatch (leads : list MatchedLead) : option Z :=
  foldr (fun lead acc =>
           match Date_parse (matchedOn lead), acc with
           | Some t, Some m => Some (Z.min t m)
           | Some t, None => Some t
           | None, _ => acc
           end) None leads.

(** Cycle after cycle on the same ledger. *)
Fixpoint run_cycles (cfg : Config) (inputs : list CycleInput)
    (cache : Cache) (fs : FileSystem) : Cache * FileSystem :=
  match inputs with
  | [] => (cache, fs)
  | i :: rest =>
      let r := performScrapeCycle cfg (ci_clock i) (ci_doc i) cache fs in
      run_cycles cfg rest (r_cache r) (r_fs r)
  end.

End Runs.

(** [k] occurs in [s] as a substring. *)
Definition Contains (s k : string) : Prop :=
  exists pre post, s = (pre ++ k ++ post)%string.

(** Instants whose year is written on four digits. *)
Definition fourDigitYear (t : Z) : Prop := 0 <= YearFromTime t <= 9999.

(** ** A day in the life of the scraper

    Concrete values for the evaluations below: the defaults of the script
    (keyword [asbestos], window 08:00 to 18:00, limits 6 and 3), a Node
    process ten hours east of UTC, and the 3rd of November 2026. *)

Module Demo.
Import JsString JsDate.

Definition tza : Z := 36000000.
Definition dateHost : DateHost := NodeEnUS.host tza.
Definition jsonHost : JsonHost := NodeJson.host.

(** The instant at which the local wall clock of that day shows [h:m:s]. *)
Definition at_ (h m s : Z) : Z :=
  MakeDate (days_from_civil 2026 11 3) (MakeTime h m s 0) - tza.

Definition cfg : Config :=
  {| KEYWORD_ARRAY := ["asbestos"%string]; MATCH_TYPE := MatchEach;
     START_HOUR := 8; START_MINUTE := 0; END_HOUR := 18; END_MINUTE := 0;
     DAILY_LIMIT := 6; MORNING_LIMIT := 3 |}.

(** The same with [DAILY_MATCHES_LIMIT=2] and [MORNING_MATCHES_LIMIT=2]. *)
Definition cfgDaily2 : Config :=
  {| KEYWORD_ARRAY := ["asbestos"%string]; MATCH_TYPE := MatchEach;
     START_HOUR := 8; START_MINUTE := 0; END_HOUR := 18; END_MINUTE := 0;
     DAILY_LIMIT := 2; MORNING_LIMIT := 3 |}.
Definition cfgMorning2 : Config :=
  {| KEYWORD_ARRAY := ["asbestos"%string]; MATCH_TYPE := MatchEach;
     START_HOUR := 8; START_MINUTE := 0; END_HOUR := 18; END_MINUTE := 0;
     DAILY_LIMIT := 6; MORNING_LIMIT := 2 |}.

(** A turn that starts at [t]; the later readings come 2 ms and 5 s after. *)
Definition turnAt (t : Z) : Readings :=
  {| rd_now := t; rd_today := t + 2; rd_later := t + 5000 |}.

Definition noLeads : Cache := {| matchedLeads := [] |}.

Definition fresh (cache : Cache) : CycleState :=
  {| cs_cache := cache; cs_cacheUpdated := false;
     cs_newMatchFoundThisCycle := false; cs_sent := [] |}.

Definition emptyDisk : FileSystem := {| fileContent := None; writeRefused := false |}.

(** An article that matches the keyword, and the same article once the
    page shows it as wait-listed. *)
Definition quoteArticle (name : string) : Article :=
  {| art_id := name;
     art_anchors := [{| a_href := "https://example.test/accept"; a_innerText := " Accept " |}];
     art_outerHTML := "<article></article>";
     art_statusSpan := None;
     art_h2 := ["Asbestos Removal quote"%string];
     art_h4 := ["Description"%string];
     art_h4p := ["Old shed roof"%string];
     art_textContent := " Asbestos Removal quote Description Old shed roof Accept " |}.

Definition waitlistArticle (name : string) : Article :=
  {| art_id := name;
     art_anchors := [];
     art_outerHTML := "<article></article>";
     art_statusSpan := Some " Waitlist "%string;
     art_h2 := ["Asbestos Removal quote"%string];
     art_h4 := [];
     art_h4p := [];
     art_textContent := " Waitlist Asbestos Removal quote " |}.

Definition pageOf (articles : list Article) : Document :=
  {| doc_emphasis := []; doc_articles := articles |}.

(** What the page callback returns for them. *)
Definition scrapedQuote (name : string) : Scraped :=
  {| s_id := name; s_hasMatch := true; s_status := Some PotentialLead;
     s_links := [{| href := Some "https://example.test/accept"%string; text := "Accept" |}];
     s_content := "Asbestos Removal quote Description Old shed roof Accept" |}.

Definition scrapedWaitlist (name : string) : Scraped :=
  {| s_id := name; s_hasMatch := true; s_status := Some AlreadyWaitlisted;
     s_links := []; s_content := "Waitlist Asbestos Removal quote" |}.

(** A Potential Lead as the cycle running at [t] creates it. *)
Definition leadAt (name : string) (t : Z) : MatchedLead :=
  created (@toLocaleString dateHost t) PotentialLead (scrapedQuote name).

End Demo.

(** ** More vocabulary: what a cycle may do to a lead *)

(** How a lead of the ledger may look after some cycles: the identity
    fields as they were, the history grown at its end, and the status
    either as it was or advanced from Potential Lead to Transitioned to
    Waitlisted; a lead that is not a Potential Lead is left alone. *)
Definition keptAs (l l' : MatchedLead) : Prop :=
  id l' = id l /\ matchedOn l' = matchedOn l /\
  links l' = links l /\ content l' = content l /\
  statusHistory l `prefix_of` statusHistory l' /\
  (currentStatus l' = currentStatus l \/
   (currentStatus l = PotentialLead /\ currentStatus l' = TransitionedToWaitlisted)) /\
  (currentStatus l <> PotentialLead -> l' = l).

(** One step of that: untouched, or transitioned once. *)
Definition stepsTo (l l' : MatchedLead) : Prop :=
  l' = l \/ (currentStatus l = PotentialLead /\ exists stamp, l' = transitioned stamp l).

(** The history of a lead agrees with its other fields: it starts at
    [matchedOn] and ends with the current status. *)
Definition historyConsistent (l : MatchedLead) : Prop :=
  (exists h, head (statusHistory l) = Some h /\ datetime_changed h = matchedOn l) /\
  (exists h, list.last (statusHistory l) = Some h /\ new_status h = currentStatus l).

(** What the page callback can return: a status exactly when there is a
    match, and never the status of a transition. *)
Definition scrapedShape (s : Scraped) : Prop :=
  (s_hasMatch s = true <-> s_status s <> None) /\
  s_status s <> Some TransitionedToWaitlisted.

(** A record that would change nothing on the ledger [leads]. *)
Definition quiet (a : Scraped) (leads : list MatchedLead) : Prop :=
  match list_find (fun l => id l = s_id a) leads with
  | None => s_status a = None
  | Some (_, l) =>
      ~ (currentStatus l = PotentialLead /\ s_status a = Some AlreadyWaitlisted)
  end.

(** Leads in the ledger plus leads past their transition: every change a
    cycle makes raises it. *)
Definition progress (cache : Cache) : nat :=
  length (matchedLeads cache) +
  length (List.filter
            (fun l => bool_decide (currentStatus l = TransitionedToWaitlisted))
            (matchedLeads cache)).

(** What a notification sent during a cycle looks like against the ledger
    the cycle leaves: it is about a lead of that ledger, and it is either
    the mail for a new Potential Lead (no elapsed time, one history entry)
    or the mail for a transition (with the elapsed time). *)
Definition notificationOf (cache : Cache) (n : Notification) : Prop :=
  id (n_lead n) ∈ ids cache /\
  ((n_elapsedTime n = None /\ currentStatus (n_lead n) = PotentialLead /\
    length (statusHistory (n_lead n)) = 1%nat) \/
   ((exists e, n_elapsedTime n = Some e) /\
    currentStatus (n_lead n) = TransitionedToWaitlisted)).

(** The offsets of the window's ends from local midnight, as
    [setHours(START_HOUR, START_MINUTE, 0, 0)] adds them. *)
Definition startOffset (cfg : Config) : Z :=
  JsDate.MakeTime (START_HOUR cfg) (START_MINUTE cfg) 0 0.
Definition endOffset (cfg : Config) : Z :=
  JsDate.MakeTime (END_HOUR cfg) (END_MINUTE cfg) 0 0.

(** ** Failures of the page

    [page.reload] and the [page.screenshot] taken for a new matching lead
    are awaited inside the outer [try] of [performScrapeCycle] and nowhere
    else guarded: when one of them rejects, control goes to the outer
    [catch], the cache is not written and [newMatchFoundThisCycle] is
    returned as it stands.  Every other page operation of the loop sits in
    an inner [try] whose handler only logs. *)
Record PageFaults := {
  (** [page.reload] rejects *)
  reloadFails : bool;
  (** the screenshot taken while the [k]-th record is processed succeeds *)
  screenshotOk : nat -> bool
}.

Section Faults.
Context `{JsDate.DateHost}.

(** The loop with the screenshots; the boolean tells whether the loop was
    left by an exception. *)
Fixpoint forEachArticleWith (faults : PageFaults) (clock : nat -> Z) (k : nat)
    (leadsOnPage : list Scraped) (st : CycleState) : CycleState * bool :=
  match leadsOnPage with
  | [] => (st, false)
  | scrapedArticle :: rest =>
      let isNew :=
        match list_find (fun l => id l = s_id scrapedArticle)
                (matchedLeads (cs_cache st)) with
        | None =>
            match s_hasMatch scrapedArticle, s_status scrapedArticle with
            | true, Some _ => true
            | _, _ => false
            end
        | Some _ => false
        end in
      if isNew && negb (screenshotOk faults k) then
        ({| cs_cache := cs_cache st;
            cs_cacheUpdated := cs_cacheUpdated st;
            cs_newMatchFoundThisCycle := true;
            cs_sent := cs_sent st |}, true)
      else
        forEachArticleWith faults clock (S k) rest
          (processArticle (clock k) scrapedArticle st)
  end.

Context `{JsonHost}.

Definition performScrapeCycleWith (faults : PageFaults) (cfg : Config)
    (clock : nat -> Z) (doc : Document) (cache : Cache) (fs : FileSystem)
    : CycleResult :=
  if reloadFails faults then
    {| r_newMatchFound := false; r_cache := cache; r_fs := fs; r_sent := [] |}
  else
    match emapM (scrapeArticle doc (KEYWORD_ARRAY cfg) (MATCH_TYPE cfg))
                (doc_articles doc) with
    | Throw _ =>
        {| r_newMatchFound := false; r_cache := cache; r_fs := fs; r_sent := [] |}
    | Ok leadsOnPage =>
        let '(st, thrown) :=
          forEachArticleWith faults clock 0 leadsOnPage
            {| cs_cache := cache; cs_cacheUpdated := false;
               cs_newMatchFoundThisCycle := false; cs_sent := [] |} in
        let fs' :=
          if negb thrown && cs_cacheUpdated st
          then match writeCache (cs_cache st) fs with
               | Ok fs' => fs'
               | Throw _ => fs
               end
          else fs in
        {| r_newMatchFound := cs_newMatchFoundThisCycle st;
           r_cache := cs_cache st; r_fs := fs'; r_sent := cs_sent st |}
    end.

End Faults.

(** ** The parts of an elapsed time *)

(** One unit of [formatElapsedTime]: printed only when positive. *)
Definition part (n : Z) (unit : string) : list string :=
  if 0 <? n then [(JsString.ofZ n ++ unit)%string] else [].

(** ** The configuration constants of [scraper.ts]

    What the script computes from [process.env] before [main] starts. *)

Module Settings.
Import JsString.

(** The variables of [process.env] the constants read; [None] is
    [undefined]. *)
Record Env := {
  TIME_WINDOW_START : option string;
  TIME_WINDOW_END : option string;
  DAILY_MATCHES_LIMIT : option string;
  MORNING_MATCHES_LIMIT : option string;
  KEYWORDS : option string;
  KEYWORD_MATCH_TYPE : option string
}.

(** [v || d] where [v] may be [undefined] *)
Definition orDefault (v : option string) (d : string) : string :=
  match v with
  | Some s => orElse s d
  | None => d
  end.

(** [String.prototype.split] with a separator of one character. *)
Fixpoint split (sep : ascii) (s : string) : list string :=
  match s with
  | EmptyString => [EmptyString]
  | String c r =>
      if Ascii.eqb c sep then EmptyString :: split sep r
      else match split sep r with
           | x :: xs => String c x :: xs
           | [] => [String c EmptyString]
           end
  end.

(** [v?.split(':')[i]] *)
Definition splitAt (v : option string) (i : nat) : option string :=
  match v with
  | Some s => split ":" s !! i
  | None => None
  end.

(** [parseInt(s, 10)]: leading white space and a sign are skipped, then
    the longest run of decimal digits is read; [None] is [NaN].  The value
    is the exact integer, as the Number is while it stays below [2^53]. *)
Definition parseInt (s : string) : option Z :=
  match trimStart s with
  | String "-" r => Z.opp <$> fst (NodeEnUS.readDigits None r)
  | String "+" r => fst (NodeEnUS.readDigits None r)
  | t => fst (NodeEnUS.readDigits None t)
  end.

Definition KEYWORD_ARRAY (env : Env) : list string :=
  List.filter (fun k => (0 <? String.length k)%nat)
    (map (fun k => toLowerCase (trim k))
         (split "," (orDefault (KEYWORDS env) "asbestos"))).

Definition MATCH_TYPE (env : Env) : MatchType :=
  match KEYWORD_MATCH_TYPE env with
  | Some s => if String.eqb s "all" then MatchAll else MatchEach
  | None => MatchEach
  end.

Definition START_HOUR (env : Env) : option Z :=
  parseInt (orDefault (splitAt (TIME_WINDOW_START env) 0) "8").
Definition START_MINUTE (env : Env) : option Z :=
  parseInt (orDefault (splitAt (TIME_WINDOW_START env) 1) "0").
Definition END_HOUR (env : Env) : option Z :=
  parseInt (orDefault (splitAt (TIME_WINDOW_END env) 0) "18").
Definition END_MINUTE (env : Env) : option Z :=
  parseInt (orDefault (splitAt (TIME_WINDOW_END env) 1) "0").

Definition DAILY_LIMIT (env : Env) : option Z :=
  parseInt (orDefault (DAILY_MATCHES_LIMIT env) "6").
Definition MORNING_LIMIT (env : Env) : option Z :=
  parseInt (orDefault (MORNING_MATCHES_LIMIT env) "3").

(** The constants together, when every number among them is one; a [NaN]
    is outside what [Config] holds. *)
Definition config (env : Env) : option Config :=
  sh ← START_HOUR env; sm ← START_MINUTE env;
  eh ← END_HOUR env; em ← END_MINUTE env;
  dl ← DAILY_LIMIT env; ml ← MORNING_LIMIT env;
  Some (Build_Config (KEYWORD_ARRAY env) (MATCH_TYPE env) sh sm eh em dl ml).

End Settings.

(** A [KEYWORDS] value made of commas and white space only. *)
Fixpoint blankList (s : string) : bool :=
  match s with
  | EmptyString => true
  | String c r => (Ascii.eqb c "," || JsString.isSpace c) && blankList r
  end.

(** ** The earlier variant of [scraper.ts]

    The first of the two versions of the script differs from the second in
    three places: the stamp of a new lead is [new Date().toISOString()],
    and the two limits of [main] are the literals [2] and [1].  The page
    callback and the helper functions are the same text. *)

Module V1.
Import JsDate.

Section Lifecycle.
Context `{DateHost}.

Definition processArticle (clock : Z) (scrapedArticle : Scraped)
    (st : CycleState) : CycleState :=
  let leads := matchedLeads (cs_cache st) in
  match list_find (fun l => id l = s_id scrapedArticle) leads with
  | None =>
      match s_hasMatch scrapedArticle, s_status scrapedArticle with
      | true, Some status =>
          let nowISO := toISOString clock in
          let newLead :=
            {| id := s_id scrapedArticle;
               matchedOn := nowISO;
               links := s_links scrapedArticle;
               content := s_content scrapedArticle;
               currentStatus := status;
               statusHistory :=
                 [{| datetime_changed := nowISO; new_status := status |}] |} in
          {| cs_cache := {| matchedLeads := newLead :: leads |};
             cs_cacheUpdated := true;
             cs_newMatchFoundThisCycle := true;
             cs_sent :=
               if bool_decide (currentStatus newLead = PotentialLead)
               then cs_sent st ++ [{| n_lead := newLead; n_elapsedTime := None |}]
               else cs_sent st |}
      | _, _ => st
      end
  | Some (existingLeadIndex, existingLead) =>
      if bool_decide (currentStatus existingLead = PotentialLead)
         && bool_decide (s_status scrapedArticle = Some AlreadyWaitlisted)
      then
        let nowISO := toISOString clock in
        let newStatus := TransitionedToWaitlisted in
        let existingLead' :=
          {| id := id existingLead;
             matchedOn := matchedOn existingLead;
             links := links existingLead;
             content := content existingLead;
             currentStatus := newStatus;
             statusHistory :=
               statusHistory existingLead ++
               [{| datetime_changed := nowISO; new_status := newStatus |}] |} in
        let initialTime := Date_parse (matchedOn existingLead') in
        let transitionTime := Date_parse nowISO in
        let elapsedTimeMs :=
          match transitionTime, initialTime with
          | Some a, Some b => Some (a - b)
          | _, _ => None
          end in
        let formattedElapsedTime := formatElapsedTime elapsedTimeMs in
        {| cs_cache := {| matchedLeads := <[existingLeadIndex := existingLead']> leads |};
           cs_cacheUpdated := true;
           cs_newMatchFoundThisCycle := true;
           cs_sent :=
             cs_sent st ++
             [{| n_lead := existingLead'; n_elapsedTime := Some formattedElapsedTime |}] |}
      else st
  end.

Fixpoint forEachArticle (clock : nat -> Z) (k : nat) (leadsOnPage : list Scraped)
    (st : CycleState) : CycleState :=
  match leadsOnPage with
  | [] => st
  | scrapedArticle :: rest =>
      forEachArticle clock (S k) rest (processArticle (clock k) scrapedArticle st)
  end.

Context `{JsonHost}.

Definition performScrapeCycle (cfg : Config) (clock : nat -> Z) (doc : Document)
    (cache : Cache) (fs : FileSystem) : CycleResult :=
  match emapM (scrapeArticle doc (KEYWORD_ARRAY cfg) (MATCH_TYPE cfg))
              (doc_articles doc) with
  | Throw _ =>
      {| r_newMatchFound := false; r_cache := cache; r_fs := fs; r_sent := [] |}
  | Ok leadsOnPage =>
      let st :=
        forEachArticle clock 0 leadsOnPage
          {| cs_cache := cache; cs_cacheUpdated := false;
             cs_newMatchFoundThisCycle := false; cs_sent := [] |} in
      let fs' :=
        if cs_cacheUpdated st
        then match writeCache (cs_cache st) fs with
             | Ok fs' => fs'
             | Throw _ => fs
             end
        else fs in
      {| r_newMatchFound := cs_newMatchFoundThisCycle st;
         r_cache := cs_cache st; r_fs := fs'; r_sent := cs_sent st |}
  end.

End Lifecycle.

Section Scheduler.
Context `{DateHost}.

Definition decide_turn (cfg : Config) (cache : Cache) (rd : Readings)
    : Exn Decision :=
  let now := rd_now rd in
  let todayWindow := getWindowTimes cfg now in
  let todaysMatches := getTodaysMatches (rd_today rd) cache in
  if (now <? fst todayWindow) || (snd todayWindow <? now) then
    let sleepUntil :=
      if snd todayWindow <? now then
        let tomorrow := setDate (rd_later rd) (getDate now + 1) in
        fst (getWindowTimes cfg tomorrow)
      else fst todayWindow in
    Ok (OutsideWindow (sleepUntil - now))
  else if 2 <=? Z.of_nat (length todaysMatches) then
    let tomorrow := setDate (rd_later rd) (getDate now + 1) in
    let sleepUntil := fst (getWindowTimes cfg tomorrow) in
    Ok (QuotaExhausted (sleepUntil - now))
  else if Z.of_nat (length todaysMatches) =? 1 then
    match todaysMatches with
    | [] => Throw TypeError
    | first :: _ =>
        let firstMatchTime := Date_parse (matchedOn first) in
        let noon := setHours (rd_later rd) 12 0 0 0 in
        if dateLt firstMatchTime (Some noon) && (now <? noon)
        then Ok (MorningPause (noon - now))
        else Ok Active
    end
  else Ok Active.

End Scheduler.

End V1.

(** The same host, except that its locale rendering is the ISO one. *)
Definition isoHost (host : JsDate.DateHost) : JsDate.DateHost :=
  {| JsDate.LocalTZA := JsDate.LocalTZA;
     JsDate.toLocaleString := JsDate.toISOString;
     JsDate.parseLegacy := JsDate.parseLegacy |}.

(** The same settings with the limits of the earlier variant. *)
Definition withLimits (daily morning : Z) (cfg : Config) : Config :=
  {| KEYWORD_ARRAY := KEYWORD_ARRAY cfg; MATCH_TYPE := MATCH_TYPE cfg;
     START_HOUR := START_HOUR cfg; START_MINUTE := START_MINUTE cfg;
     END_HOUR := END_HOUR cfg; END_MINUTE := END_MINUTE cfg;
     DAILY_LIMIT := daily; MORNING_LIMIT := morning |}.

(** Every stamp of the lead is an ISO-8601 date-time. *)
Definition isoStamped (l : MatchedLead) : Prop :=
  JsDate.isISO8601 (matchedOn l) = true /\
  Forall (fun h => JsDate.isISO8601 (datetime_changed h) = true) (statusHistory l).

(** A string that does not begin with white space. *)
Definition startsClean (s : string) : Prop :=
  match s with
  | EmptyString => True
  | String c _ => JsString.isSpace c = false
  end.

(** ** The accepting scraper, [index.js]

    The later of the two versions of [index.js]: it accepts one lead per
    run and remembers the titles it has accepted, in memory and in
    [leads.json]. *)

Module Accept.
Import JsString.

(** What [page.evaluate] reads of an [article]: the text of its links and
    of its first [h2]. *)
Record LeadArticle := {
  la_anchors : list string;
  la_h2 : option string
}.

(** What happens to the page during a run: whether [page.$(selector)]
    finds the link again, and whether the click, the key presses and the
    screenshots all succeed. *)
Record PageRun := {
  articles : list LeadArticle;
  handleFound : bool;
  processOk : bool
}.

(** The callback of [page.evaluate]: the title, when the article has an
    [Accept] link. *)
Definition leadInfo (el : LeadArticle) : option string :=
  match List.find (fun a => String.eqb (trim a) "Accept") (la_anchors el) with
  | None => None
  | Some _ =>
      Some match la_h2 el with
           | Some t => trim t
           | None => "Lead with no title found"%string
           end
  end.

(** The [Set] of titles, in insertion order. *)
Definition has (acceptedLeadTitles : list string) (title : string) : bool :=
  bool_decide (title ∈ acceptedLeadTitles).

Definition add (title : string) (acceptedLeadTitles : list string) : list string :=
  if has acceptedLeadTitles title then acceptedLeadTitles
  else acceptedLeadTitles ++ [title].

(** [JSON.stringify(titlesArray, null, 2)] *)
Definition stringifyTitles (titles : list string) : string :=
  NodeJson.array "" (map NodeJson.quoted titles).

(** [saveAcceptedLeads]: an error of the write is logged and dropped. *)
Definition saveAcceptedLeads (acceptedLeadTitles : list string) (fs : FileSystem)
    : FileSystem :=
  match fs_writeFile (stringifyTitles acceptedLeadTitles) fs with
  | Ok fs' => fs'
  | Throw _ => fs
  end.

Record RunResult := {
  acceptedCount : Z;
  titles : list string;
  disk : FileSystem;
  emailed : list string
}.

(** The titles of the articles that come into question, in page order. *)
Fixpoint leadsToClick (acceptedLeadTitles : list string) (els : list LeadArticle)
    : list string :=
  match els with
  | [] => []
  | el :: rest =>
      match leadInfo el with
      | Some title =>
          if has acceptedLeadTitles title then leadsToClick acceptedLeadTitles rest
          else title :: leadsToClick acceptedLeadTitles rest
      | None => leadsToClick acceptedLeadTitles rest
      end
  end.

(** [scrapeAndAcceptLeads(page, acceptedLeadTitles)]; no [article] on the
    page is the time-out of [waitForSelector]. *)
Definition scrapeAndAcceptLeads (page : PageRun) (acceptedLeadTitles : list string)
    (fs : FileSystem) : RunResult :=
  let unchanged :=
    {| acceptedCount := 0; titles := acceptedLeadTitles; disk := fs; emailed := [] |} in
  match articles page with
  | [] => unchanged
  | _ =>
      match leadsToClick acceptedLeadTitles (articles page) with
      | [] => unchanged
      | leadTitle :: _ =>
          let acceptedLeadTitles := add leadTitle acceptedLeadTitles in
          if handleFound page then
            if processOk page then
              {| acceptedCount := 1; titles := acceptedLeadTitles;
                 disk := saveAcceptedLeads acceptedLeadTitles fs;
                 emailed := [leadTitle] |}
            else
              {| acceptedCount := 0; titles := acceptedLeadTitles; disk := fs;
                 emailed := [leadTitle] |}
          else
            {| acceptedCount := 0; titles := acceptedLeadTitles; disk := fs;
               emailed := [] |}
      end
  end.

(** The runs of [intervalJob], one after the other on the same [Set]. *)
Fixpoint runJobs (pages : list PageRun) (acceptedLeadTitles : list string)
    (fs : FileSystem) : RunResult :=
  match pages with
  | [] => {| acceptedCount := 0; titles := acceptedLeadTitles; disk := fs; emailed := [] |}
  | page :: rest =>
      let r := scrapeAndAcceptLeads page acceptedLeadTitles fs in
      let r' := runJobs rest (titles r) (disk r) in
      {| acceptedCount := acceptedCount r + acceptedCount r';
         titles := titles r'; disk := disk r';
         emailed := emailed r ++ emailed r' |}
  end.

End Accept.

(** ** The same cycle at another time

    Two leads, two notifications or two states of the loop that differ at
    most in their stamps and elapsed times. *)
Definition sameLead (l1 l2 : MatchedLead) : Prop :=
  id l1 = id l2 /\ currentStatus l1 = currentStatus l2 /\
  links l1 = links l2 /\ content l1 = content l2.

Definition sameNotice (n1 n2 : Notification) : Prop :=
  sameLead (n_lead n1) (n_lead n2) /\
  (n_elapsedTime n1 = None <-> n_elapsedTime n2 = None).

Definition sameUpToStamps (st1 st2 : CycleState) : Prop :=
  Forall2 sameLead (matchedLeads (cs_cache st1)) (matchedLeads (cs_cache st2)) /\
  cs_cacheUpdated st1 = cs_cacheUpdated st2 /\
  cs_newMatchFoundThisCycle st1 = cs_newMatchFoundThisCycle st2 /\
  Forall2 sameNotice (cs_sent st1) (cs_sent st2).

(** The ids of the leads the notifications are about. *)
Definition notified (sent : list Notification) : list string :=
  (fun n => id (n_lead n)) <$> sent.

(** * Properties *)

(** ** Calendar and ISO-8601 facts *)

Section DateFacts.
Import JsDate.

Local Ltac split_ifs :=
  repeat match goal with
         | |- context [if ?b then _ else _] => destruct b eqn:?
         end.

Lemma days_from_civil_from_days z :
  let '(y, m, d) := civil_from_days z in days_from_civil y m d = z.
Proof.
  unfold civil_from_days, days_from_civil; cbv zeta.
  split_ifs; try lia; Z.div_mod_to_equations; lia.
Qed.

Lemma civil_from_days_range z :
  let '(y, m, d) := civil_from_days z in 1 <= m <= 12 /\ 1 <= d <= 31.
Proof.
  unfold civil_from_days; cbv zeta.
  split_ifs; Z.div_mod_to_equations; lia.
Qed.

Lemma civil_from_days_year z :
  -100000001 <= z <= 100000000 ->
  let '(y, m, d) := civil_from_days z in -271822 <= y <= 275761.
Proof.
  unfold civil_from_days; cbv zeta; intros Hz.
  split_ifs; Z.div_mod_to_equations; lia.
Qed.

Lemma digitVal_digit n : digitVal (digit n) = Some (n mod 10).
Proof.
  unfold digit.
  assert (Hr : 0 <= n mod 10 < 10) by (apply Z.mod_pos_bound; lia).
  rewrite <- (Z2Nat.id (n mod 10)) at 2 by lia.
  assert (Hk : (Z.to_nat (n mod 10) < 10)%nat) by lia.
  revert Hk. generalize (Z.to_nat (n mod 10)). intros k Hk.
  do 10 (destruct k as [|k]; [reflexivity|]). lia.
Qed.

Lemma num_pad2 n : 0 <= n < 100 -> num (pad2 n) = Some n.
Proof.
  intros Hn. unfold pad2, num. cbn [numAcc]. rewrite !digitVal_digit.
  f_equal. Z.div_mod_to_equations; lia.
Qed.

Lemma num_pad3 n : 0 <= n < 1000 -> num (pad3 n) = Some n.
Proof.
  intros Hn. unfold pad3, pad2, num. cbn [numAcc]. rewrite !digitVal_digit.
  f_equal. Z.div_mod_to_equations; lia.
Qed.

Lemma num_pad4 n : 0 <= n < 10000 -> num (pad4 n) = Some n.
Proof.
  intros Hn. unfold pad4, pad3, pad2, num. cbn [numAcc]. rewrite !digitVal_digit.
  f_equal. Z.div_mod_to_equations; lia.
Qed.

(** A string that starts with a digit is read with a four-digit year. *)
Lemma parseISO_digit c s v :
  digitVal c = Some v -> parseISO (String c s) = parseISOAt 1 0 4 (String c s).
Proof.
  unfold parseISO. intros Hc.
  destruct c as [[] [] [] [] [] [] [] []]; vm_compute in Hc;
    first [discriminate Hc | reflexivity].
Qed.

Lemma parseISOAt_shape (a b c d e f g h i j k l m n o p q : ascii) :
  parseISOAt 1 0 4
    (String a (String b (String c (String d (String "-" (String e (String f
    (String "-" (String g (String h (String "T" (String i (String j
    (String ":" (String k (String l (String ":" (String m (String n
    (String "." (String o (String p (String q "Z"))))))))))))))))))))))) =
  (y ← num (String a (String b (String c (String d ""))));
   mo ← num (String e (String f ""));
   dd ← num (String g (String h ""));
   hh ← num (String i (String j ""));
   mi ← num (String k (String l ""));
   sec ← num (String m (String n ""));
   ms ← num (String o (String p (String q "")));
   if inRange 1 12 mo && inRange 1 31 dd && inRange 0 23 hh
      && inRange 0 59 mi && inRange 0 59 sec
   then Some (MakeDate (days_from_civil (1 * y) mo dd) (MakeTime hh mi sec ms))
   else None).
Proof. reflexivity. Qed.

Lemma time_fields t :
  0 <= HourFromTime t <= 23 /\ 0 <= MinFromTime t <= 59 /\
  0 <= SecFromTime t <= 59 /\ 0 <= msFromTime t <= 999 /\
  MakeDate (Day t)
    (MakeTime (HourFromTime t) (MinFromTime t) (SecFromTime t) (msFromTime t)) = t.
Proof.
  unfold HourFromTime, MinFromTime, SecFromTime, msFromTime, MakeDate, MakeTime,
    Day, msPerDay, msPerHour, msPerMinute, msPerSecond.
  Z.div_mod_to_equations. lia.
Qed.

(** Reading back what [toISOString] wrote gives the instant again. *)
Lemma parseISO_toISOString t :
  fourDigitYear t -> parseISO (toISOString t) = Some t.
Proof.
  unfold fourDigitYear, YearFromTime, toISOString. intros Hy.
  pose proof (days_from_civil_from_days (Day t)) as Hrt.
  pose proof (civil_from_days_range (Day t)) as Hr.
  destruct (civil_from_days (Day t)) as [[y m] d]. cbn [fst snd] in Hy.
  destruct (time_fields t) as (Hh & Hmi & Hs & Hms & Ht).
  unfold yearString.
  replace ((0 <=? y) && (y <=? 9999)) with true
    by (symmetry; apply andb_true_iff; lia).
  cbv [String.append pad4 pad3 pad2].
  erewrite parseISO_digit by apply digitVal_digit.
  rewrite parseISOAt_shape.
  change (String (digit (y / 1000)) (String (digit (y / 100))
            (String (digit (y / 10)) (String (digit y) "")))) with (pad4 y).
  change (String (digit (m / 10)) (String (digit m) "")) with (pad2 m).
  change (String (digit (d / 10)) (String (digit d) "")) with (pad2 d).
  change (String (digit (HourFromTime t / 10)) (String (digit (HourFromTime t)) ""))
    with (pad2 (HourFromTime t)).
  change (String (digit (MinFromTime t / 10)) (String (digit (MinFromTime t)) ""))
    with (pad2 (MinFromTime t)).
  change (String (digit (SecFromTime t / 10)) (String (digit (SecFromTime t)) ""))
    with (pad2 (SecFromTime t)).
  change (String (digit (msFromTime t / 100)) (String (digit (msFromTime t / 10))
            (String (digit (msFromTime t)) ""))) with (pad3 (msFromTime t)).
  rewrite num_pad4, !num_pad2, num_pad3 by lia.
  cbn [mbind option_bind].
  unfold inRange.
  replace (_ && _) with true by (symmetry; rewrite !andb_true_iff; lia).
  rewrite Z.mul_1_l, Hrt, Ht. reflexivity.
Qed.

Lemma isISO8601_toISOString t : fourDigitYear t -> isISO8601 (toISOString t) = true.
Proof. intros Ht. unfold isISO8601. now rewrite parseISO_toISOString. Qed.

Section WithHost.
Context `{DateHost}.

Lemma Date_parse_toISOString t :
  fourDigitYear t -> Date_parse (toISOString t) = Some t.
Proof. intros Ht. unfold Date_parse. now rewrite parseISO_toISOString. Qed.

Lemma setHours_localMidnight t h m :
  setHours t h m 0 0 = localMidnight t + MakeTime h m 0 0.
Proof. unfold setHours, localMidnight, UTC, MakeDate. lia. Qed.

Lemma setHours_midnight t : setHours t 0 0 0 0 = localMidnight t.
Proof. rewrite setHours_localMidnight. unfold MakeTime. lia. Qed.

Lemma setHours_noon t : setHours t 12 0 0 0 = localNoon t.
Proof. rewrite setHours_localMidnight. unfold localNoon, MakeTime. lia. Qed.

Lemma localMidnight_sameLocalDay a b :
  sameLocalDay a b -> localMidnight a = localMidnight b.
Proof. unfold sameLocalDay, localMidnight. now intros ->. Qed.

Lemma localMidnight_bounds t : localMidnight t <= t < localMidnight t + msPerDay.
Proof.
  unfold localMidnight, LocalTime, Day, msPerDay.
  Z.div_mod_to_equations. lia.
Qed.

(** [tomorrow.setDate(now.getDate() + 1)] lands on the day after [now]
    when [tomorrow] was created on the day of [now]. *)
Lemma localMidnight_setDate_next later now :
  sameLocalDay later now ->
  localMidnight (setDate later (getDate now + 1)) = localMidnight now + msPerDay.
Proof.
  unfold sameLocalDay, localMidnight, setDate, getDate, MakeDay, DateFromTime,
    LocalTime, UTC, MakeDate, TimeWithinDay.
  intros ->.
  generalize (snd (civil_from_days (Day (now + LocalTZA)))). intros dt.
  unfold Day, msPerDay. Z.div_mod_to_equations. lia.
Qed.

Lemma getTodaysMatches_countsToday clock now cache :
  sameLocalDay clock now ->
  getTodaysMatches clock cache = List.filter (countsToday now) (matchedLeads cache).
Proof.
  intros Hd. unfold getTodaysMatches.
  rewrite setHours_midnight.
  assert (Hmid : localMidnight (localMidnight clock) = localMidnight clock).
  { unfold localMidnight, LocalTime, Day, msPerDay. Z.div_mod_to_equations. lia. }
  assert (Htom : setDate (localMidnight clock) (getDate (localMidnight clock) + 1)
                 = localMidnight clock + msPerDay).
  { unfold setDate, getDate, MakeDay, UTC, MakeDate, TimeWithinDay.
    generalize (DateFromTime (LocalTime (localMidnight clock))). intros dt.
    unfold localMidnight, LocalTime, Day, msPerDay.
    Z.div_mod_to_equations. lia. }
  rewrite Htom, (localMidnight_sameLocalDay _ _ Hd).
  apply filter_ext. intros lead. unfold countsToday, dateGe, dateLt.
  destruct (Date_parse (matchedOn lead)) as [t|];
    destruct (bool_decide (currentStatus lead = PotentialLead)); cbn;
    rewrite ?andb_true_r, ?andb_false_r; reflexivity.
Qed.

End WithHost.

End DateFacts.

(** ** The keyword matcher *)

Section MatcherFacts.

Lemma append_String c (a b : string) : (String c a ++ b)%string = String c (a ++ b)%string.
Proof. reflexivity. Qed.

Lemma append_Empty (b : string) : ("" ++ b)%string = b.
Proof. reflexivity. Qed.

Lemma prefix_spec k s :
  String.prefix k s = true <-> exists post, s = (k ++ post)%string.
Proof.
  revert s. induction k as [|c k IH]; intros s.
  - split; [intros _; now exists s | intros _; now destruct s].
  - destruct s as [|c' s]; cbn [String.prefix].
    + split; [discriminate | intros [post Hp]; discriminate Hp].
    + destruct (ascii_dec c c') as [->|Hne].
      * rewrite IH. split; intros [post Hp]; exists post.
        -- now rewrite append_String, <- Hp.
        -- rewrite append_String in Hp. now injection Hp.
      * split; [discriminate|].
        intros [post Hp]. rewrite append_String in Hp. injection Hp as Hc _.
        congruence.
Qed.

Lemma includes_spec s k : includes s k = true <-> Contains s k.
Proof.
  unfold Contains. induction s as [|c s IH]; cbn [includes].
  - rewrite orb_false_r, prefix_spec. split.
    + intros [post Hp]. now exists ""%string, post.
    + intros (pre & post & Hp). destruct pre as [|c pre]; [|discriminate Hp].
      now exists post.
  - rewrite orb_true_iff, prefix_spec, IH. split.
    + intros [[post Hp] | (pre & post & Hp)].
      * now exists ""%string, post.
      * exists (String c pre), post. now rewrite append_String, <- Hp.
    + intros (pre & post & Hp). destruct pre as [|c' pre].
      * left. now exists post.
      * right. rewrite append_String in Hp. injection Hp as _ Hp.
        now exists pre, post.
Qed.

Lemma truthy_toLowerCase text : truthy (toLowerCase text) = truthy text.
Proof. now destruct text. Qed.

Lemma truthy_spec text : truthy text = true <-> text <> ""%string.
Proof. destruct text; cbn; split; congruence. Qed.

Lemma lowerChar_idem c : lowerChar (lowerChar c) = lowerChar c.
Proof. destruct c as [[] [] [] [] [] [] [] []]; reflexivity. Qed.

Lemma toLowerCase_idem s : toLowerCase (toLowerCase s) = toLowerCase s.
Proof. induction s as [|c s IH]; cbn; [reflexivity|]. now rewrite lowerChar_idem, IH. Qed.

Lemma keywordMatch_each text keywords :
  keywordMatch text keywords MatchEach = true <->
  text <> ""%string /\ Exists (Contains (toLowerCase text)) keywords.
Proof.
  unfold keywordMatch. rewrite truthy_toLowerCase, <- truthy_spec.
  destruct (truthy text); cbn [keywordTest].
  - rewrite existsb_exists, List.Exists_exists.
    split.
    + intros (k & Hin & Hk). split; [reflexivity|].
      exists k. split; [exact Hin | now apply includes_spec].
    + intros [_ (k & Hin & Hk)]. exists k. split; [exact Hin | now apply includes_spec].
  - split; [discriminate | intros [Hf _]; discriminate Hf].
Qed.

Lemma keywordMatch_all text keywords :
  keywordMatch text keywords MatchAll = true <->
  text <> ""%string /\ Forall (Contains (toLowerCase text)) keywords.
Proof.
  unfold keywordMatch. rewrite truthy_toLowerCase, <- truthy_spec.
  destruct (truthy text); cbn [keywordTest].
  - rewrite forallb_forall, List.Forall_forall.
    split.
    + intros Hall. split; [reflexivity|].
      intros k Hin. now apply includes_spec, Hall.
    + intros [_ Hall] k Hin. now apply includes_spec, Hall.
  - split; [discriminate | intros [Hf _]; discriminate Hf].
Qed.

End MatcherFacts.

(** C4 (amended): the matcher lowercases the text and tests substring
    containment of the (already lowercased) keywords.  In mode [each] it
    answers true iff the text is not empty and at least one keyword occurs in
    it; in mode [all] iff the text is not empty and every keyword occurs in
    it.  An empty text never matches.  With no keyword at all, mode [each]
    answers false, but mode [all] answers true for every non-empty text
    ([every] over an empty array). *)
Theorem keywordMatch_modes (text : string) (keywords : list string) :
  (keywordMatch text keywords MatchEach = true <->
     text <> ""%string /\ Exists (Contains (toLowerCase text)) keywords) /\
  (keywordMatch text keywords MatchAll = true <->
     text <> ""%string /\ Forall (Contains (toLowerCase text)) keywords) /\
  (forall mode, keywordMatch "" keywords mode = false) /\
  (forall mode, keywordMatch (toLowerCase text) keywords mode
                = keywordMatch text keywords mode) /\
  keywordMatch text [] MatchEach = false /\
  (keywordMatch text [] MatchAll = true <-> text <> ""%string).
Proof.
  split; [apply keywordMatch_each|].
  split; [apply keywordMatch_all|].
  split; [reflexivity|].
  split.
  { intros mode. unfold keywordMatch. now rewrite toLowerCase_idem. }
  split.
  { unfold keywordMatch. now destruct (truthy (toLowerCase text)). }
  rewrite keywordMatch_all. split; [now intros [Ht _] | intros Ht; split; [exact Ht | constructor]].
Qed.

(** C4, counterexample: with an empty keyword list and mode [all] a
    non-empty text matches, where the claim says it must not. *)
Lemma keywordMatch_empty_all_cex :
  keywordMatch "quote" [] MatchAll = true /\
  ~ (forall text mode, keywordMatch text [] mode = false).
Proof.
  split; [reflexivity|]. intros Hc.
  specialize (Hc "quote"%string MatchAll). discriminate Hc.
Qed.

(** ** The lead lifecycle *)

Section LifecycleFacts.
Context `{DateHost}.

Lemma list_find_id_lookup (leads : list MatchedLead) k i lead :
  list_find (fun l => id l = k) leads = Some (i, lead) ->
  leads !! i = Some lead /\ id lead = k.
Proof. intros (Hl & Hid & _)%list_find_Some. now split. Qed.

Lemma list_find_id_None (leads : list MatchedLead) k :
  list_find (fun l => id l = k) leads = None <-> k ∉ id <$> leads.
Proof.
  rewrite list_find_None, list_elem_of_fmap, list.Forall_forall. split.
  - intros Hall (l & Hk & Hin). now apply (Hall l Hin).
  - intros Hn l Hin Heq. apply Hn. now exists l.
Qed.

(** What [processArticle] does, case by case. *)
Lemma processArticle_found clock a st i lead :
  list_find (fun l => id l = s_id a) (matchedLeads (cs_cache st)) = Some (i, lead) ->
  processArticle clock a st =
    if bool_decide (currentStatus lead = PotentialLead)
       && bool_decide (s_status a = Some AlreadyWaitlisted)
    then
      let lead' := transitioned (toISOString clock) lead in
      {| cs_cache := {| matchedLeads := <[i := lead']> (matchedLeads (cs_cache st)) |};
         cs_cacheUpdated := true;
         cs_newMatchFoundThisCycle := true;
         cs_sent := cs_sent st ++
           [{| n_lead := lead';
               n_elapsedTime := Some (formatElapsedTime
                 match Date_parse (toISOString clock), Date_parse (matchedOn lead) with
                 | Some a, Some b => Some (a - b)
                 | _, _ => None
                 end) |}] |}
    else st.
Proof. intros Hf. unfold processArticle. rewrite Hf. reflexivity. Qed.

Lemma processArticle_new clock a st :
  list_find (fun l => id l = s_id a) (matchedLeads (cs_cache st)) = None ->
  processArticle clock a st =
    match s_hasMatch a, s_status a with
    | true, Some status =>
        let newLead := created (toLocaleString clock) status a in
        {| cs_cache := {| matchedLeads := newLead :: matchedLeads (cs_cache st) |};
           cs_cacheUpdated := true;
           cs_newMatchFoundThisCycle := true;
           cs_sent :=
             if bool_decide (status = PotentialLead)
             then cs_sent st ++ [{| n_lead := newLead; n_elapsedTime := None |}]
             else cs_sent st |}
    | _, _ => st
    end.
Proof. intros Hf. unfold processArticle. rewrite Hf. reflexivity. Qed.

Lemma ids_insert_transitioned (leads : list MatchedLead) i lead stamp :
  leads !! i = Some lead ->
  id <$> <[i := transitioned stamp lead]> leads = id <$> leads.
Proof.
  intros Hl. rewrite list_fmap_insert. apply list_insert_id.
  rewrite list_lookup_fmap, Hl. reflexivity.
Qed.

(** A record either leaves the ids alone or puts a new id in front. *)
Lemma processArticle_ids clock a st :
  ids (cs_cache (processArticle clock a st)) = ids (cs_cache st) \/
  ((s_id a ∉ ids (cs_cache st)) /\
   ids (cs_cache (processArticle clock a st)) = s_id a :: ids (cs_cache st)).
Proof.
  unfold ids.
  destruct (list_find (fun l => id l = s_id a) (matchedLeads (cs_cache st)))
    as [[i lead]|] eqn:Hf.
  - left. rewrite (processArticle_found _ _ _ _ _ Hf).
    destruct (_ && _); [|reflexivity].
    cbn. apply ids_insert_transitioned. now apply list_find_id_lookup in Hf.
  - rewrite (processArticle_new _ _ _ Hf).
    destruct (s_hasMatch a); [|now left].
    destruct (s_status a) as [status|]; [|now left].
    right. split; [now apply list_find_id_None|reflexivity].
Qed.

Lemma processArticle_NoDup clock a st :
  NoDup (ids (cs_cache st)) -> NoDup (ids (cs_cache (processArticle clock a st))).
Proof.
  intros Hnd. destruct (processArticle_ids clock a st) as [-> | [Hn ->]].
  - exact Hnd.
  - now apply NoDup_cons_2.
Qed.

Lemma forEachArticle_NoDup clock k leadsOnPage st :
  NoDup (ids (cs_cache st)) ->
  NoDup (ids (cs_cache (forEachArticle clock k leadsOnPage st))).
Proof.
  revert k st. induction leadsOnPage as [|a rest IH]; intros k st Hnd; cbn.
  - exact Hnd.
  - apply IH. now apply processArticle_NoDup.
Qed.

Context `{JsonHost}.

Lemma performScrapeCycle_NoDup cfg clock doc cache fs :
  NoDup (ids cache) -> NoDup (ids (r_cache (performScrapeCycle cfg clock doc cache fs))).
Proof.
  intros Hnd. unfold performScrapeCycle.
  destruct (emapM _ _) as [leadsOnPage|e]; cbn; [|exact Hnd].
  now apply forEachArticle_NoDup.
Qed.

(** The cache a turn works on is the parsed file or the empty one. *)
Lemma initializeCache_loaded fs cache fs' :
  initializeCache fs = Ok (cache, fs') ->
  cache = {| matchedLeads := [] |} \/
  exists data, fileContent fs = Some data /\ JSON_parse data = Some cache.
Proof.
  unfold initializeCache, writeCache, fs_readFile, fs_writeFile.
  destruct (fileContent fs) as [data|]; cbn.
  - destruct (String.eqb _ _); cbn.
    + destruct (writeRefused fs); cbn; intros [= <- _]; now left.
    + destruct (JSON_parse data) as [c|] eqn:Hp; cbn.
      * intros [= <- _]. right. now exists data.
      * destruct (writeRefused fs); cbn; intros [= <- _]; now left.
  - destruct (writeRefused fs); cbn; intros [= <- _]; now left.
Qed.

Lemma main_turn_NoDup cfg rd clock doc fs :
  (forall data cache,
     fileContent fs = Some data -> JSON_parse data = Some cache -> NoDup (ids cache)) ->
  NoDup (ids (t_cache (main_turn cfg rd clock doc fs))).
Proof.
  intros Hfile. unfold main_turn.
  destruct (initializeCache fs) as [[cache fs1]|e] eqn:Hi; [|constructor].
  assert (Hnd : NoDup (ids cache)).
  { destruct (initializeCache_loaded _ _ _ Hi) as [-> | (data & Hd & Hp)].
    - constructor.
    - exact (Hfile data cache Hd Hp). }
  destruct (decide_turn cfg cache rd) as [[| | |]|]; cbn; try exact Hnd.
  now apply performScrapeCycle_NoDup.
Qed.

Lemma run_cycles_NoDup cfg inputs cache fs :
  NoDup (ids cache) -> NoDup (ids (fst (run_cycles cfg inputs cache fs))).
Proof.
  revert cache fs. induction inputs as [|i rest IH]; intros cache fs Hnd; cbn.
  - exact Hnd.
  - apply IH. now apply performScrapeCycle_NoDup.
Qed.

End LifecycleFacts.

(** ** Transitions and the daily count *)

Section TransitionFacts.
Context `{DateHost}.

Lemma filter_insert_drop {A} (f : A -> bool) (l : list A) i x y :
  l !! i = Some x -> f x = true -> f y = false ->
  (length (List.filter f (<[i := y]> l)) + 1 = length (List.filter f l))%nat.
Proof.
  revert i. induction l as [|z l IH]; intros i Hl Hx Hy; [discriminate Hl|].
  destruct i as [|i]; simpl in *.
  - injection Hl as ->. rewrite Hx, Hy. cbn. lia.
  - specialize (IH i Hl Hx Hy). destruct (f z); simpl; lia.
Qed.

Lemma countsToday_transitioned now stamp lead :
  countsToday now (transitioned stamp lead) = false.
Proof. reflexivity. Qed.

Lemma dailyCount_after_transition now clock a st i lead :
  list_find (fun l => id l = s_id a) (matchedLeads (cs_cache st)) = Some (i, lead) ->
  currentStatus lead = PotentialLead ->
  s_status a = Some AlreadyWaitlisted ->
  countsToday now lead = true ->
  dailyCount now (cs_cache (processArticle clock a st)) = dailyCount now (cs_cache st) - 1.
Proof.
  intros Hf Hs Ha Hc. rewrite (processArticle_found _ _ _ _ _ Hf).
  rewrite Hs, Ha. cbn [bool_decide andb]. 
  rewrite !bool_decide_eq_true_2 by reflexivity. cbn [andb cs_cache]. cbv zeta.
  unfold dailyCount. cbn [matchedLeads cs_cache].
  apply list_find_id_lookup in Hf as [Hl _].
  pose proof (filter_insert_drop (countsToday now) _ _ _
                (transitioned (toISOString clock) lead) Hl Hc
                (countsToday_transitioned _ _ _)).
  lia.
Qed.

End TransitionFacts.

(** C1: when the id of a record is found in the ledger, at a lead that is
    a Potential Lead, and the record carries the wait-list marker, the lead
    at that index becomes Transitioned to Waitlisted, its history grows by
    exactly one entry stamped with the current instant (in ISO form) and the
    new status, and exactly one notification is sent, carrying the elapsed
    time: the current instant minus the instant [matchedOn] denotes.  For
    every other combination of the lead's status and the record's status
    nothing changes and nothing is sent. *)
Theorem transition_on_waitlist `{DateHost} (clock : Z) (a : Scraped)
    (st : CycleState) (i : nat) (lead : MatchedLead) :
  list_find (fun l => id l = s_id a) (matchedLeads (cs_cache st)) = Some (i, lead) ->
  fourDigitYear clock ->
  let st' := processArticle clock a st in
  let entry := {| datetime_changed := toISOString clock;
                  new_status := TransitionedToWaitlisted |} in
  let lead' := transitioned (toISOString clock) lead in
  let elapsed := match Date_parse (matchedOn lead) with
                 | Some matched => Some (clock - matched)
                 | None => None
                 end in
  (currentStatus lead = PotentialLead /\ s_status a = Some AlreadyWaitlisted ->
     matchedLeads (cs_cache st') = <[i := lead']> (matchedLeads (cs_cache st)) /\
     currentStatus lead' = TransitionedToWaitlisted /\
     statusHistory lead' = statusHistory lead ++ [entry] /\
     Date_parse (datetime_changed entry) = Some clock /\
     cs_sent st' = cs_sent st ++
       [{| n_lead := lead'; n_elapsedTime := Some (formatElapsedTime elapsed) |}]) /\
  (~ (currentStatus lead = PotentialLead /\ s_status a = Some AlreadyWaitlisted) ->
     st' = st).
Proof.
  intros Hf Hy st' entry lead' elapsed. subst st'.
  rewrite (processArticle_found _ _ _ _ _ Hf).
  pose proof (Date_parse_toISOString clock Hy) as Hp.
  split.
  - intros [Hs Ha]. rewrite Hs, Ha.
    rewrite !bool_decide_eq_true_2 by reflexivity. cbn [andb]. cbv zeta.
    cbn [cs_cache matchedLeads cs_sent]. rewrite Hp.
    repeat split; try reflexivity; exact Hp.
  - intros Hn.
    destruct (bool_decide (currentStatus lead = PotentialLead)) eqn:Hs;
      [|reflexivity].
    destruct (bool_decide (s_status a = Some AlreadyWaitlisted)) eqn:Ha;
      [|reflexivity].
    apply bool_decide_eq_true in Hs, Ha. exfalso. apply Hn. now split.
Qed.

(** ** The cache file *)

(** C8: when the cache file is absent, blank, or does not parse,
    [initializeCache] returns normally with an empty ledger and has issued
    the write of the empty document, which is the content of the file
    afterwards unless the write itself is refused (that error is swallowed
    too).  On no file system does [initializeCache] throw. *)
Theorem initializeCache_never_fails `{JsonHost} (fs : FileSystem) :
  (fileContent fs = None \/
   exists data, fileContent fs = Some data /\
     (JsString.trim data = EmptyString \/ JSON_parse data = None)) ->
  let empty := {| matchedLeads := [] |} in
  let rewritten := {| fileContent := Some (JSON_stringify empty);
                      writeRefused := false |} in
  initializeCache fs = Ok (empty, if writeRefused fs then fs else rewritten) /\
  (forall fs0, exists r, initializeCache fs0 = Ok r).
Proof.
  intros Hbad empty rewritten. split.
  - unfold initializeCache, writeCache, fs_readFile, fs_writeFile.
    destruct Hbad as [Hnone | (data & Hsome & [Hblank | Hparse])].
    + rewrite Hnone. cbn. now destruct (writeRefused fs).
    + rewrite Hsome. cbn. rewrite Hblank. cbn.
      now destruct (writeRefused fs).
    + rewrite Hsome. cbn. destruct (String.eqb _ _); cbn.
      * now destruct (writeRefused fs).
      * rewrite Hparse. cbn. now destruct (writeRefused fs).
  - intros fs0. unfold initializeCache, writeCache, fs_readFile, fs_writeFile.
    destruct (fileContent fs0) as [data|]; cbn.
    + destruct (String.eqb _ _); cbn.
      * destruct (writeRefused fs0); cbn; eauto.
      * destruct (JSON_parse data); cbn; [eauto|].
        destruct (writeRefused fs0); cbn; eauto.
    + destruct (writeRefused fs0); cbn; eauto.
Qed.

(** C6 (amended): a record whose id is new and whose article shows the
    wait-list marker creates a lead with status Already Waitlisted at the
    front of the ledger and marks the cache as updated, but sends no
    notification: the new-lead notification is sent only for a lead created
    as Potential Lead. *)
Theorem new_waitlisted_lead_is_silent `{DateHost} (doc : Document)
    (keywords : list string) (matchType : MatchType) (article : Article)
    (marker : string) (s : Scraped) (clock : Z) (st : CycleState) :
  art_statusSpan article = Some marker ->
  JsString.trim marker = "Waitlist"%string ->
  scrapeArticle doc keywords matchType article = Ok s ->
  s_id s ∉ ids (cs_cache st) ->
  let st' := processArticle clock s st in
  let newLead := created (toLocaleString clock) AlreadyWaitlisted s in
  s_status s = Some AlreadyWaitlisted /\
  matchedLeads (cs_cache st') = newLead :: matchedLeads (cs_cache st) /\
  currentStatus newLead = AlreadyWaitlisted /\
  cs_cacheUpdated st' = true /\
  cs_sent st' = cs_sent st /\
  (forall p : Scraped,
     s_hasMatch p = true -> s_status p = Some PotentialLead ->
     s_id p ∉ ids (cs_cache st) ->
     cs_sent (processArticle clock p st) = cs_sent st ++
       [{| n_lead := created (toLocaleString clock) PotentialLead p;
           n_elapsedTime := None |}]).
Proof.
  intros Hspan Htrim Hs Hnew st' newLead. subst st' newLead.
  assert (Hm : s_hasMatch s = true /\ s_status s = Some AlreadyWaitlisted).
  { unfold scrapeArticle in Hs. rewrite Hspan, Htrim in Hs. cbn in Hs.
    injection Hs as <-. now split. }
  destruct Hm as [Hm Hst].
  split; [exact Hst|].
  apply list_find_id_None in Hnew.
  rewrite (processArticle_new _ _ _ Hnew), Hm, Hst. cbn.
  repeat split.
  intros p Hpm Hp Hnp. apply list_find_id_None in Hnp.
  rewrite (processArticle_new _ _ _ Hnp), Hpm, Hp. reflexivity.
Qed.

(** C2: a record whose id is already in the ledger leaves the ids of the
    ledger as they are; the ledger grows only when the id lookup fails; and
    from a ledger with pairwise distinct ids, any run of cycles ends in a
    ledger with pairwise distinct ids; so does one turn of [main] on a
    cache file whose content has pairwise distinct ids. *)
Theorem ledger_ids_stay_distinct `{DateHost} `{JsonHost}
    (cfg : Config) (inputs : list CycleInput) (cache : Cache) (fs : FileSystem) :
  NoDup (ids cache) ->
  (forall clock a st,
     s_id a ∈ ids (cs_cache st) ->
     ids (cs_cache (processArticle clock a st)) = ids (cs_cache st)) /\
  (forall clock a st,
     length (matchedLeads (cs_cache (processArticle clock a st)))
       ≠ length (matchedLeads (cs_cache st)) ->
     list_find (fun l => id l = s_id a) (matchedLeads (cs_cache st)) = None) /\
  NoDup (ids (fst (run_cycles cfg inputs cache fs))) /\
  (forall rd clock doc fs0,
     (forall data loaded,
        fileContent fs0 = Some data -> JSON_parse data = Some loaded ->
        NoDup (ids loaded)) ->
     NoDup (ids (t_cache (main_turn cfg rd clock doc fs0)))).
Proof.
  intros Hnd. split; [|split; [|split]].
  - intros clock a st Hin.
    destruct (processArticle_ids clock a st) as [Heq | [Hn _]]; [exact Heq | contradiction].
  - intros clock a st Hlen.
    destruct (list_find _ _) as [[i lead]|] eqn:Hf; [|reflexivity].
    exfalso. apply Hlen. rewrite (processArticle_found _ _ _ _ _ Hf).
    destruct (_ && _); [|reflexivity]. cbn. apply length_insert.
  - now apply run_cycles_NoDup.
  - intros rd clock doc fs0. apply main_turn_NoDup.
Qed.

(** C9: a lead created in a cycle is stamped with [toLocaleString], in
    [matchedOn] and in its first history entry, and that is what the cache
    file receives.  In the en-US process the stamp reads
    [11/3/2026, 4:23:33 PM], which is not an ISO-8601 date-time; only the
    entries appended by a transition are written with [toISOString]. *)
Theorem new_lead_stamps_are_locale_strings :
  (forall (host : DateHost) clock s st status,
     list_find (fun l => id l = s_id s) (matchedLeads (cs_cache st)) = None ->
     s_hasMatch s = true -> s_status s = Some status ->
     matchedLeads (cs_cache (processArticle clock s st))
       = created (toLocaleString clock) status s :: matchedLeads (cs_cache st)) /\
  (let r := @performScrapeCycle Demo.dateHost Demo.jsonHost Demo.cfg
              (fun _ => Demo.at_ 16 23 33)
              (Demo.pageOf [Demo.quoteArticle "lead-1"; Demo.waitlistArticle "lead-2"])
              Demo.noLeads Demo.emptyDisk in
   fileContent (r_fs r) = Some (NodeJson.stringify (r_cache r)) /\
   map matchedOn (matchedLeads (r_cache r))
     = ["11/3/2026, 4:23:33 PM"; "11/3/2026, 4:23:33 PM"]%string /\
   map (fun l => JsDate.isISO8601 (matchedOn l)) (matchedLeads (r_cache r)) = [false; false] /\
   map (fun l => map (fun h => JsDate.isISO8601 (datetime_changed h)) (statusHistory l))
       (matchedLeads (r_cache r)) = [[false]; [false]]) /\
  (forall clock, fourDigitYear clock -> JsDate.isISO8601 (JsDate.toISOString clock) = true).
Proof.
  split; [|split].
  - intros host clock s st status Hf Hm Hs.
    rewrite (processArticle_new _ _ _ Hf), Hm, Hs. reflexivity.
  - vm_compute. repeat split; reflexivity.
  - exact isISO8601_toISOString.
Qed.

(** ** The scheduler *)

Section SchedulerFacts.
Context `{DateHost}.

Lemma getWindowTimes_window cfg t :
  getWindowTimes cfg t = (windowStart cfg t, windowEnd cfg t).
Proof. unfold getWindowTimes, windowStart, windowEnd. now rewrite !setHours_localMidnight. Qed.

(** The start of the window of the day after [now], as the loop computes it. *)
Lemma tomorrow_windowStart cfg later now :
  sameLocalDay later now ->
  fst (getWindowTimes cfg (setDate later (getDate now + 1))) = windowStart cfg now + msPerDay.
Proof.
  intros Hd. rewrite getWindowTimes_window. cbn [fst]. unfold windowStart.
  rewrite (localMidnight_setDate_next _ _ Hd). lia.
Qed.

(** One turn, in the vocabulary of the specification. *)
Lemma decide_turn_within_day cfg cache rd :
  withinOneDay rd ->
  decide_turn cfg cache rd =
    let now := rd_now rd in
    let todaysMatches := List.filter (countsToday now) (matchedLeads cache) in
    if (now <? windowStart cfg now) || (windowEnd cfg now <? now) then
      Ok (OutsideWindow
            ((if windowEnd cfg now <? now then windowStart cfg now + msPerDay
              else windowStart cfg now) - now))
    else if DAILY_LIMIT cfg <=? dailyCount now cache then
      Ok (QuotaExhausted (windowStart cfg now + msPerDay - now))
    else if dailyCount now cache =? MORNING_LIMIT cfg then
      match todaysMatches with
      | [] => Throw TypeError
      | first :: _ =>
          if dateLt (Date_parse (matchedOn first)) (Some (localNoon now))
             && (now <? localNoon now)
          then Ok (MorningPause (localNoon now - now))
          else Ok Active
      end
    else Ok Active.
Proof.
  intros [Ht Hl]. unfold decide_turn, dailyCount. cbv zeta.
  rewrite (getTodaysMatches_countsToday _ _ _ Ht).
  rewrite getWindowTimes_window. cbn [fst snd].
  rewrite (tomorrow_windowStart _ _ _ Hl).
  rewrite setHours_noon. unfold localNoon.
  rewrite (localMidnight_sameLocalDay _ _ Hl).
  reflexivity.
Qed.

End SchedulerFacts.

(** C7 (amended): the turn is OutsideWindow exactly when [now] is before
    the start of today's window or after its end.  The window is the closed
    interval: an instant equal to the start, or equal to the end, is not
    OutsideWindow (for a window whose start is not after its end); an
    instant past the end is. *)
Theorem outside_window_iff `{DateHost} (cfg : Config) (cache : Cache) (rd : Readings) :
  let now := rd_now rd in
  let outside := isOutsideWindow (decide_turn cfg cache rd) in
  (outside = true <-> now < windowStart cfg now \/ windowEnd cfg now < now) /\
  (windowStart cfg now <= windowEnd cfg now ->
   (now = windowStart cfg now -> outside = false) /\
   (now = windowEnd cfg now -> outside = false)) /\
  (windowEnd cfg now < now -> outside = true).
Proof.
  cbv zeta.
  assert (Hiff : isOutsideWindow (decide_turn cfg cache rd) = true <->
                 rd_now rd < windowStart cfg (rd_now rd)
                 \/ windowEnd cfg (rd_now rd) < rd_now rd).
  { unfold decide_turn. cbv zeta. rewrite getWindowTimes_window. cbn [fst snd].
    destruct (_ || _) eqn:Ho.
    - cbn. apply orb_true_iff in Ho. split; [intros _ | reflexivity]. lia.
    - apply orb_false_iff in Ho.
      assert (Hn : ~ (rd_now rd < windowStart cfg (rd_now rd)
                      \/ windowEnd cfg (rd_now rd) < rd_now rd)) by lia.
      destruct (_ <=? _); cbn; [split; [discriminate | contradiction]|].
      destruct (_ =? _); cbn; [|split; [discriminate | contradiction]].
      destruct (getTodaysMatches _ _); cbn; [split; [discriminate | contradiction]|].
      destruct (_ && _); cbn; split; first [discriminate | contradiction]. }
  split; [exact Hiff|]. split.
  - intros Hle. split; intros Heq;
      (destruct (isOutsideWindow _); [|reflexivity]);
      (destruct (proj1 Hiff eq_refl); lia).
  - intros Hlt. apply Hiff. now right.
Qed.

(** C5: on a turn inside the window whose readings fall on one local
    day, if the number of leads that are still Potential Leads and were
    matched in [[local midnight, next local midnight)] reaches [DAILY_LIMIT],
    the turn is QuotaExhausted and sleeps until the start of tomorrow's
    window, whatever the time of day; with [DAILY_LIMIT = 0] every turn inside
    the window is QuotaExhausted. *)
Theorem quota_exhausted `{DateHost} (cfg : Config) (cache : Cache) (rd : Readings) :
  withinOneDay rd ->
  windowStart cfg (rd_now rd) <= rd_now rd <= windowEnd cfg (rd_now rd) ->
  let asleep :=
    Ok (QuotaExhausted (windowStart cfg (rd_now rd) + msPerDay - rd_now rd)) in
  (DAILY_LIMIT cfg <= dailyCount (rd_now rd) cache -> decide_turn cfg cache rd = asleep) /\
  (DAILY_LIMIT cfg = 0 -> decide_turn cfg cache rd = asleep).
Proof.
  intros Hd Hw asleep.
  assert (Hq : DAILY_LIMIT cfg <= dailyCount (rd_now rd) cache ->
               decide_turn cfg cache rd = asleep).
  { intros Hc. rewrite (decide_turn_within_day _ _ _ Hd). cbv zeta.
    replace (_ || _) with false by (symmetry; apply orb_false_iff; lia).
    replace (_ <=? _) with true by (symmetry; apply Z.leb_le; lia).
    reflexivity. }
  split; [exact Hq|].
  intros H0. apply Hq. rewrite H0. unfold dailyCount. lia.
Qed.

(** The morning rule as the loop reads it: the test is on the front lead
    of today's matches. *)
Lemma decide_turn_morning_pause `{DateHost} (cfg : Config) (cache : Cache) (rd : Readings) :
  withinOneDay rd ->
  let now := rd_now rd in
  let todaysMatches := List.filter (countsToday now) (matchedLeads cache) in
  (isMorningPause (decide_turn cfg cache rd) = true <->
     (windowStart cfg now <= now <= windowEnd cfg now) /\
     dailyCount now cache < DAILY_LIMIT cfg /\
     dailyCount now cache = MORNING_LIMIT cfg /\
     (exists first t, head todaysMatches = Some first /\
        Date_parse (matchedOn first) = Some t /\ t < localNoon now) /\
     now < localNoon now) /\
  (isMorningPause (decide_turn cfg cache rd) = true ->
     decide_turn cfg cache rd = Ok (MorningPause (localNoon now - now))).
Proof.
  intros Hd now todaysMatches.
  rewrite (decide_turn_within_day _ _ _ Hd). cbv zeta.
  fold now. fold todaysMatches.
  destruct (_ || _) eqn:Ho.
  { apply orb_true_iff in Ho. cbn. split; [|discriminate].
    split; [discriminate|]. intros (Hw & _). lia. }
  apply orb_false_iff in Ho.
  destruct (DAILY_LIMIT cfg <=? dailyCount now cache) eqn:Hq.
  { apply Z.leb_le in Hq. cbn. split; [|discriminate].
    split; [discriminate|]. intros (_ & Hlt & _). lia. }
  apply Z.leb_gt in Hq.
  destruct (dailyCount now cache =? MORNING_LIMIT cfg) eqn:Hm.
  2:{ apply Z.eqb_neq in Hm. cbn. split; [|discriminate].
      split; [discriminate|]. intros (_ & _ & Heq & _). contradiction. }
  apply Z.eqb_eq in Hm.
  destruct todaysMatches as [|first rest] eqn:Htm.
  { cbn. split; [|discriminate]. split; [discriminate|].
    intros (_ & _ & _ & (f & t & Hh & _) & _). discriminate Hh. }
  destruct (dateLt _ _ && _) eqn:Hc; cbn.
  - split; [|reflexivity]. split; [intros _|reflexivity].
    apply andb_true_iff in Hc as [Hf Hn].
    unfold dateLt in Hf. destruct (Date_parse (matchedOn first)) as [t|] eqn:Hp; [|discriminate].
    apply Z.ltb_lt in Hf, Hn.
    split; [lia|]. split; [lia|]. split; [lia|]. split; [|lia].
    exists first, t. now repeat split.
  - split; [|discriminate]. split; [discriminate|].
    intros (_ & _ & _ & (f & t & Hh & Hp & Ht) & Hn).
    injection Hh as <-. apply andb_false_iff in Hc.
    unfold dateLt in Hc. rewrite Hp in Hc. lia.
Qed.

Section EarliestFacts.
Context `{DateHost}.

Lemma earliestMatch_cons x leads :
  earliestMatch (x :: leads) =
    match Date_parse (matchedOn x), earliestMatch leads with
    | Some t, Some m => Some (Z.min t m)
    | Some t, None => Some t
    | None, acc => acc
    end.
Proof. reflexivity. Qed.

Lemma earliestMatch_none leads lead t :
  lead ∈ leads -> Date_parse (matchedOn lead) = Some t -> earliestMatch leads <> None.
Proof.
  intros Hin Hp. induction Hin as [y l | y z l Hin IH]; rewrite earliestMatch_cons.
  - rewrite Hp. destruct (earliestMatch l); discriminate.
  - specialize (IH Hp). destruct (Date_parse (matchedOn z)); [|exact IH].
    destruct (earliestMatch l); discriminate.
Qed.

Lemma earliestMatch_lower leads m :
  earliestMatch leads = Some m ->
  forall lead t, lead ∈ leads -> Date_parse (matchedOn lead) = Some t -> m <= t.
Proof.
  revert m. induction leads as [|x leads IH]; intros m.
  - discriminate.
  - rewrite earliestMatch_cons.
    destruct (Date_parse (matchedOn x)) as [tx|] eqn:Hx.
    + destruct (earliestMatch leads) as [m'|] eqn:Hr.
      * intros [= <-] lead t Hin Hp.
        apply elem_of_cons in Hin as [-> | Hin].
        -- rewrite Hx in Hp. injection Hp as <-. lia.
        -- specialize (IH m' eq_refl lead t Hin Hp). lia.
      * intros [= <-] lead t Hin Hp.
        apply elem_of_cons in Hin as [-> | Hin].
        -- rewrite Hx in Hp. injection Hp as <-. lia.
        -- exfalso. now apply (earliestMatch_none leads lead t Hin Hp).
    + intros Hm lead t Hin Hp.
      apply elem_of_cons in Hin as [-> | Hin]; [congruence|].
      exact (IH m Hm lead t Hin Hp).
Qed.

Lemma earliestMatch_some leads lead t :
  lead ∈ leads -> Date_parse (matchedOn lead) = Some t ->
  exists m, earliestMatch leads = Some m.
Proof.
  intros Hin Hp. destruct (earliestMatch leads) as [m|] eqn:Hm; [eauto|].
  exfalso. now apply (earliestMatch_none leads lead t Hin Hp).
Qed.

Lemma earliestMatch_nonempty leads m : earliestMatch leads = Some m -> leads <> [].
Proof. destruct leads; [discriminate | discriminate]. Qed.

Lemma countsToday_parsed now lead :
  countsToday now lead = true -> exists t, Date_parse (matchedOn lead) = Some t.
Proof.
  unfold countsToday. destruct (Date_parse (matchedOn lead)) as [t|]; [eauto|].
  rewrite andb_false_r. discriminate.
Qed.

End EarliestFacts.

(** C3: on a turn whose readings fall on one local day, with a ledger in
    which no lead that counts today is stamped later than [now] (a lead is
    stamped when it is created), the morning pause fires exactly when [now]
    is inside the window, today's count of Potential Leads is below
    [DAILY_LIMIT] and equal to [MORNING_LIMIT], the earliest of today's
    matches was matched before local noon, and [now] is before local noon;
    the turn then sleeps until local noon. *)
Theorem morning_pause_iff `{DateHost} (cfg : Config) (cache : Cache) (rd : Readings) :
  withinOneDay rd ->
  let now := rd_now rd in
  let todaysMatches := List.filter (countsToday now) (matchedLeads cache) in
  (forall lead t, lead ∈ todaysMatches ->
     Date_parse (matchedOn lead) = Some t -> t <= now) ->
  (isMorningPause (decide_turn cfg cache rd) = true <->
     (windowStart cfg now <= now <= windowEnd cfg now) /\
     dailyCount now cache < DAILY_LIMIT cfg /\
     dailyCount now cache = MORNING_LIMIT cfg /\
     (exists t, earliestMatch todaysMatches = Some t /\ t < localNoon now) /\
     now < localNoon now) /\
  (isMorningPause (decide_turn cfg cache rd) = true ->
     decide_turn cfg cache rd = Ok (MorningPause (localNoon now - now))).
Proof.
  intros Hd now todaysMatches Hpast.
  destruct (decide_turn_morning_pause cfg cache rd Hd) as [Hiff Hdur].
  fold now in Hiff, Hdur. fold todaysMatches in Hiff.
  split; [|exact Hdur].
  rewrite Hiff. split.
  - intros (Hw & Hlt & Heq & (first & t & Hh & Hp & Ht) & Hn).
    split; [exact Hw|]. split; [exact Hlt|]. split; [exact Heq|]. split; [|exact Hn].
    assert (Hin : first ∈ todaysMatches).
    { destruct todaysMatches as [|x l]; [discriminate Hh|].
      injection Hh as ->. now left. }
    destruct (earliestMatch_some _ _ _ Hin Hp) as [m Hm].
    exists m. split; [exact Hm|].
    pose proof (earliestMatch_lower _ _ Hm first t Hin Hp). lia.
  - intros (Hw & Hlt & Heq & (m & Hm & Hmn) & Hn).
    split; [exact Hw|]. split; [exact Hlt|]. split; [exact Heq|]. split; [|exact Hn].
    destruct todaysMatches as [|first rest] eqn:Htm;
      [now apply earliestMatch_nonempty in Hm|].
    assert (Hin : first ∈ List.filter (countsToday now) (matchedLeads cache))
      by (fold todaysMatches; rewrite Htm; now left).
    pose proof Hin as Hc. apply list_elem_of_In, filter_In in Hc as [_ Hc].
    destruct (countsToday_parsed _ _ Hc) as [t Hp].
    exists first, t. split; [reflexivity|]. split; [exact Hp|].
    assert (t <= now) by (apply (Hpast first t); [now left | exact Hp]). lia.
Qed.

(** C10: a transition of a lead that counts for today lowers today's
    count by exactly one.  So the conditions are not sticky: if the count had
    just reached [DAILY_LIMIT] (the turn is QuotaExhausted), the same turn on
    the ledger after the transition is Active (unless the new count is
    exactly [MORNING_LIMIT], where the morning rule takes over); and a count
    that was equal to [MORNING_LIMIT] no longer triggers the morning pause. *)
Theorem transition_frees_quota `{DateHost} (cfg : Config) (rd : Readings)
    (clock : Z) (a : Scraped) (st : CycleState) (i : nat) (lead : MatchedLead) :
  list_find (fun l => id l = s_id a) (matchedLeads (cs_cache st)) = Some (i, lead) ->
  currentStatus lead = PotentialLead ->
  s_status a = Some AlreadyWaitlisted ->
  countsToday (rd_now rd) lead = true ->
  let now := rd_now rd in
  let before := cs_cache st in
  let after := cs_cache (processArticle clock a st) in
  dailyCount now after = dailyCount now before - 1 /\
  (withinOneDay rd ->
   windowStart cfg now <= now <= windowEnd cfg now ->
   dailyCount now before = DAILY_LIMIT cfg ->
   dailyCount now after <> MORNING_LIMIT cfg ->
   decide_turn cfg before rd
     = Ok (QuotaExhausted (windowStart cfg now + msPerDay - now)) /\
   decide_turn cfg after rd = Ok Active) /\
  (withinOneDay rd ->
   dailyCount now before = MORNING_LIMIT cfg ->
   isMorningPause (decide_turn cfg after rd) = false).
Proof.
  intros Hf Hs Ha Hc. cbv zeta.
  pose proof (dailyCount_after_transition (rd_now rd) clock a st i lead Hf Hs Ha Hc)
    as Hdec.
  split; [exact Hdec|]. split.
  - intros Hd Hw Hq Hm. split.
    + rewrite (decide_turn_within_day _ _ _ Hd). cbv zeta.
      replace (_ || _) with false by (symmetry; apply orb_false_iff; lia).
      replace (_ <=? _) with true by (symmetry; apply Z.leb_le; lia).
      reflexivity.
    + rewrite (decide_turn_within_day _ _ _ Hd). cbv zeta.
      replace (_ || _) with false by (symmetry; apply orb_false_iff; lia).
      replace (_ <=? _) with false by (symmetry; apply Z.leb_gt; lia).
      replace (_ =? _) with false by (symmetry; apply Z.eqb_neq; lia).
      reflexivity.
  - intros Hd Hm. rewrite (decide_turn_within_day _ _ _ Hd). cbv zeta.
    destruct (_ || _); [reflexivity|].
    destruct (_ <=? _); [reflexivity|].
    replace (_ =? _) with false by (symmetry; apply Z.eqb_neq; lia).
    reflexivity.
Qed.

(** ** The properties on the day of [Demo] *)

Section Evaluations.
Import Demo JsDate.
#[local] Existing Instance dateHost.
#[local] Existing Instance jsonHost.

Local Ltac evaluate := vm_compute; repeat split; congruence.

(** The keyword modes of the specification. *)
Example keyword_modes :
  let text := "asbestos removal quote"%string in
  keywordMatch text ["asbestos"; "removal"]%string MatchEach = true /\
  keywordMatch text ["asbestos"; "removal"]%string MatchAll = true /\
  keywordMatch text ["asbestos"; "paint"]%string MatchEach = true /\
  keywordMatch text ["asbestos"; "paint"]%string MatchAll = false /\
  keywordMatch "ASBESTOS Removal" ["asbestos"%string] MatchAll = true.
Proof. evaluate. Qed.

(** Elapsed times as the notification prints them. *)
Example elapsed_times :
  formatElapsedTime (Some 93784000) = "1 day(s), 2 hour(s), 3 minute(s), 4 second(s)"%string /\
  formatElapsedTime (Some 999) = "0 second(s)"%string /\
  formatElapsedTime None = "NaN second(s)"%string.
Proof. evaluate. Qed.

(** C1, witness: lead [a], matched at 9:00, is seen wait-listed at 10:30. *)
Lemma transition_on_waitlist_witness :
  let ledger := [leadAt "b" (at_ 9 30 0); leadAt "a" (at_ 9 0 0)] in
  let st := fresh {| matchedLeads := ledger |} in
  let clock := at_ 10 30 0 in
  list_find (fun l => id l = "a"%string) ledger = Some (1%nat, leadAt "a" (at_ 9 0 0)) /\
  fourDigitYear clock /\
  cs_sent (processArticle clock (scrapedWaitlist "a") st) =
    [{| n_lead := transitioned "2026-11-03T00:30:00.000Z" (leadAt "a" (at_ 9 0 0));
        n_elapsedTime := Some "1 hour(s), 30 minute(s), 0 second(s)"%string |}].
Proof.
  intros ledger st clock.
  assert (Hf : list_find (fun l => id l = s_id (scrapedWaitlist "a"))
                 (matchedLeads (cs_cache st))
               = Some (1%nat, leadAt "a" (at_ 9 0 0))) by (vm_compute; reflexivity).
  assert (Hy : fourDigitYear clock) by evaluate.
  split; [exact Hf|]. split; [exact Hy|].
  destruct (transition_on_waitlist clock (scrapedWaitlist "a") st 1
              (leadAt "a" (at_ 9 0 0)) Hf Hy) as [Ht _].
  destruct (Ht (conj eq_refl eq_refl)) as (_ & _ & _ & _ & Hsent).
  rewrite Hsent. vm_compute. reflexivity.
Defined.

(** C2, witness: two cycles over a page that shows article [a] twice. *)
Lemma ledger_ids_stay_distinct_witness :
  let cycle := {| ci_clock := fun _ => at_ 9 0 0;
                  ci_doc := pageOf [quoteArticle "a"; quoteArticle "b"; quoteArticle "a"] |} in
  NoDup (ids noLeads) /\
  NoDup (ids (fst (run_cycles cfg [cycle; cycle] noLeads emptyDisk))) /\
  ids (fst (run_cycles cfg [cycle; cycle] noLeads emptyDisk)) = ["b"; "a"]%string.
Proof.
  intros cycle.
  assert (Hnd : NoDup (ids noLeads)) by constructor.
  split; [exact Hnd|]. split.
  - exact (proj1 (proj2 (proj2 (ledger_ids_stay_distinct cfg [cycle; cycle] noLeads emptyDisk Hnd)))).
  - vm_compute. reflexivity.
Defined.

(** C3, witness: two leads of the morning, stamped 9:00 and 9:30, with
    [MORNING_LIMIT = 2], at 10:00: the pause lasts two hours. *)
Lemma morning_pause_iff_witness :
  let cache := {| matchedLeads := [leadAt "b" (at_ 9 30 0); leadAt "a" (at_ 9 0 0)] |} in
  let rd := turnAt (at_ 10 0 0) in
  let now := rd_now rd in
  let todaysMatches := List.filter (countsToday now) (matchedLeads cache) in
  withinOneDay rd /\
  (forall lead t, lead ∈ todaysMatches ->
     Date_parse (matchedOn lead) = Some t -> t <= now) /\
  earliestMatch todaysMatches = Some (at_ 9 0 0) /\
  isMorningPause (decide_turn cfgMorning2 cache rd) = true /\
  decide_turn cfgMorning2 cache rd = Ok (MorningPause 7200000).
Proof.
  intros cache rd now todaysMatches.
  assert (Hd : withinOneDay rd) by evaluate.
  assert (Hpast : forall lead t, lead ∈ todaysMatches ->
                    Date_parse (matchedOn lead) = Some t -> t <= now).
  { assert (Hb : forallb (fun lead => match Date_parse (matchedOn lead) with
                                      | Some t => t <=? now
                                      | None => true
                                      end) todaysMatches = true)
      by (vm_compute; reflexivity).
    intros lead t Hin Hp. rewrite forallb_forall in Hb.
    specialize (Hb lead (proj1 (list_elem_of_In _ _) Hin)).
    rewrite Hp in Hb. now apply Z.leb_le. }
  assert (He : earliestMatch todaysMatches = Some (at_ 9 0 0))
    by (vm_compute; reflexivity).
  destruct (morning_pause_iff cfgMorning2 cache rd Hd Hpast) as [Hiff Hdur].
  assert (Hm : isMorningPause (decide_turn cfgMorning2 cache rd) = true).
  { apply Hiff. split; [evaluate|]. split; [evaluate|]. split; [evaluate|].
    split; [|evaluate]. exists (at_ 9 0 0). split; [exact He | evaluate]. }
  split; [exact Hd|]. split; [exact Hpast|]. split; [exact He|]. split; [exact Hm|].
  rewrite (Hdur Hm). vm_compute. reflexivity.
Defined.

(** C5, witness: two Potential Leads today and [DAILY_LIMIT = 2], at
    14:00: asleep for 18 hours, until 8:00 tomorrow. *)
Lemma quota_exhausted_witness :
  let cache := {| matchedLeads := [leadAt "b" (at_ 9 30 0); leadAt "a" (at_ 9 0 0)] |} in
  let rd := turnAt (at_ 14 0 0) in
  let now := rd_now rd in
  withinOneDay rd /\
  (windowStart cfgDaily2 now <= now <= windowEnd cfgDaily2 now) /\
  DAILY_LIMIT cfgDaily2 <= dailyCount now cache /\
  decide_turn cfgDaily2 cache rd = Ok (QuotaExhausted 64800000).
Proof.
  intros cache rd now.
  assert (Hd : withinOneDay rd) by evaluate.
  assert (Hw : windowStart cfgDaily2 now <= now <= windowEnd cfgDaily2 now) by evaluate.
  assert (Hq : DAILY_LIMIT cfgDaily2 <= dailyCount now cache) by evaluate.
  split; [exact Hd|]. split; [exact Hw|]. split; [exact Hq|].
  rewrite (proj1 (quota_exhausted cfgDaily2 cache rd Hd Hw) Hq).
  vm_compute. reflexivity.
Defined.

(** C6, counterexample: a wait-listed article with a new id creates a
    lead and no notification is sent. *)
Lemma new_waitlisted_lead_notification_cex :
  let s := scrapedWaitlist "w" in
  let st' := processArticle (at_ 9 0 0) s (fresh noLeads) in
  scrapeArticle (pageOf [waitlistArticle "w"]) (KEYWORD_ARRAY cfg) (MATCH_TYPE cfg)
    (waitlistArticle "w") = Ok s /\
  matchedLeads (cs_cache st') = [created "11/3/2026, 9:00:00 AM" AlreadyWaitlisted s] /\
  cs_sent st' = [].
Proof. evaluate. Qed.

(** C6, witness. *)
Lemma new_waitlisted_lead_is_silent_witness :
  let article := waitlistArticle "w" in
  let s := scrapedWaitlist "w" in
  let st := fresh {| matchedLeads := [leadAt "a" (at_ 9 0 0)] |} in
  let st' := processArticle (at_ 9 30 0) s st in
  art_statusSpan article = Some " Waitlist "%string /\
  JsString.trim " Waitlist " = "Waitlist"%string /\
  scrapeArticle (pageOf [article]) (KEYWORD_ARRAY cfg) (MATCH_TYPE cfg) article = Ok s /\
  (s_id s ∉ ids (cs_cache st)) /\
  ids (cs_cache st') = ["w"; "a"]%string /\
  cs_sent st' = [].
Proof.
  intros article s st st'.
  assert (H1 : art_statusSpan article = Some " Waitlist "%string) by reflexivity.
  assert (H2 : JsString.trim " Waitlist " = "Waitlist"%string) by reflexivity.
  assert (H3 : scrapeArticle (pageOf [article]) (KEYWORD_ARRAY cfg) (MATCH_TYPE cfg)
                 article = Ok s) by reflexivity.
  assert (H4 : s_id s ∉ ids (cs_cache st)).
  { apply list_find_id_None. vm_compute. reflexivity. }
  split; [exact H1|]. split; [exact H2|]. split; [exact H3|]. split; [exact H4|].
  destruct (new_waitlisted_lead_is_silent (pageOf [article]) (KEYWORD_ARRAY cfg)
              (MATCH_TYPE cfg) article " Waitlist " s (at_ 9 30 0) st H1 H2 H3 H4)
    as (_ & Hl & _ & _ & Hs & _).
  subst st'. unfold ids. rewrite Hl, Hs. vm_compute. split; reflexivity.
Defined.

(** C7, counterexample: with the window 08:00 to 18:00, the instant
    18:00:00.000 equals the end of the window and the turn is not
    OutsideWindow (it is Active). *)
Lemma window_end_is_inside_cex :
  let rd := turnAt (at_ 18 0 0) in
  rd_now rd = windowEnd cfg (rd_now rd) /\
  isOutsideWindow (decide_turn cfg noLeads rd) = false /\
  decide_turn cfg noLeads rd = Ok Active.
Proof. evaluate. Qed.

(** The window boundary of the specification: 08:00:00 is Active,
    18:00:01 and 07:59:59 are OutsideWindow. *)
Example window_boundaries :
  decide_turn cfg noLeads (turnAt (at_ 8 0 0)) = Ok Active /\
  decide_turn cfg noLeads (turnAt (at_ 18 0 1)) = Ok (OutsideWindow 50399000) /\
  decide_turn cfg noLeads (turnAt (at_ 7 59 59)) = Ok (OutsideWindow 1000).
Proof. evaluate. Qed.

(** C8, witness: no file, a blank file, a file that is not JSON. *)
Lemma initializeCache_never_fails_witness :
  let empty := {| matchedLeads := [] |} in
  let absent := {| fileContent := None; writeRefused := false |} in
  let blank := {| fileContent := Some (" " ++ NodeJson.newline)%string; writeRefused := false |} in
  let broken := {| fileContent := Some "{ matchedLeads: ["%string; writeRefused := false |} in
  let rewritten := {| fileContent := Some (JSON_stringify empty); writeRefused := false |} in
  JSON_parse "{ matchedLeads: [" = None /\
  initializeCache absent = Ok (empty, rewritten) /\
  initializeCache blank = Ok (empty, rewritten) /\
  initializeCache broken = Ok (empty, rewritten) /\
  JSON_parse (JSON_stringify empty) = Some empty.
Proof.
  intros empty absent blank broken rewritten.
  assert (Hp : JSON_parse "{ matchedLeads: [" = None) by (vm_compute; reflexivity).
  split; [exact Hp|]. split; [|split; [|split]].
  - exact (proj1 (initializeCache_never_fails absent (or_introl eq_refl))).
  - refine (proj1 (initializeCache_never_fails blank (or_intror (ex_intro _ _ (conj eq_refl (or_introl _)))))).
    vm_compute. reflexivity.
  - exact (proj1 (initializeCache_never_fails broken
             (or_intror (ex_intro _ _ (conj eq_refl (or_intror Hp)))))).
  - vm_compute. reflexivity.
Defined.

(** C10, witness: with [DAILY_LIMIT = 2] and two Potential Leads today
    the turn at 14:00 is QuotaExhausted; once lead [a] has transitioned the
    same turn is Active. *)
Lemma transition_frees_quota_witness :
  let ledger := [leadAt "b" (at_ 9 30 0); leadAt "a" (at_ 9 0 0)] in
  let st := fresh {| matchedLeads := ledger |} in
  let rd := turnAt (at_ 14 0 0) in
  let after := cs_cache (processArticle (at_ 14 0 1) (scrapedWaitlist "a") st) in
  list_find (fun l => id l = "a"%string) ledger = Some (1%nat, leadAt "a" (at_ 9 0 0)) /\
  countsToday (rd_now rd) (leadAt "a" (at_ 9 0 0)) = true /\
  dailyCount (rd_now rd) (cs_cache st) = 2 /\
  dailyCount (rd_now rd) after = 1 /\
  decide_turn cfgDaily2 (cs_cache st) rd = Ok (QuotaExhausted 64800000) /\
  decide_turn cfgDaily2 after rd = Ok Active.
Proof.
  intros ledger st rd after.
  assert (Hf : list_find (fun l => id l = s_id (scrapedWaitlist "a"))
                 (matchedLeads (cs_cache st))
               = Some (1%nat, leadAt "a" (at_ 9 0 0))) by (vm_compute; reflexivity).
  assert (Hc : countsToday (rd_now rd) (leadAt "a" (at_ 9 0 0)) = true)
    by (vm_compute; reflexivity).
  assert (H2 : dailyCount (rd_now rd) (cs_cache st) = 2) by (vm_compute; reflexivity).
  destruct (transition_frees_quota cfgDaily2 rd (at_ 14 0 1) (scrapedWaitlist "a") st 1
              (leadAt "a" (at_ 9 0 0)) Hf eq_refl eq_refl Hc) as (Hdec & Hq & _).
  fold after in Hdec, Hq.
  assert (H1 : dailyCount (rd_now rd) after = 1) by (rewrite Hdec, H2; reflexivity).
  destruct Hq as [Hb Ha]; [evaluate | evaluate | exact H2 | rewrite H1; evaluate |].
  split; [exact Hf|]. split; [exact Hc|]. split; [exact H2|]. split; [exact H1|].
  split; [rewrite Hb; vm_compute; reflexivity | exact Ha].
Defined.

End Evaluations.
(** * Further properties of the code *)

Section CycleFacts.
Context `{DateHost}.

Lemma stepsTo_refl l : stepsTo l l.
Proof. now left. Qed.

Lemma stepsTo_trans l1 l2 l3 : stepsTo l1 l2 -> stepsTo l2 l3 -> stepsTo l1 l3.
Proof.
  intros [-> | (Hp & stamp & ->)] H23; [exact H23|].
  destruct H23 as [-> | (Hp' & _)].
  - right. split; [exact Hp|]. now exists stamp.
  - discriminate Hp'.
Qed.

Lemma stepsTo_keptAs l l' : stepsTo l l' -> keptAs l l'.
Proof.
  intros [-> | (Hp & stamp & ->)]; unfold keptAs; cbn.
  - do 4 (split; [reflexivity|]). split; [reflexivity|].
    split; [now left | reflexivity].
  - do 4 (split; [reflexivity|]). split; [now apply prefix_app_r|].
    split; [right; now split | intros Hn; contradiction].
Qed.

Lemma Forall2_stepsTo_refl (ls : list MatchedLead) : Forall2 stepsTo ls ls.
Proof. induction ls; constructor; [apply stepsTo_refl | assumption]. Qed.

Lemma Forall2_stepsTo_trans (a b c : list MatchedLead) :
  Forall2 stepsTo a b -> Forall2 stepsTo b c -> Forall2 stepsTo a c.
Proof.
  intros Hab. revert c. induction Hab as [|x y xs ys Hxy _ IH]; intros c Hbc.
  - inversion Hbc. constructor.
  - inversion Hbc as [|? z ? zs Hyz Hrest]; subst.
    constructor; [eapply stepsTo_trans; eassumption | now apply IH].
Qed.

Lemma Forall2_stepsTo_insert (ls : list MatchedLead) i l stamp :
  ls !! i = Some l -> currentStatus l = PotentialLead ->
  Forall2 stepsTo ls (<[i := transitioned stamp l]> ls).
Proof.
  revert i. induction ls as [|x ls IH]; intros i Hl Hp; [discriminate Hl|].
  destruct i as [|i]; simpl in *.
  - injection Hl as ->. constructor; [|apply Forall2_stepsTo_refl].
    right. split; [exact Hp|]. now exists stamp.
  - constructor; [apply stepsTo_refl | now apply IH].
Qed.

(** One record: at most one lead in front, the others step. *)
Lemma processArticle_steps clock a st :
  exists fresh kept,
    matchedLeads (cs_cache (processArticle clock a st)) = fresh ++ kept /\
    Forall2 stepsTo (matchedLeads (cs_cache st)) kept.
Proof.
  destruct (list_find (fun l => id l = s_id a) (matchedLeads (cs_cache st)))
    as [[i lead]|] eqn:Hf.
  - rewrite (processArticle_found _ _ _ _ _ Hf).
    destruct (bool_decide (currentStatus lead = PotentialLead)) eqn:Hp; cbn [andb].
    2:{ exists [], (matchedLeads (cs_cache st)). split; [reflexivity|].
        apply Forall2_stepsTo_refl. }
    apply bool_decide_eq_true in Hp.
    destruct (bool_decide _); cbn.
    + exists [], (<[i := transitioned (toISOString clock) lead]> (matchedLeads (cs_cache st))).
      split; [reflexivity|].
      apply Forall2_stepsTo_insert; [|exact Hp]. now apply list_find_id_lookup in Hf.
    + exists [], (matchedLeads (cs_cache st)). split; [reflexivity|].
      apply Forall2_stepsTo_refl.
  - rewrite (processArticle_new _ _ _ Hf).
    destruct (s_hasMatch a), (s_status a) as [status|]; cbn;
      try (exists [], (matchedLeads (cs_cache st)); split; [reflexivity|];
           apply Forall2_stepsTo_refl).
    exists [created (toLocaleString clock) status a], (matchedLeads (cs_cache st)).
    split; [reflexivity | apply Forall2_stepsTo_refl].
Qed.

Lemma forEachArticle_steps clock k leadsOnPage st :
  exists fresh kept,
    matchedLeads (cs_cache (forEachArticle clock k leadsOnPage st)) = fresh ++ kept /\
    Forall2 stepsTo (matchedLeads (cs_cache st)) kept.
Proof.
  revert k st. induction leadsOnPage as [|a rest IH]; intros k st; cbn.
  - exists [], (matchedLeads (cs_cache st)). split; [reflexivity | apply Forall2_stepsTo_refl].
  - destruct (processArticle_steps (clock k) a st) as (f1 & k1 & Heq1 & Hs1).
    destruct (IH (S k) (processArticle (clock k) a st)) as (f2 & k2 & Heq2 & Hs2).
    rewrite Heq1 in Hs2.
    apply Forall2_app_inv_l in Hs2 as (k2a & k2b & Hfa & Hfb & ->).
    exists (f2 ++ k2a), k2b. split.
    + rewrite Heq2. now rewrite app_assoc.
    + eapply Forall2_stepsTo_trans; eassumption.
Qed.

End CycleFacts.

Section CycleFacts2.
Context `{DateHost} `{JsonHost}.

Lemma performScrapeCycle_cache cfg clock doc cache fs :
  r_cache (performScrapeCycle cfg clock doc cache fs) = cache \/
  exists leadsOnPage,
    emapM (scrapeArticle doc (KEYWORD_ARRAY cfg) (MATCH_TYPE cfg)) (doc_articles doc)
      = Ok leadsOnPage /\
    r_cache (performScrapeCycle cfg clock doc cache fs) =
      cs_cache (forEachArticle clock 0 leadsOnPage
                  {| cs_cache := cache; cs_cacheUpdated := false;
                     cs_newMatchFoundThisCycle := false; cs_sent := [] |}).
Proof.
  unfold performScrapeCycle.
  destruct (emapM _ _) as [leadsOnPage|e]; [right | now left].
  now exists leadsOnPage.
Qed.

(** *** The history of a lead *)

Lemma historyConsistent_created stamp status s :
  historyConsistent (created stamp status s).
Proof. split; eexists; split; reflexivity. Qed.

Lemma historyConsistent_transitioned stamp l :
  historyConsistent l -> historyConsistent (transitioned stamp l).
Proof.
  intros [(h & Hh & Hm) _]. split.
  - exists h. cbn. split; [|exact Hm].
    destruct (statusHistory l); [discriminate Hh | exact Hh].
  - eexists. cbn. rewrite last_snoc. split; reflexivity.
Qed.

Lemma historyConsistent_stepsTo l l' :
  stepsTo l l' -> historyConsistent l -> historyConsistent l'.
Proof.
  intros [-> | (_ & stamp & ->)] Hc; [exact Hc|].
  now apply historyConsistent_transitioned.
Qed.

Lemma processArticle_historyConsistent clock a st :
  Forall historyConsistent (matchedLeads (cs_cache st)) ->
  Forall historyConsistent (matchedLeads (cs_cache (processArticle clock a st))).
Proof.
  intros Hall.
  destruct (list_find (fun l => id l = s_id a) (matchedLeads (cs_cache st)))
    as [[i lead]|] eqn:Hf.
  - rewrite (processArticle_found _ _ _ _ _ Hf).
    destruct (_ && _); [|exact Hall]. cbn.
    apply list_find_id_lookup in Hf as [Hl _].
    apply Forall_insert; [exact Hall|].
    apply historyConsistent_transitioned.
    eapply Forall_lookup_1; eassumption.
  - rewrite (processArticle_new _ _ _ Hf).
    destruct (s_hasMatch a), (s_status a) as [status|]; cbn; try exact Hall.
    constructor; [apply historyConsistent_created | exact Hall].
Qed.

Lemma forEachArticle_historyConsistent clock k leadsOnPage st :
  Forall historyConsistent (matchedLeads (cs_cache st)) ->
  Forall historyConsistent
    (matchedLeads (cs_cache (forEachArticle clock k leadsOnPage st))).
Proof.
  revert k st. induction leadsOnPage as [|a rest IH]; intros k st Hall; cbn.
  - exact Hall.
  - apply IH. now apply processArticle_historyConsistent.
Qed.

End CycleFacts2.

(** X1: A cycle never removes or reorders a lead: the ledger afterwards is new
    leads followed by the old ones in their order; an old lead keeps its id,
    [matchedOn], links and content, its history only grows at the end, its
    status stays or goes from Potential Lead to Transitioned to Waitlisted,
    and a lead that was not a Potential Lead is unchanged. *)
Theorem cycle_keeps_the_ledger `{DateHost} `{JsonHost} (cfg : Config)
    (clock : nat -> Z) (doc : Document) (cache : Cache) (fs : FileSystem) :
  exists fresh kept,
    matchedLeads (r_cache (performScrapeCycle cfg clock doc cache fs)) = fresh ++ kept /\
    Forall2 keptAs (matchedLeads cache) kept.
Proof.
  destruct (performScrapeCycle_cache cfg clock doc cache fs)
    as [-> | (leadsOnPage & _ & ->)].
  - exists [], (matchedLeads cache). split; [reflexivity|].
    eapply list.Forall2_impl; [apply Forall2_stepsTo_refl | apply stepsTo_keptAs].
  - destruct (forEachArticle_steps clock 0 leadsOnPage
                {| cs_cache := cache; cs_cacheUpdated := false;
                   cs_newMatchFoundThisCycle := false; cs_sent := [] |})
      as (fresh & kept & Heq & Hs).
    exists fresh, kept. split; [exact Heq|].
    eapply list.Forall2_impl; [exact Hs | apply stepsTo_keptAs].
Qed.

(** X2: If in every lead the first history entry carries [matchedOn] and the
    last one carries [currentStatus], the same holds after a cycle. *)
Theorem cycle_keeps_histories_consistent `{DateHost} `{JsonHost} (cfg : Config)
    (clock : nat -> Z) (doc : Document) (cache : Cache) (fs : FileSystem) :
  Forall historyConsistent (matchedLeads cache) ->
  Forall historyConsistent
    (matchedLeads (r_cache (performScrapeCycle cfg clock doc cache fs))).
Proof.
  intros Hall.
  destruct (performScrapeCycle_cache cfg clock doc cache fs)
    as [-> | (leadsOnPage & _ & ->)]; [exact Hall|].
  now apply forEachArticle_historyConsistent.
Qed.

Section FlagFacts.
Context `{DateHost}.

Lemma progress_insert_transitioned (leads : list MatchedLead) i l stamp :
  leads !! i = Some l -> currentStatus l = PotentialLead ->
  (progress {| matchedLeads := <[i := transitioned stamp l]> leads |}
   = S (progress {| matchedLeads := leads |}))%nat.
Proof.
  unfold progress. cbn [matchedLeads]. rewrite length_insert.
  revert i. induction leads as [|x leads IH]; intros i Hl Hp; [discriminate Hl|].
  destruct i as [|i]; simpl in *.
  - injection Hl as ->. rewrite Hp. simpl. lia.
  - specialize (IH i Hl Hp). destruct (bool_decide _); simpl; lia.
Qed.

(** A record changes nothing at all, or raises both flags and the progress. *)
Lemma processArticle_progress clock a st :
  processArticle clock a st = st \/
  (cs_cacheUpdated (processArticle clock a st) = true /\
   cs_newMatchFoundThisCycle (processArticle clock a st) = true /\
   (progress (cs_cache st) < progress (cs_cache (processArticle clock a st)))%nat).
Proof.
  destruct (list_find (fun l => id l = s_id a) (matchedLeads (cs_cache st)))
    as [[i lead]|] eqn:Hf.
  - rewrite (processArticle_found _ _ _ _ _ Hf).
    destruct (bool_decide (currentStatus lead = PotentialLead)) eqn:Hp; cbn [andb];
      [|now left].
    apply bool_decide_eq_true in Hp.
    destruct (bool_decide _); [right | now left].
    apply list_find_id_lookup in Hf as [Hl _].
    split; [reflexivity|]. split; [reflexivity|].
    cbv zeta. cbn [cs_cache].
    rewrite (progress_insert_transitioned _ _ _ _ Hl Hp).
    destruct (cs_cache st) as [leads]. cbn [matchedLeads]. lia.
  - rewrite (processArticle_new _ _ _ Hf).
    destruct (s_hasMatch a), (s_status a) as [status|]; try now left.
    right. cbn. split; [reflexivity|]. split; [reflexivity|].
    unfold progress. cbn. destruct (bool_decide _); cbn; lia.
Qed.

Lemma forEachArticle_progress clock k leadsOnPage st :
  forEachArticle clock k leadsOnPage st = st \/
  (cs_cacheUpdated (forEachArticle clock k leadsOnPage st) = true /\
   cs_newMatchFoundThisCycle (forEachArticle clock k leadsOnPage st) = true /\
   (progress (cs_cache st) < progress (cs_cache (forEachArticle clock k leadsOnPage st)))%nat).
Proof.
  revert k st. induction leadsOnPage as [|a rest IH]; intros k st; cbn; [now left|].
  destruct (processArticle_progress (clock k) a st) as [-> | (Hu & Hn & Hp)];
    [apply IH|].
  right.
  destruct (IH (S k) (processArticle (clock k) a st)) as [-> | (Hu' & Hn' & Hp')].
  - now repeat split.
  - repeat split; [exact Hu' | exact Hn' | lia].
Qed.

End FlagFacts.

(** X3: The value a cycle returns tells whether anything happened.  When it
    is [false] the ledger and the file are as before and nothing was sent;
    when it is [true] the ledger has grown (in leads, or in transitioned
    leads) and the file holds it, unless the write is refused. *)
Theorem cycle_reports_and_saves_changes `{DateHost} `{JsonHost} (cfg : Config)
    (clock : nat -> Z) (doc : Document) (cache : Cache) (fs : FileSystem) :
  let r := performScrapeCycle cfg clock doc cache fs in
  (r_newMatchFound r = false ->
     r_cache r = cache /\ r_fs r = fs /\ r_sent r = []) /\
  (r_newMatchFound r = true ->
     r_cache r <> cache /\
     (progress cache < progress (r_cache r))%nat /\
     r_fs r = (if writeRefused fs then fs
               else {| fileContent := Some (JSON_stringify (r_cache r));
                       writeRefused := false |})).
Proof.
  cbv zeta. unfold performScrapeCycle.
  destruct (emapM _ _) as [leadsOnPage|e]; cbn; [|split; [now intros _ | discriminate]].
  set (st0 := {| cs_cache := cache; cs_cacheUpdated := false;
                 cs_newMatchFoundThisCycle := false; cs_sent := [] |}).
  destruct (forEachArticle_progress clock 0 leadsOnPage st0) as [-> | (Hu & Hn & Hp)].
  - cbn. split; [now intros _ | discriminate].
  - rewrite Hu, Hn. split; [discriminate|]. intros _.
    change (progress (cs_cache st0)) with (progress cache) in Hp.
    split; [intros Heq; rewrite Heq in Hp; lia|].
    split; [exact Hp|].
    unfold writeCache, fs_writeFile. now destruct (writeRefused fs).
Qed.

Section ScrapeFacts.
Import JsString.

Lemma orElse_empty s : orElse s "" = s.
Proof. now destruct s. Qed.

Lemma toLowerCase_app a b :
  toLowerCase (a ++ b) = (toLowerCase a ++ toLowerCase b)%string.
Proof.
  induction a as [|c a IH]; [reflexivity|].
  rewrite append_String. cbn [toLowerCase]. now rewrite IH, append_String.
Qed.

Lemma append_assoc_s (a b c : string) : ((a ++ b) ++ c = a ++ b ++ c)%string.
Proof.
  induction a as [|x a IH]; [reflexivity|].
  now rewrite !append_String, IH.
Qed.

Lemma Contains_app_l s k pre : Contains s k -> Contains (pre ++ s) k.
Proof.
  intros (a & b & ->). exists (pre ++ a)%string, b. now rewrite append_assoc_s.
Qed.

Lemma Contains_app_r s k post : Contains s k -> Contains (s ++ post) k.
Proof.
  intros (a & b & ->). exists a, (b ++ post)%string.
  now rewrite !append_assoc_s.
Qed.

Lemma Contains_nonempty s k : Contains s k -> k <> ""%string -> s <> ""%string.
Proof.
  intros (a & b & ->) Hk He. destruct a; [|discriminate He].
  rewrite append_Empty in He. destruct k; [contradiction | discriminate He].
Qed.

Lemma toLowerCase_nonempty s : toLowerCase s <> ""%string <-> s <> ""%string.
Proof. destruct s; cbn; split; congruence. Qed.

Lemma scrapeArticle_waitlisted doc keywords matchType article marker :
  art_statusSpan article = Some marker -> trim marker = "Waitlist"%string ->
  exists s, scrapeArticle doc keywords matchType article = Ok s /\
            s_hasMatch s = true /\ s_status s = Some AlreadyWaitlisted.
Proof.
  intros Hm Ht. unfold scrapeArticle. rewrite Hm, Ht. cbn. eexists. now repeat split.
Qed.

Lemma scrapeArticle_shape doc keywords matchType article s :
  scrapeArticle doc keywords matchType article = Ok s -> scrapedShape s.
Proof.
  unfold scrapeArticle, scrapedShape.
  destruct (match art_statusSpan article with Some t => _ | None => false end).
  - intros [= <-]. cbn. repeat split; congruence.
  - destruct (art_h2 article) as [|h2 rest]; [discriminate|].
    intros [= <-]. cbn. destruct (keywordMatch _ _ _); repeat split; congruence.
Qed.

Lemma emapM_Forall {A B} (f : A -> Exn B) (P : B -> Prop) l ys :
  (forall x y, f x = Ok y -> P y) -> emapM f l = Ok ys -> Forall P ys.
Proof.
  intros Hf. revert ys. induction l as [|x l IH]; intros ys; cbn.
  - intros [= <-]. constructor.
  - destruct (f x) as [y|e] eqn:Hx; cbn; [|discriminate].
    destruct (emapM f l) as [ys'|e]; cbn; [|discriminate].
    intros [= <-]. constructor; [eapply Hf; eassumption | now apply IH].
Qed.

Lemma emapM_Throw {A B} (f : A -> Exn B) l x e :
  x ∈ l -> f x = Throw e -> exists e', emapM f l = Throw e'.
Proof.
  intros Hin Hx. induction l as [|y l IH]; [inversion Hin|].
  cbn. destruct (f y) as [b|e1] eqn:Hy; cbn; [|now exists e1].
  apply elem_of_cons in Hin as [-> | Hin]; [congruence|].
  destruct (IH Hin) as [e' ->]. now exists e'.
Qed.

Lemma emapM_length {A B} (f : A -> Exn B) l ys :
  emapM f l = Ok ys -> length ys = length l.
Proof.
  revert ys. induction l as [|x l IH]; intros ys; cbn.
  - now intros [= <-].
  - destruct (f x); cbn; [|discriminate].
    destruct (emapM f l) as [ys'|]; cbn; [|discriminate].
    intros [= <-]. cbn. f_equal. now apply IH.
Qed.

End ScrapeFacts.

(** X4: The page callback throws a [TypeError] exactly for an article that is
    not wait-listed and has no [h2].  Otherwise [hasMatch] holds exactly
    when [status] is not null, a wait-listed article is Already Waitlisted
    whatever its text, any other is a Potential Lead or nothing, and the
    links are collected for matches only, one per anchor. *)
Theorem scrapeArticle_results (doc : Document) (keywords : list string)
    (matchType : MatchType) (article : Article) :
  let waitlisted :=
    match art_statusSpan article with
    | Some t => String.eqb (JsString.trim t) "Waitlist"
    | None => false
    end in
  (scrapeArticle doc keywords matchType article = Throw TypeError <->
     waitlisted = false /\ art_h2 article = []) /\
  (forall s, scrapeArticle doc keywords matchType article = Ok s ->
     (s_hasMatch s = true <-> s_status s <> None) /\
     (waitlisted = true -> s_status s = Some AlreadyWaitlisted) /\
     (waitlisted = false -> s_status s = None \/ s_status s = Some PotentialLead) /\
     (s_hasMatch s = false -> s_links s = []) /\
     (s_hasMatch s = true -> length (s_links s) = length (art_anchors article))).
Proof.
  cbv zeta. unfold scrapeArticle.
  destruct (match art_statusSpan article with Some t => _ | None => false end).
  - split.
    + split; [discriminate | intros [Hf _]; discriminate Hf].
    + intros s [= <-]. cbn. rewrite length_map.
      repeat split; congruence.
  - destruct (art_h2 article) as [|h2 rest].
    + split; [now split | discriminate].
    + split; [split; [discriminate | intros [_ Hf]; discriminate Hf]|].
      intros s [= <-]. cbn. destruct (keywordMatch _ _ _); rewrite ?length_map;
        repeat split; try congruence; auto.
Qed.

(** X5: The text searched for an article includes the [.text-body-emphasis]
    elements of the whole document: a keyword found there makes every
    article that has an [h2] and is not wait-listed a Potential Lead in mode
    [each], and in mode [all] when every keyword is found there. *)
Theorem document_emphasis_matches_every_article (doc : Document)
    (keywords : list string) (article : Article) (h2 : string) (rest : list string) :
  art_h2 article = h2 :: rest ->
  (forall t, art_statusSpan article = Some t -> JsString.trim t <> "Waitlist"%string) ->
  let emphasis := JsString.toLowerCase (JsString.join " " (doc_emphasis doc)) in
  (Exists (fun k => k <> ""%string /\ Contains emphasis k) keywords ->
     exists s, scrapeArticle doc keywords MatchEach article = Ok s /\
               s_status s = Some PotentialLead) /\
  (Forall (Contains emphasis) keywords -> emphasis <> ""%string ->
     exists s, scrapeArticle doc keywords MatchAll article = Ok s /\
               s_status s = Some PotentialLead).
Proof.
  intros Hh2 Hnw emphasis.
  assert (Hmark : match art_statusSpan article with
                  | Some t => String.eqb (JsString.trim t) "Waitlist"
                  | None => false
                  end = false).
  { destruct (art_statusSpan article) as [t|]; [|reflexivity].
    apply String.eqb_neq. now apply Hnw. }
  assert (Hlow : forall tail,
            JsString.toLowerCase
              (JsString.orElse h2 "" ++ JsString.orElse (JsString.join " " (doc_emphasis doc)) "" ++ tail)
            = (JsString.toLowerCase h2 ++ emphasis ++ JsString.toLowerCase tail)%string).
  { intros tail. rewrite !orElse_empty, !toLowerCase_app. reflexivity. }
  split.
  - intros Hex. unfold scrapeArticle. rewrite Hmark, Hh2.
    eexists. split; [reflexivity|]. cbn [s_status].
    replace (keywordMatch _ _ _) with true; [reflexivity|].
    symmetry. apply keywordMatch_each.
    apply List.Exists_exists in Hex as (k & Hin & Hk & Hc).
    split.
    + apply toLowerCase_nonempty. rewrite Hlow.
      eapply Contains_nonempty; [|exact Hk].
      apply Contains_app_l, Contains_app_r. exact Hc.
    + apply List.Exists_exists. exists k. split; [exact Hin|].
      rewrite Hlow. apply Contains_app_l, Contains_app_r. exact Hc.
  - intros Hall Hne. unfold scrapeArticle. rewrite Hmark, Hh2.
    eexists. split; [reflexivity|]. cbn [s_status].
    replace (keywordMatch _ _ _) with true; [reflexivity|].
    symmetry. apply keywordMatch_all. split.
    + apply toLowerCase_nonempty. rewrite Hlow.
      intros He. apply Hne.
      destruct (JsString.toLowerCase h2); [|discriminate He].
      rewrite append_Empty in He. destruct emphasis; [reflexivity | discriminate He].
    + rewrite Hlow. eapply list.Forall_impl; [exact Hall|].
      intros k Hc. apply Contains_app_l, Contains_app_r. exact Hc.
Qed.

(** X6: One article without [h2] that is not wait-listed aborts the whole
    cycle: it returns [false] and records, writes and sends nothing, also
    for the other articles of the page. *)
Theorem headless_article_aborts_the_cycle `{DateHost} `{JsonHost} (cfg : Config)
    (clock : nat -> Z) (doc : Document) (cache : Cache) (fs : FileSystem)
    (article : Article) :
  article ∈ doc_articles doc ->
  art_h2 article = [] ->
  (forall t, art_statusSpan article = Some t -> JsString.trim t <> "Waitlist"%string) ->
  performScrapeCycle cfg clock doc cache fs =
    {| r_newMatchFound := false; r_cache := cache; r_fs := fs; r_sent := [] |}.
Proof.
  intros Hin Hh2 Hnw.
  assert (Hthrow : scrapeArticle doc (KEYWORD_ARRAY cfg) (MATCH_TYPE cfg) article
                   = Throw TypeError).
  { unfold scrapeArticle. rewrite Hh2.
    destruct (art_statusSpan article) as [t|]; [|reflexivity].
    replace (String.eqb _ _) with false; [reflexivity|].
    symmetry. apply String.eqb_neq. now apply Hnw. }
  destruct (emapM_Throw _ _ _ _ Hin Hthrow) as [e' He].
  unfold performScrapeCycle. now rewrite He.
Qed.

Section QuietFacts.
Context `{DateHost}.

Lemma list_find_insert_same {A} (P : A -> Prop) `{forall x, base.Decision (P x)}
    (l : list A) j x y :
  l !! j = Some x -> (P x <-> P y) ->
  list_find P (<[j := y]> l) =
    match list_find P l with
    | Some (i, z) => Some (i, if decide (i = j) then y else z)
    | None => None
    end.
Proof.
  revert j. induction l as [|a l IH]; intros j Hl Hxy; [discriminate Hl|].
  destruct j as [|j]; simpl in *.
  - injection Hl as ->. destruct (decide (P x)) as [Hp|Hn].
    + rewrite decide_True by tauto. reflexivity.
    + rewrite decide_False by tauto.
      destruct (list_find P l) as [[i z]|]; reflexivity.
  - destruct (decide (P a)); [reflexivity|].
    rewrite (IH j Hl Hxy).
    destruct (list_find P l) as [[i z]|]; [|reflexivity]. cbn.
    destruct (decide (i = j)) as [->|Hne].
    + now rewrite decide_True.
    + rewrite decide_False by lia. reflexivity.
Qed.

Lemma list_find_cons_ne (leads : list MatchedLead) (new : MatchedLead) k :
  id new <> k ->
  list_find (fun l => id l = k) (new :: leads) =
    match list_find (fun l => id l = k) leads with
    | Some (i, z) => Some (S i, z)
    | None => None
    end.
Proof.
  intros Hne. cbn. rewrite decide_False by exact Hne.
  destruct (list_find _ leads) as [[i z]|]; reflexivity.
Qed.

Lemma quiet_noop clock a st :
  scrapedShape a -> quiet a (matchedLeads (cs_cache st)) ->
  processArticle clock a st = st.
Proof.
  intros [Hshape _] Hq. unfold quiet in Hq.
  destruct (list_find _ _) as [[i l]|] eqn:Hf.
  - rewrite (processArticle_found _ _ _ _ _ Hf).
    destruct (bool_decide (currentStatus l = PotentialLead)) eqn:Hp; [|reflexivity].
    destruct (bool_decide (s_status a = Some AlreadyWaitlisted)) eqn:Hs; [|reflexivity].
    apply bool_decide_eq_true in Hp, Hs. exfalso. apply Hq. now split.
  - rewrite (processArticle_new _ _ _ Hf), Hq.
    now destruct (s_hasMatch a).
Qed.

(** Once processed, a record is quiet. *)
Lemma quiet_after_self clock a st :
  scrapedShape a -> quiet a (matchedLeads (cs_cache (processArticle clock a st))).
Proof.
  intros [Hshape Hnt]. unfold quiet.
  destruct (list_find (fun l => id l = s_id a) (matchedLeads (cs_cache st)))
    as [[i l]|] eqn:Hf.
  - rewrite (processArticle_found _ _ _ _ _ Hf).
    pose proof (list_find_id_lookup _ _ _ _ Hf) as [Hl Hid].
    destruct (bool_decide (currentStatus l = PotentialLead)) eqn:Hp; cbn [andb].
    2:{ rewrite Hf. apply bool_decide_eq_false in Hp. tauto. }
    destruct (bool_decide (s_status a = Some AlreadyWaitlisted)) eqn:Hs.
    + cbn [cs_cache matchedLeads].
      rewrite (list_find_insert_same _ _ _ l) by (try exact Hl; reflexivity).
      rewrite Hf. rewrite decide_True by reflexivity. cbn. intros [Hc _]. discriminate Hc.
    + rewrite Hf. apply bool_decide_eq_false in Hs. tauto.
  - rewrite (processArticle_new _ _ _ Hf).
    destruct (s_hasMatch a) eqn:Hm.
    + destruct (s_status a) as [status|] eqn:Hs.
      * cbn [cs_cache matchedLeads]. cbn. rewrite decide_True by reflexivity.
        intros [Hc Hw]. cbn in Hc. congruence.
      * rewrite Hf. reflexivity.
    + rewrite Hf. destruct (s_status a) eqn:Hs; [|reflexivity].
      exfalso. assert (Hc : false = true) by (apply Hshape; discriminate).
      discriminate Hc.
Qed.

(** Another record does not wake a quiet one. *)
Lemma quiet_preserved clock a b st :
  quiet a (matchedLeads (cs_cache st)) ->
  quiet a (matchedLeads (cs_cache (processArticle clock b st))).
Proof.
  intros Hq.
  destruct (list_find (fun l => id l = s_id b) (matchedLeads (cs_cache st)))
    as [[j lb]|] eqn:Hfb.
  - rewrite (processArticle_found _ _ _ _ _ Hfb).
    destruct (_ && _); [|exact Hq]. cbn [cs_cache matchedLeads].
    pose proof (list_find_id_lookup _ _ _ _ Hfb) as [Hlb _].
    unfold quiet in *.
    rewrite (list_find_insert_same _ _ _ lb) by (try exact Hlb; reflexivity).
    destruct (list_find (fun l => id l = s_id a) _) as [[i l]|]; [|exact Hq].
    destruct (decide (i = j)); [|exact Hq].
    cbn. intros [Hc _]. discriminate Hc.
  - rewrite (processArticle_new _ _ _ Hfb).
    destruct (s_hasMatch b); [|exact Hq].
    destruct (s_status b) as [status|]; [|exact Hq].
    cbn [cs_cache matchedLeads]. unfold quiet in *.
    destruct (decide (s_id b = s_id a)) as [Heq | Hne].
    + rewrite <- Heq in *. rewrite Hfb in Hq.
      cbn. rewrite decide_True by reflexivity. rewrite Hq. intros [_ Hc]. discriminate Hc.
    + rewrite list_find_cons_ne by exact Hne.
      destruct (list_find (fun l => id l = s_id a) _) as [[i l]|]; exact Hq.
Qed.

Lemma forEachArticle_quiet_preserved clock k a leadsOnPage st :
  quiet a (matchedLeads (cs_cache st)) ->
  quiet a (matchedLeads (cs_cache (forEachArticle clock k leadsOnPage st))).
Proof.
  revert k st. induction leadsOnPage as [|b rest IH]; intros k st Hq; cbn.
  - exact Hq.
  - apply IH. now apply quiet_preserved.
Qed.

Lemma forEachArticle_all_quiet clock k leadsOnPage st :
  Forall scrapedShape leadsOnPage ->
  Forall (fun a => quiet a (matchedLeads (cs_cache (forEachArticle clock k leadsOnPage st))))
         leadsOnPage.
Proof.
  revert k st. induction leadsOnPage as [|a rest IH]; intros k st Hshape; cbn.
  - constructor.
  - inversion Hshape as [|? ? Ha Hrest]; subst. constructor.
    + apply forEachArticle_quiet_preserved. now apply quiet_after_self.
    + now apply IH.
Qed.

Lemma forEachArticle_quiet_noop clock k leadsOnPage st :
  Forall scrapedShape leadsOnPage ->
  Forall (fun a => quiet a (matchedLeads (cs_cache st))) leadsOnPage ->
  forEachArticle clock k leadsOnPage st = st.
Proof.
  revert k. induction leadsOnPage as [|a rest IH]; intros k Hshape Hq; cbn.
  - reflexivity.
  - inversion Hshape; inversion Hq; subst.
    rewrite quiet_noop by assumption. now apply IH.
Qed.

End QuietFacts.

(** X7: A second cycle over the same page, from what the first one left,
    changes nothing and sends nothing, whatever the two clocks show. *)
Theorem second_cycle_on_same_page_is_silent `{DateHost} `{JsonHost} (cfg : Config)
    (clock1 clock2 : nat -> Z) (doc : Document) (cache : Cache) (fs : FileSystem) :
  let r1 := performScrapeCycle cfg clock1 doc cache fs in
  let r2 := performScrapeCycle cfg clock2 doc (r_cache r1) (r_fs r1) in
  r_newMatchFound r2 = false /\ r_cache r2 = r_cache r1 /\
  r_fs r2 = r_fs r1 /\ r_sent r2 = [].
Proof.
  cbv zeta. unfold performScrapeCycle.
  destruct (emapM _ _) as [leadsOnPage|e] eqn:He; [|now repeat split].
  assert (Hshape : Forall scrapedShape leadsOnPage).
  { eapply emapM_Forall; [|exact He]. intros x y. apply scrapeArticle_shape. }
  cbn [r_cache r_fs].
  set (st1 := forEachArticle clock1 0 leadsOnPage _).
  rewrite forEachArticle_quiet_noop.
  - now repeat split.
  - exact Hshape.
  - cbn [cs_cache]. subst st1. now apply forEachArticle_all_quiet.
Qed.

Section OrderFacts.
Context `{DateHost}.

Lemma forEachArticle_new_ids clock k leadsOnPage st :
  Forall scrapedShape leadsOnPage ->
  Forall (fun s => s_hasMatch s = true) leadsOnPage ->
  NoDup (s_id <$> leadsOnPage) ->
  (forall s, s ∈ leadsOnPage -> s_id s ∉ ids (cs_cache st)) ->
  ids (cs_cache (forEachArticle clock k leadsOnPage st))
    = rev (s_id <$> leadsOnPage) ++ ids (cs_cache st).
Proof.
  revert k st. induction leadsOnPage as [|a rest IH]; intros k st Hshape Hm Hnd Hnew; cbn.
  - reflexivity.
  - inversion Hshape as [|? ? [Ha _] Hrest]; subst.
    inversion Hm as [|? ? Hma Hmrest]; subst.
    rewrite fmap_cons in Hnd. apply list.NoDup_cons in Hnd as [Hna Hnd].
    assert (Hf : list_find (fun l => id l = s_id a) (matchedLeads (cs_cache st)) = None).
    { apply list_find_id_None. apply Hnew. now left. }
    destruct (s_status a) as [status|] eqn:Hs; [|exfalso; now apply Ha].
    assert (Hids : ids (cs_cache (processArticle (clock k) a st))
                   = s_id a :: ids (cs_cache st)).
    { rewrite (processArticle_new _ _ _ Hf), Hma, Hs. reflexivity. }
    rewrite IH; try assumption.
    + rewrite Hids. rewrite <- app_assoc. reflexivity.
    + intros s Hin. rewrite Hids. intros Hc.
      apply elem_of_cons in Hc as [Heq | Hc].
      * apply Hna. rewrite <- Heq. apply list_elem_of_fmap. now exists s.
      * revert Hc. apply Hnew. now right.
Qed.

(** *** Notifications *)

Lemma processArticle_sent clock a st :
  cs_sent (processArticle clock a st) = cs_sent st \/
  exists n, cs_sent (processArticle clock a st) = cs_sent st ++ [n] /\
    id (n_lead n) = s_id a /\
    ((n_elapsedTime n = None /\ currentStatus (n_lead n) = PotentialLead /\
      length (statusHistory (n_lead n)) = 1%nat) \/
     ((exists e, n_elapsedTime n = Some e) /\
      currentStatus (n_lead n) = TransitionedToWaitlisted)).
Proof.
  destruct (list_find (fun l => id l = s_id a) (matchedLeads (cs_cache st)))
    as [[i lead]|] eqn:Hf.
  - rewrite (processArticle_found _ _ _ _ _ Hf).
    destruct (_ && _); [right | now left]. cbn.
    eexists. split; [reflexivity|]. cbn.
    split; [now apply list_find_id_lookup in Hf|].
    right. split; [eauto | reflexivity].
  - rewrite (processArticle_new _ _ _ Hf).
    destruct (s_hasMatch a), (s_status a) as [status|]; try now left.
    cbn. destruct (bool_decide (status = PotentialLead)) eqn:Hp; [right | now left].
    apply bool_decide_eq_true in Hp. subst status.
    eexists. split; [reflexivity|]. cbn. split; [reflexivity|]. left. now repeat split.
Qed.

End OrderFacts.

Section SentFacts.
Context `{DateHost}.

Lemma processArticle_ids_mono clock a st x :
  x ∈ ids (cs_cache st) -> x ∈ ids (cs_cache (processArticle clock a st)).
Proof.
  intros Hx. destruct (processArticle_ids clock a st) as [-> | [_ ->]].
  - exact Hx.
  - now right.
Qed.

Lemma forEachArticle_ids_mono clock k leadsOnPage st x :
  x ∈ ids (cs_cache st) -> x ∈ ids (cs_cache (forEachArticle clock k leadsOnPage st)).
Proof.
  revert k st. induction leadsOnPage as [|a rest IH]; intros k st Hx; cbn.
  - exact Hx.
  - apply IH. now apply processArticle_ids_mono.
Qed.

Lemma processArticle_sent_id clock a st n :
  cs_sent (processArticle clock a st) = cs_sent st ++ [n] ->
  s_id a ∈ ids (cs_cache (processArticle clock a st)).
Proof.
  destruct (list_find (fun l => id l = s_id a) (matchedLeads (cs_cache st)))
    as [[i lead]|] eqn:Hf.
  - intros _. apply processArticle_ids_mono.
    pose proof (list_find_id_lookup _ _ _ _ Hf) as [Hl Hid].
    unfold ids. apply list_elem_of_fmap. exists lead. split; [easy|].
    now apply list_elem_of_lookup_2 in Hl.
  - rewrite (processArticle_new _ _ _ Hf).
    destruct (s_hasMatch a), (s_status a) as [status|]; cbn.
    2-4: intros Hc; apply (f_equal length) in Hc; rewrite length_app in Hc;
         cbn in Hc; lia.
    intros _. now left.
Qed.

Lemma forEachArticle_sent clock k leadsOnPage st :
  exists more,
    cs_sent (forEachArticle clock k leadsOnPage st) = cs_sent st ++ more /\
    (length more <= length leadsOnPage)%nat /\
    Forall (notificationOf (cs_cache (forEachArticle clock k leadsOnPage st))) more.
Proof.
  revert k st. induction leadsOnPage as [|a rest IH]; intros k st; cbn.
  - exists []. rewrite app_nil_r. split; [reflexivity|]. split; [reflexivity | constructor].
  - destruct (IH (S k) (processArticle (clock k) a st)) as (more & Hs & Hl & Hall).
    destruct (processArticle_sent (clock k) a st) as [Heq | (n & Heq & Hid & Hn)].
    + exists more. rewrite Hs, Heq. split; [reflexivity|]. split; [lia | exact Hall].
    + exists (n :: more). rewrite Hs, Heq, <- app_assoc. split; [reflexivity|].
      split; [cbn; lia|].
      constructor; [|exact Hall]. split; [|exact Hn].
      apply forEachArticle_ids_mono. rewrite Hid.
      now apply processArticle_sent_id in Heq.
Qed.

End SentFacts.

(** X8: A cycle sends at most one notification per article; each is about a
    lead of the resulting ledger and is either the mail for a new Potential
    Lead (no elapsed time, one history entry) or the mail for a transition
    (with the elapsed time). *)
Theorem cycle_notifications `{DateHost} `{JsonHost} (cfg : Config) (clock : nat -> Z) (doc : Document)
    (cache : Cache) (fs : FileSystem) :
  let r := performScrapeCycle cfg clock doc cache fs in
  (length (r_sent r) <= length (doc_articles doc))%nat /\
  Forall (notificationOf (r_cache r)) (r_sent r).
Proof.
  cbv zeta. unfold performScrapeCycle.
  destruct (emapM _ _) as [leadsOnPage|e] eqn:He; cbn.
  - destruct (forEachArticle_sent clock 0 leadsOnPage
                {| cs_cache := cache; cs_cacheUpdated := false;
                   cs_newMatchFoundThisCycle := false; cs_sent := [] |})
      as (more & Hs & Hl & Hall).
    cbn in Hs. rewrite Hs. apply emapM_length in He. split; [lia | exact Hall].
  - split; [lia | constructor].
Qed.

(** X9: When every record of the page is a match with an id of its own that
    the ledger does not have, the cycle puts them in front of the old leads
    in reverse page order. *)
Theorem new_leads_go_in_front_in_reverse_page_order `{DateHost} `{JsonHost}
    (cfg : Config) (clock : nat -> Z)
    (doc : Document) (cache : Cache) (fs : FileSystem) (leadsOnPage : list Scraped) :
  emapM (scrapeArticle doc (KEYWORD_ARRAY cfg) (MATCH_TYPE cfg)) (doc_articles doc)
    = Ok leadsOnPage ->
  Forall (fun s => s_hasMatch s = true) leadsOnPage ->
  NoDup (s_id <$> leadsOnPage) ->
  (forall s, s ∈ leadsOnPage -> s_id s ∉ ids cache) ->
  ids (r_cache (performScrapeCycle cfg clock doc cache fs))
    = rev (s_id <$> leadsOnPage) ++ ids cache.
Proof.
  intros He Hm Hnd Hnew. unfold performScrapeCycle. rewrite He. cbn.
  apply forEachArticle_new_ids; try assumption.
  eapply emapM_Forall; [|exact He]. intros article s Hs.
  eapply scrapeArticle_shape. exact Hs.
Qed.

(** ** The sleeps of [main] *)

Section SleepFacts.
Context `{DateHost}.

Lemma windowStart_offset cfg t : windowStart cfg t = localMidnight t + startOffset cfg.
Proof. reflexivity. Qed.

Lemma windowEnd_offset cfg t : windowEnd cfg t = localMidnight t + endOffset cfg.
Proof. reflexivity. Qed.

(** An instant less than a day after a local midnight is on that day. *)
Lemma localMidnight_offset t o :
  0 <= o < msPerDay -> localMidnight (localMidnight t + o) = localMidnight t.
Proof.
  unfold localMidnight, LocalTime, Day, msPerDay. intros Ho.
  Z.div_mod_to_equations. lia.
Qed.

Lemma localMidnight_next_offset t o :
  0 <= o < msPerDay ->
  localMidnight (localMidnight t + msPerDay + o) = localMidnight t + msPerDay.
Proof.
  unfold localMidnight, LocalTime, Day, msPerDay. intros Ho.
  Z.div_mod_to_equations. lia.
Qed.

Lemma not_outside_at_windowStart cfg cache rd :
  startOffset cfg <= endOffset cfg ->
  rd_now rd = windowStart cfg (rd_now rd) ->
  isOutsideWindow (decide_turn cfg cache rd) = false.
Proof.
  intros Hse Hnow. unfold decide_turn. cbv zeta.
  rewrite getWindowTimes_window. cbn [fst snd].
  assert (Hs : (rd_now rd <? windowStart cfg (rd_now rd)) = false)
    by (apply Z.ltb_ge; lia).
  assert (He : (windowEnd cfg (rd_now rd) <? rd_now rd) = false).
  { apply Z.ltb_ge. rewrite windowEnd_offset.
    rewrite windowStart_offset in Hnow. lia. }
  rewrite Hs, He. cbn [orb].
  destruct (_ <=? _); [reflexivity|].
  destruct (_ =? _); [|reflexivity].
  destruct (getTodaysMatches _ _); [reflexivity|].
  destruct (_ && _); reflexivity.
Qed.


End SleepFacts.

(** X10: When the turn is outside the window (of a window that starts within
    the day and not after its end), the sleep is positive and ends exactly
    at the start of a window: a turn at that instant is not outside the
    window. *)
Theorem idle_sleep_ends_at_a_window_start `{DateHost} (cfg : Config)
    (cache cache' : Cache) (rd rd' : Readings) (sleepDuration : Z) :
  withinOneDay rd ->
  0 <= startOffset cfg < msPerDay ->
  startOffset cfg <= endOffset cfg ->
  decide_turn cfg cache rd = Ok (OutsideWindow sleepDuration) ->
  rd_now rd' = rd_now rd + sleepDuration ->
  0 < sleepDuration /\
  rd_now rd' = windowStart cfg (rd_now rd') /\
  isOutsideWindow (decide_turn cfg cache' rd') = false.
Proof.
  intros Hd Hs Hse Hdec Hnow'.
  rewrite (decide_turn_within_day _ _ _ Hd) in Hdec. cbv zeta in Hdec.
  pose proof (localMidnight_bounds (rd_now rd)) as Hb.
  assert (Hat : 0 < sleepDuration /\
                rd_now rd' = windowStart cfg (rd_now rd')).
  { destruct (_ || _) eqn:Ho.
    2:{ destruct (_ <=? _); [discriminate|].
        destruct (_ =? _); [|discriminate].
        destruct (List.filter _ _); [discriminate|].
        destruct (_ && _); discriminate. }
    injection Hdec as Hdur.
    rewrite !windowStart_offset, windowEnd_offset in *.
    destruct (_ <? rd_now rd) eqn:He.
    - apply Z.ltb_lt in He.
      assert (Hn : rd_now rd' = localMidnight (rd_now rd) + msPerDay + startOffset cfg)
        by lia.
      split; [lia|]. rewrite Hn at 2.
      rewrite (localMidnight_next_offset _ _ Hs). lia.
    - cbn [orb] in Ho. rewrite orb_false_r in Ho. apply Z.ltb_lt in Ho.
      assert (Hn : rd_now rd' = localMidnight (rd_now rd) + startOffset cfg) by lia.
      split; [lia|]. rewrite Hn at 2.
      rewrite (localMidnight_offset _ _ Hs). lia. }
  destruct Hat as [Hpos Hat]. split; [exact Hpos|]. split; [exact Hat|].
  now apply not_outside_at_windowStart.
Qed.


(** X12: The morning pause is positive and ends at local noon, where no turn is
    a morning pause again. *)
Theorem morning_pause_ends_at_noon `{DateHost} (cfg : Config)
    (cache cache' : Cache) (rd rd' : Readings) (sleepDuration : Z) :
  withinOneDay rd -> withinOneDay rd' ->
  decide_turn cfg cache rd = Ok (MorningPause sleepDuration) ->
  rd_now rd' = rd_now rd + sleepDuration ->
  0 < sleepDuration /\
  rd_now rd' = localNoon (rd_now rd') /\
  isMorningPause (decide_turn cfg cache' rd') = false.
Proof.
  intros Hd Hd' Hdec Hnow'.
  rewrite (decide_turn_within_day _ _ _ Hd) in Hdec. cbv zeta in Hdec.
  pose proof (localMidnight_bounds (rd_now rd)) as Hb.
  destruct (_ || _); [discriminate|].
  destruct (_ <=? _); [discriminate|].
  destruct (_ =? _); [|discriminate].
  destruct (List.filter _ _) as [|first rest]; [discriminate|].
  destruct (_ && _) eqn:Hc; [|discriminate].
  apply andb_true_iff in Hc as [_ Hlt%Z.ltb_lt].
  injection Hdec as Hdur.
  assert (Hn : rd_now rd' = localMidnight (rd_now rd) + 12 * msPerHour)
    by (unfold localNoon in *; lia).
  assert (Hm : localMidnight (rd_now rd') = localMidnight (rd_now rd)).
  { rewrite Hn. apply localMidnight_offset. unfold msPerHour, msPerDay. lia. }
  assert (Hat : rd_now rd' = localNoon (rd_now rd')).
  { unfold localNoon. rewrite Hm. exact Hn. }
  split; [unfold localNoon in *; lia|]. split; [exact Hat|].
  rewrite (decide_turn_within_day _ _ _ Hd'). cbv zeta.
  destruct (_ || _); [reflexivity|].
  destruct (_ <=? _); [reflexivity|].
  destruct (_ =? _); [|reflexivity].
  destruct (List.filter _ _) as [|first' rest']; [reflexivity|].
  assert (Hge : (rd_now rd' <? localNoon (rd_now rd')) = false)
    by (apply Z.ltb_ge; lia).
  rewrite Hge, andb_false_r. reflexivity.
Qed.

(** X13: A window whose end is earlier in the day than its start is never
    open: every turn is outside the window. *)
Theorem inverted_window_never_opens `{DateHost} (cfg : Config) (cache : Cache)
    (rd : Readings) :
  endOffset cfg < startOffset cfg ->
  isOutsideWindow (decide_turn cfg cache rd) = true.
Proof.
  intros Hinv. unfold decide_turn. cbv zeta.
  rewrite getWindowTimes_window. cbn [fst snd].
  rewrite windowStart_offset, windowEnd_offset.
  destruct (_ || _) eqn:Ho; [reflexivity|].
  apply orb_false_iff in Ho as [Ho1%Z.ltb_ge Ho2%Z.ltb_ge]. lia.
Qed.

(** X14: A turn throws, which ends the loop of [main], exactly when [now] is in
    the window, the daily limit is positive, the morning limit is 0 and no
    lead counts today: [todaysMatches[0]] is then undefined. *)
Theorem zero_morning_limit_stops_the_loop `{DateHost} (cfg : Config) (cache : Cache)
    (rd : Readings) :
  withinOneDay rd ->
  let now := rd_now rd in
  (exists e, decide_turn cfg cache rd = Throw e) <->
  windowStart cfg now <= now <= windowEnd cfg now /\
  0 < DAILY_LIMIT cfg /\ MORNING_LIMIT cfg = 0 /\ dailyCount now cache = 0.
Proof.
  intros Hd now. rewrite (decide_turn_within_day _ _ _ Hd). cbv zeta. fold now.
  unfold dailyCount.
  destruct (_ || _) eqn:Ho.
  { apply orb_true_iff in Ho as [Ho%Z.ltb_lt | Ho%Z.ltb_lt];
      (split; [intros [e He]; discriminate | lia]). }
  apply orb_false_iff in Ho as [Ho1%Z.ltb_ge Ho2%Z.ltb_ge].
  destruct (_ <=? _) eqn:Hq.
  { apply Z.leb_le in Hq. split; [intros [e He]; discriminate | lia]. }
  apply Z.leb_gt in Hq.
  destruct (_ =? _) eqn:Hm.
  2:{ apply Z.eqb_neq in Hm. split; [intros [e He]; discriminate | lia]. }
  apply Z.eqb_eq in Hm.
  destruct (List.filter _ _) as [|first rest].
  - cbn [length] in *. split; [intros _; lia | intros _; eauto].
  - destruct (_ && _); (split; [intros [e He]; discriminate | cbn [length]; lia]).
Qed.

(** ** The cache file between turns *)

Section StoreFacts.
Context `{DateHost} `{JsonHost}.

Lemma writeCache_result cache fs :
  writeCache cache fs =
    Ok (if writeRefused fs then fs
        else {| fileContent := Some (JSON_stringify cache); writeRefused := false |}).
Proof. unfold writeCache, fs_writeFile. now destruct (writeRefused fs) eqn:Hw. Qed.

Lemma performScrapeCycle_fs cfg clock doc cache fs :
  let r := performScrapeCycle cfg clock doc cache fs in
  r_fs r = fs \/
  r_fs r = (if writeRefused fs then fs
            else {| fileContent := Some (JSON_stringify (r_cache r));
                    writeRefused := false |}).
Proof.
  cbv zeta. unfold performScrapeCycle.
  destruct (emapM _ _) as [leadsOnPage|e]; cbn; [|now left].
  destruct (cs_cacheUpdated _); [right | now left].
  now rewrite writeCache_result.
Qed.

Lemma initializeCache_refused fs :
  writeRefused fs = true -> exists cache, initializeCache fs = Ok (cache, fs).
Proof.
  intros Hw. unfold initializeCache, fs_readFile.
  destruct (fileContent fs) as [data|]; cbn.
  - destruct (String.eqb (trim data) ""); cbn.
    + rewrite writeCache_result, Hw. cbn. eauto.
    + destruct (JSON_parse data) as [cache|]; cbn; [eauto|].
      rewrite writeCache_result, Hw. cbn. eauto.
  - rewrite writeCache_result, Hw. cbn. eauto.
Qed.

End StoreFacts.

(** X15: After a cycle that wrote the file, [initializeCache] returns the
    ledger the cycle left and writes nothing, provided [JSON.parse] reads the
    ledger's own text back. *)
Theorem saved_ledger_is_what_the_next_turn_loads `{DateHost} `{JsonHost} (cfg : Config)
    (clock : nat -> Z) (doc : Document) (cache : Cache) (fs : FileSystem) :
  let r := performScrapeCycle cfg clock doc cache fs in
  writeRefused fs = false ->
  r_fs r <> fs ->
  JSON_parse (JSON_stringify (r_cache r)) = Some (r_cache r) ->
  trim (JSON_stringify (r_cache r)) <> ""%string ->
  initializeCache (r_fs r) = Ok (r_cache r, r_fs r).
Proof.
  intros r Hw Hch Hrt Hne.
  destruct (performScrapeCycle_fs cfg clock doc cache fs) as [Hfs | Hfs];
    fold r in Hfs; [contradiction|].
  rewrite Hw in Hfs. rewrite Hfs.
  unfold initializeCache, fs_readFile. cbn.
  apply String.eqb_neq in Hne. rewrite Hne. cbn. now rewrite Hrt.
Qed.

Section AgainFacts.
Context `{DateHost}.

Lemma sameLead_refl l : sameLead l l.
Proof. now repeat split. Qed.

Lemma Forall2_sameLead_refl leads : Forall2 sameLead leads leads.
Proof. induction leads; constructor; [apply sameLead_refl | assumption]. Qed.

(** [findIndex] on the id finds the same place in both ledgers. *)
Lemma list_find_sameLead (l1 l2 : list MatchedLead) k :
  Forall2 sameLead l1 l2 ->
  match list_find (fun l => id l = k) l1, list_find (fun l => id l = k) l2 with
  | None, None => True
  | Some (i1, x1), Some (i2, x2) => i1 = i2 /\ sameLead x1 x2
  | _, _ => False
  end.
Proof.
  induction 1 as [|x1 x2 l1 l2 Hx Hl IH]; cbn; [exact I|].
  destruct Hx as (Hid & Hrest).
  destruct (decide (id x1 = k)) as [H1|H1], (decide (id x2 = k)) as [H2|H2];
    try congruence.
  - cbn. split; [reflexivity|]. now split.
  - destruct (list_find _ l1) as [[i1 y1]|], (list_find _ l2) as [[i2 y2]|];
      cbn; try exact IH. destruct IH as [-> IH]. now split.
Qed.

Lemma Forall2_sameLead_insert (l1 l2 : list MatchedLead) i x1 x2 :
  Forall2 sameLead l1 l2 -> sameLead x1 x2 ->
  Forall2 sameLead (<[i := x1]> l1) (<[i := x2]> l2).
Proof.
  intros Hl Hx. revert i. induction Hl as [|y1 y2 l1 l2 Hy Hl IH]; intros i; cbn.
  - constructor.
  - destruct i as [|i]; cbn; constructor; auto.
Qed.

(** What a record does to the loop does not depend on the time. *)
Lemma processArticle_sameUpToStamps clock1 clock2 a st1 st2 :
  sameUpToStamps st1 st2 ->
  sameUpToStamps (processArticle clock1 a st1) (processArticle clock2 a st2).
Proof.
  intros (Hl & Hu & Hn & Hs).
  pose proof (list_find_sameLead _ _ (s_id a) Hl) as Hf.
  destruct (list_find _ (matchedLeads (cs_cache st1))) as [[i1 x1]|] eqn:Hf1,
           (list_find _ (matchedLeads (cs_cache st2))) as [[i2 x2]|] eqn:Hf2;
    try contradiction.
  - destruct Hf as [<- Hx].
    rewrite (processArticle_found _ _ _ _ _ Hf1), (processArticle_found _ _ _ _ _ Hf2).
    destruct Hx as (Hid & Hst & Hlk & Hct). rewrite <- Hst.
    destruct (_ && _); [|now repeat split].
    cbv zeta. split; [|split; [reflexivity|split; [reflexivity|]]]; cbn.
    + apply Forall2_sameLead_insert; [exact Hl|]. now repeat split.
    + apply Forall2_app; [exact Hs|]. constructor; [|constructor].
      split; [now repeat split|]. cbn. split; discriminate.
  - rewrite (processArticle_new _ _ _ Hf1), (processArticle_new _ _ _ Hf2).
    destruct (s_hasMatch a), (s_status a) as [status|]; try now repeat split.
    cbv zeta. split; [|split; [reflexivity|split; [reflexivity|]]]; cbn.
    + constructor; [now repeat split | exact Hl].
    + destruct (bool_decide _); [|exact Hs].
      apply Forall2_app; [exact Hs|]. constructor; [|constructor].
      split; [now repeat split | now split].
Qed.

Lemma forEachArticle_sameUpToStamps clock1 clock2 k1 k2 leadsOnPage st1 st2 :
  sameUpToStamps st1 st2 ->
  sameUpToStamps (forEachArticle clock1 k1 leadsOnPage st1)
                 (forEachArticle clock2 k2 leadsOnPage st2).
Proof.
  revert k1 k2 st1 st2.
  induction leadsOnPage as [|a rest IH]; intros k1 k2 st1 st2 Hst; cbn.
  - exact Hst.
  - apply IH. now apply processArticle_sameUpToStamps.
Qed.

Lemma forEachArticle_app clock k l1 l2 st :
  forEachArticle clock k (l1 ++ l2) st
  = forEachArticle clock (k + length l1) l2 (forEachArticle clock k l1 st).
Proof.
  revert k st. induction l1 as [|a l1 IH]; intros k st; cbn.
  - now rewrite Nat.add_0_r.
  - rewrite IH. f_equal. lia.
Qed.

(** The ids of the ledger after the loop come from the ledger before or
    from the page. *)
Lemma forEachArticle_ids_from clock k leadsOnPage st x :
  x ∈ ids (cs_cache (forEachArticle clock k leadsOnPage st)) ->
  x ∈ ids (cs_cache st) \/ x ∈ s_id <$> leadsOnPage.
Proof.
  revert k st. induction leadsOnPage as [|a rest IH]; intros k st; cbn.
  - now left.
  - intros Hx. destruct (IH _ _ Hx) as [Hin | Hin].
    + destruct (processArticle_ids (clock k) a st) as [Heq | [_ Heq]];
        rewrite Heq in Hin.
      * now left.
      * apply elem_of_cons in Hin as [-> | Hin]; [right; now left | now left].
    + right. now right.
Qed.

(** The first record of the page with its id, when it is new and a
    Potential Lead, is notified. *)
Lemma forEachArticle_notifies clock k before s after st :
  s_hasMatch s = true -> s_status s = Some PotentialLead ->
  s_id s ∉ ids (cs_cache st) -> s_id s ∉ s_id <$> before ->
  s_id s ∈ notified (cs_sent (forEachArticle clock k (before ++ s :: after) st)).
Proof.
  intros Hm Hs Hnew Hfirst.
  rewrite forEachArticle_app. cbn [forEachArticle].
  set (st1 := forEachArticle clock k before st).
  assert (Hn : s_id s ∉ ids (cs_cache st1)).
  { intros Hin. apply forEachArticle_ids_from in Hin as [Hin | Hin]; contradiction. }
  apply list_find_id_None in Hn.
  destruct (forEachArticle_sent clock (S (k + length before)) after
              (processArticle (clock (k + length before)%nat) s st1))
    as (more & -> & _).
  rewrite (processArticle_new _ _ _ Hn), Hm, Hs. cbv zeta. cbn [cs_sent].
  rewrite bool_decide_eq_true_2 by reflexivity.
  unfold notified. rewrite !fmap_app.
  apply elem_of_app. left. apply elem_of_app. right. now left.
Qed.

End AgainFacts.

(** X16: When the file cannot be written the error is swallowed: the turn
    decides on the ledger [initializeCache] returns and leaves the file
    system as it was.  The next turn starts from the same ledger, so two
    turns that run a cycle on the same page send the same notifications
    twice; a new Potential Lead of the page is notified in both. *)
Theorem refused_writes_make_every_turn_start_over `{DateHost} `{JsonHost}
    (cfg : Config) (rd1 rd2 : Readings) (clock1 clock2 : nat -> Z) (doc : Document)
    (fs : FileSystem) :
  writeRefused fs = true ->
  exists cache0,
    initializeCache fs = Ok (cache0, fs) /\
    let turn1 := main_turn cfg rd1 clock1 doc fs in
    let turn2 := main_turn cfg rd2 clock2 doc (t_fs turn1) in
    t_fs turn1 = fs /\
    t_decision turn1 = decide_turn cfg cache0 rd1 /\
    t_decision turn2 = decide_turn cfg cache0 rd2 /\
    (t_decision turn1 = Ok Active -> t_decision turn2 = Ok Active ->
       Forall2 sameNotice (t_sent turn1) (t_sent turn2) /\
       forall before s after,
         emapM (scrapeArticle doc (KEYWORD_ARRAY cfg) (MATCH_TYPE cfg))
               (doc_articles doc) = Ok (before ++ s :: after) ->
         s_status s = Some PotentialLead ->
         s_id s ∉ ids cache0 -> s_id s ∉ s_id <$> before ->
         s_id s ∈ notified (t_sent turn1) /\ s_id s ∈ notified (t_sent turn2)).
Proof.
  intros Hw. destruct (initializeCache_refused fs Hw) as [cache0 Hinit].
  exists cache0. split; [exact Hinit|]. cbv zeta.
  assert (Hturn : forall rd clock,
            main_turn cfg rd clock doc fs =
              match decide_turn cfg cache0 rd with
              | Ok Active =>
                  let r := performScrapeCycle cfg clock doc cache0 fs in
                  {| t_decision := Ok Active; t_cache := r_cache r;
                     t_fs := r_fs r; t_sent := r_sent r |}
              | d => {| t_decision := d; t_cache := cache0; t_fs := fs; t_sent := [] |}
              end).
  { intros rd clock. unfold main_turn. now rewrite Hinit. }
  assert (Hfs : t_fs (main_turn cfg rd1 clock1 doc fs) = fs).
  { rewrite Hturn. destruct (decide_turn cfg cache0 rd1) as [[]|]; try reflexivity.
    cbn [t_fs].
    destruct (performScrapeCycle_fs cfg clock1 doc cache0 fs) as [-> | ->];
      [reflexivity | now rewrite Hw]. }
  rewrite Hfs, !Hturn.
  split; [reflexivity|].
  split; [destruct (decide_turn cfg cache0 rd1) as [[]|]; reflexivity|].
  split; [destruct (decide_turn cfg cache0 rd2) as [[]|]; reflexivity|].
  destruct (decide_turn cfg cache0 rd1) as [[]|]; try discriminate.
  destruct (decide_turn cfg cache0 rd2) as [[]|]; try discriminate.
  intros _ _. cbn [t_sent]. unfold performScrapeCycle.
  destruct (emapM _ _) as [leadsOnPage|e] eqn:He; cbn [r_sent].
  - set (st0 := {| cs_cache := cache0; cs_cacheUpdated := false;
                   cs_newMatchFoundThisCycle := false; cs_sent := [] |}).
    split.
    + apply (forEachArticle_sameUpToStamps clock1 clock2 0 0 leadsOnPage st0 st0).
      split; [apply Forall2_sameLead_refl|]. now repeat split.
    + intros before s after [= ->] Hs Hnew Hfirst.
      assert (Hm : s_hasMatch s = true).
      { assert (Hall : Forall scrapedShape (before ++ s :: after)).
        { eapply emapM_Forall; [|exact He]. intros article s' Hs'.
          eapply scrapeArticle_shape. exact Hs'. }
        apply Forall_app in Hall as [_ Hall]. inversion Hall as [|? ? [Hshape _] _]; subst.
        apply Hshape. rewrite Hs. discriminate. }
      split; now apply forEachArticle_notifies.
  - split; [constructor | discriminate].
Qed.

(** ** When the page fails *)

Section FaultFacts.
Context `{DateHost}.

Lemma forEachArticleWith_ok faults clock k leadsOnPage st :
  (forall j, screenshotOk faults j = true) ->
  forEachArticleWith faults clock k leadsOnPage st
  = (forEachArticle clock k leadsOnPage st, false).
Proof.
  intros Hok. revert k st. induction leadsOnPage as [|a rest IH]; intros k st; cbn.
  - reflexivity.
  - rewrite Hok, andb_false_r. apply IH.
Qed.

(** The loop either runs to its end as [forEachArticle] does, or stops
    before some record with the state the records before it gave, and
    the flag raised. *)
Lemma forEachArticleWith_cases faults clock k leadsOnPage st :
  forEachArticleWith faults clock k leadsOnPage st
    = (forEachArticle clock k leadsOnPage st, false) \/
  exists done rest,
    leadsOnPage = done ++ rest /\
    let st' := forEachArticle clock k done st in
    forEachArticleWith faults clock k leadsOnPage st
      = ({| cs_cache := cs_cache st'; cs_cacheUpdated := cs_cacheUpdated st';
            cs_newMatchFoundThisCycle := true; cs_sent := cs_sent st' |}, true).
Proof.
  revert k st. induction leadsOnPage as [|a rest IH]; intros k st; cbn.
  - now left.
  - destruct (_ && _).
    + right. exists [], (a :: rest). split; reflexivity.
    + destruct (IH (S k) (processArticle (clock k) a st))
        as [-> | (done & rest' & -> & Heq)]; [now left|].
      right. exists (a :: done), rest'. split; [reflexivity|]. exact Heq.
Qed.

End FaultFacts.

(** Without faults the cycle is [performScrapeCycle]. *)
Lemma faultless_page_behaves_as_modelled `{DateHost} `{JsonHost} (faults : PageFaults)
    (cfg : Config) (clock : nat -> Z) (doc : Document) (cache : Cache)
    (fs : FileSystem) :
  reloadFails faults = false ->
  (forall k, screenshotOk faults k = true) ->
  performScrapeCycleWith faults cfg clock doc cache fs
  = performScrapeCycle cfg clock doc cache fs.
Proof.
  intros Hr Hok. unfold performScrapeCycleWith, performScrapeCycle. rewrite Hr.
  destruct (emapM _ _) as [leadsOnPage|e]; [|reflexivity].
  rewrite (forEachArticleWith_ok _ _ _ _ _ Hok). reflexivity.
Qed.

(** X17: With [page.reload] and the screenshots allowed to fail, a cycle
    behaves as the faultless one, or leaves the file untouched after sending
    a prefix of the notifications; after a failed reload it returns [false]
    and changes nothing, after a failed screenshot it returns [true]. *)
Theorem page_fault_leaves_the_file_alone `{DateHost} `{JsonHost} (faults : PageFaults)
    (cfg : Config) (clock : nat -> Z) (doc : Document) (cache : Cache)
    (fs : FileSystem) :
  let r' := performScrapeCycleWith faults cfg clock doc cache fs in
  let r := performScrapeCycle cfg clock doc cache fs in
  r' = r \/
  (r_fs r' = fs /\
   r_sent r' `prefix_of` r_sent r /\
   (reloadFails faults = true ->
      r_newMatchFound r' = false /\ r_cache r' = cache /\ r_sent r' = []) /\
   (reloadFails faults = false -> r_newMatchFound r' = true)).
Proof.
  cbv zeta. unfold performScrapeCycleWith.
  destruct (reloadFails faults) eqn:Hr.
  { right. cbn. split; [reflexivity|]. split; [apply prefix_nil|].
    split; [now intros _ | discriminate]. }
  unfold performScrapeCycle.
  destruct (emapM _ _) as [leadsOnPage|e]; [|now left].
  set (st0 := {| cs_cache := cache; cs_cacheUpdated := false;
                 cs_newMatchFoundThisCycle := false; cs_sent := [] |}).
  destruct (forEachArticleWith_cases faults clock 0 leadsOnPage st0)
    as [-> | (done & rest & -> & Heq)]; [now left|].
  right. cbv zeta in Heq. rewrite Heq. cbn.
  split; [reflexivity|]. split; [|split; [discriminate | reflexivity]].
  rewrite forEachArticle_app.
  destruct (forEachArticle_sent clock (0 + length done) rest
              (forEachArticle clock 0 done st0)) as (more & -> & _).
  now exists more.
Qed.

(** X18: When the screenshot for a new matching record fails, the cycle stops
    there: it returns [true], the ledger and the notifications are those of
    the records before, and the file is not written. *)
Theorem failed_screenshot_loses_earlier_leads `{DateHost} `{JsonHost}
    (faults : PageFaults) (cfg : Config) (clock : nat -> Z) (doc : Document)
    (cache : Cache) (fs : FileSystem) (done rest : list Scraped) (a : Scraped) :
  reloadFails faults = false ->
  emapM (scrapeArticle doc (KEYWORD_ARRAY cfg) (MATCH_TYPE cfg)) (doc_articles doc)
    = Ok (done ++ a :: rest) ->
  (forall j, (j < length done)%nat -> screenshotOk faults j = true) ->
  screenshotOk faults (length done) = false ->
  let st := forEachArticle clock 0 done
              {| cs_cache := cache; cs_cacheUpdated := false;
                 cs_newMatchFoundThisCycle := false; cs_sent := [] |} in
  s_id a ∉ ids (cs_cache st) ->
  s_hasMatch a = true ->
  performScrapeCycleWith faults cfg clock doc cache fs
  = {| r_newMatchFound := true; r_cache := cs_cache st; r_fs := fs;
       r_sent := cs_sent st |}.
Proof.
  intros Hr He Hok Hfail st Hnew Hm.
  unfold performScrapeCycleWith. rewrite Hr, He.
  assert (Hshape : scrapedShape a).
  { assert (Hall : Forall scrapedShape (done ++ a :: rest)).
    { eapply emapM_Forall; [|exact He]. intros article s Hs.
      eapply scrapeArticle_shape. exact Hs. }
    apply Forall_app in Hall as [_ Hall]. now inversion Hall. }
  assert (Hgen : forall l k st1,
            (forall j, (j < length l)%nat -> screenshotOk faults (k + j) = true) ->
            screenshotOk faults (k + length l) = false ->
            s_id a ∉ ids (cs_cache (forEachArticle clock k l st1)) ->
            forEachArticleWith faults clock k (l ++ a :: rest) st1
            = (let st' := forEachArticle clock k l st1 in
               {| cs_cache := cs_cache st'; cs_cacheUpdated := cs_cacheUpdated st';
                  cs_newMatchFoundThisCycle := true; cs_sent := cs_sent st' |}, true)).
  { induction l as [|x l IH]; intros k st1 Hk Hf Hn; cbn.
    - cbn in Hn. apply list_find_id_None in Hn. rewrite Hn, Hm.
      destruct Hshape as [[Hs _] _].
      destruct (s_status a) as [status|]; [|exfalso; now apply Hs].
      rewrite Nat.add_0_r in Hf. rewrite Hf. reflexivity.
    - assert (Hx : screenshotOk faults k = true).
      { specialize (Hk 0%nat). rewrite Nat.add_0_r in Hk. apply Hk. cbn. lia. }
      rewrite Hx, andb_false_r. apply IH.
      + intros j Hj. replace (S k + j)%nat with (k + S j)%nat by lia.
        apply Hk. cbn. lia.
      + replace (S k + length l)%nat with (k + length (x :: l))%nat by (cbn; lia).
        exact Hf.
      + exact Hn. }
  rewrite (Hgen done 0%nat); [reflexivity | exact Hok | exact Hfail | exact Hnew].
Qed.

(** ** [formatElapsedTime] *)

(** X19: For [ms >= 0] the parts printed are days, hours below 24, minutes
    below 60 and seconds below 60 that add up to the whole seconds of [ms];
    a part other than the seconds is printed only when positive. *)
Theorem formatElapsedTime_splits_the_seconds (ms : Z) :
  0 <= ms ->
  exists days hours minutes seconds,
    0 <= days /\ 0 <= hours < 24 /\ 0 <= minutes < 60 /\ 0 <= seconds < 60 /\
    ms / 1000 = days * 86400 + hours * 3600 + minutes * 60 + seconds /\
    formatElapsedTime (Some ms) =
      join ", " (part days " day(s)" ++ part hours " hour(s)" ++
                 part minutes " minute(s)" ++ [(ofZ seconds ++ " second(s)")%string]).
Proof.
  intros Hms.
  assert (Hts : 0 <= ms / 1000) by (apply Z.div_pos; lia).
  exists (ms / 1000 / 86400), (Z.rem (ms / 1000) 86400 / 3600),
         (Z.rem (ms / 1000) 3600 / 60), (Z.rem (ms / 1000) 60).
  unfold formatElapsedTime, part. cbv zeta.
  rewrite !Z.rem_mod_nonneg by lia.
  generalize dependent (ms / 1000). intros ts Hts.
  split; [Z.div_mod_to_equations; lia|].
  split; [Z.div_mod_to_equations; lia|].
  split; [Z.div_mod_to_equations; lia|].
  split; [Z.div_mod_to_equations; lia|].
  split; [Z.div_mod_to_equations; lia|].
  reflexivity.
Qed.

(** X20: For [ms < 0] only the seconds part is printed, with a value in
    [-59..0]: days, hours and minutes of a negative elapsed time are lost. *)
Theorem formatElapsedTime_negative_prints_seconds_only (ms : Z) :
  ms < 0 ->
  exists seconds,
    -60 < seconds <= 0 /\
    (ms / 1000 - seconds) mod 60 = 0 /\
    formatElapsedTime (Some ms) = (ofZ seconds ++ " second(s)")%string.
Proof.
  intros Hms.
  assert (Hts : ms / 1000 < 0) by (Z.div_mod_to_equations; lia).
  exists (Z.rem (ms / 1000) 60).
  unfold formatElapsedTime. cbv zeta.
  generalize dependent (ms / 1000). intros ts Hts.
  assert (Hd : (0 <? ts / 86400) = false)
    by (apply Z.ltb_ge; Z.div_mod_to_equations; lia).
  assert (Hh : (0 <? Z.rem ts 86400 / 3600) = false).
  { apply Z.ltb_ge. pose proof (Z.rem_bound_pos_neg ts 86400 ltac:(lia) ltac:(lia)).
    Z.div_mod_to_equations; lia. }
  assert (Hm : (0 <? Z.rem ts 3600 / 60) = false).
  { apply Z.ltb_ge. pose proof (Z.rem_bound_pos_neg ts 3600 ltac:(lia) ltac:(lia)).
    Z.div_mod_to_equations; lia. }
  rewrite Hd, Hh, Hm. cbn [app join].
  split; [pose proof (Z.rem_bound_pos_neg ts 60 ltac:(lia) ltac:(lia)); lia|].
  split; [|reflexivity].
  pose proof (Z.rem_bound_pos_neg ts 60 ltac:(lia) ltac:(lia)).
  pose proof (Z.quot_rem' ts 60).
  replace (ts - Z.rem ts 60) with (Z.quot ts 60 * 60) by lia.
  apply Z.mod_mul. lia.
Qed.

(** ** The configuration constants *)

Section SettingsFacts.
Import Settings.

Lemma isSpace_lowerChar c : isSpace (lowerChar c) = isSpace c.
Proof. destruct c as [[] [] [] [] [] [] [] []]; reflexivity. Qed.

Lemma trimStart_toLowerCase s : trimStart (toLowerCase s) = toLowerCase (trimStart s).
Proof.
  induction s as [|c s IH]; cbn; [reflexivity|].
  rewrite isSpace_lowerChar. destruct (isSpace c); [exact IH | reflexivity].
Qed.

Lemma trimEnd_toLowerCase s : trimEnd (toLowerCase s) = toLowerCase (trimEnd s).
Proof.
  induction s as [|c s IH]; cbn; [reflexivity|].
  rewrite IH, isSpace_lowerChar.
  destruct (trimEnd s); cbn; [destruct (isSpace c)|]; reflexivity.
Qed.

Lemma trim_toLowerCase s : trim (toLowerCase s) = toLowerCase (trim s).
Proof. unfold trim. now rewrite trimStart_toLowerCase, trimEnd_toLowerCase. Qed.

Lemma trimEnd_idem s : trimEnd (trimEnd s) = trimEnd s.
Proof.
  induction s as [|c s IH]; cbn; [reflexivity|].
  destruct (trimEnd s) as [|c' r'] eqn:Hr.
  - destruct (isSpace c) eqn:Hc; cbn; [reflexivity | now rewrite Hc].
  - cbn [trimEnd] in IH |- *. now rewrite IH.
Qed.

Lemma trimStart_startsClean s : startsClean (trimStart s).
Proof.
  induction s as [|c s IH]; cbn; [exact I|].
  destruct (isSpace c) eqn:Hc; [exact IH | exact Hc].
Qed.

Lemma trimEnd_startsClean s : startsClean s -> startsClean (trimEnd s).
Proof.
  destruct s as [|c s]; cbn; [trivial|]. intros Hc.
  destruct (trimEnd s); cbn; [now rewrite Hc | exact Hc].
Qed.

Lemma trimStart_clean s : startsClean s -> trimStart s = s.
Proof. destruct s as [|c s]; cbn; [reflexivity|]. now intros ->. Qed.

Lemma trim_idem s : trim (trim s) = trim s.
Proof.
  unfold trim. rewrite (trimStart_clean (trimEnd (trimStart s))).
  - apply trimEnd_idem.
  - apply trimEnd_startsClean, trimStart_startsClean.
Qed.

Lemma split_nonempty sep s : split sep s <> [].
Proof.
  destruct s as [|c s]; cbn; [discriminate|].
  destruct (Ascii.eqb c sep); [discriminate|].
  destruct (split sep s); discriminate.
Qed.

Lemma blankList_pieces s :
  blankList s = true -> Forall (fun p => trimStart p = ""%string) (split "," s).
Proof.
  induction s as [|c s IH]; cbn.
  - intros _. now constructor.
  - intros [Hc Hs]%andb_true_iff. specialize (IH Hs).
    destruct (Ascii.eqb c ",") eqn:Hcomma; [now constructor|].
    cbn [orb] in Hc.
    destruct (split "," s) as [|x xs] eqn:Hx; [now apply split_nonempty in Hx|].
    inversion IH as [|? ? Hx0 Hxs]; subst.
    constructor; [|exact Hxs]. cbn. now rewrite Hc.
Qed.

Lemma KEYWORD_ARRAY_blank env s :
  KEYWORDS env = Some s -> s <> ""%string -> blankList s = true ->
  KEYWORD_ARRAY env = [].
Proof.
  intros Hk Hne Hb. unfold KEYWORD_ARRAY, orDefault. rewrite Hk.
  assert (Ho : orElse s "asbestos" = s) by (destruct s; [contradiction | reflexivity]).
  rewrite Ho.
  pose proof (blankList_pieces s Hb) as Hall.
  induction Hall as [|p ps Hp _ IH]; cbn; [reflexivity|].
  unfold trim at 1. rewrite Hp. cbn. exact IH.
Qed.

(** Strings of decimal digits. *)
Lemma numAcc_readDigits s : forall acc n,
  numAcc acc s = Some n ->
  NodeEnUS.readDigits (Some acc) s = (Some n, ""%string).
Proof.
  induction s as [|c s IH]; intros acc n; cbn.
  - now intros [= ->].
  - destruct (digitVal c) as [v|]; [|discriminate]. cbn. apply IH.
Qed.

Lemma num_readDigits s n :
  num s = Some n -> NodeEnUS.readDigits None s = (Some n, ""%string).
Proof.
  destruct s as [|c s]; [discriminate|]. cbn.
  destruct (digitVal c) as [v|]; [|discriminate]. cbn.
  apply numAcc_readDigits.
Qed.

Lemma digitVal_plain c v :
  digitVal c = Some v ->
  isSpace c = false /\ Ascii.eqb c ":" = false /\ c <> "-"%char /\ c <> "+"%char.
Proof.
  destruct c as [[] [] [] [] [] [] [] []]; vm_compute; intros Hv;
    first [discriminate Hv | repeat split; congruence].
Qed.

Lemma num_parseInt s n : num s = Some n -> parseInt s = Some n.
Proof.
  intros Hn. pose proof (num_readDigits s n Hn) as Hr.
  destruct s as [|c s]; [discriminate|].
  cbn in Hn. destruct (digitVal c) as [v|] eqn:Hv; [|discriminate].
  destruct (digitVal_plain c v Hv) as (Hsp & _ & Hm & Hp).
  unfold parseInt. cbn [trimStart]. rewrite Hsp.
  destruct c as [[] [] [] [] [] [] [] []]; try congruence; now rewrite Hr.
Qed.

Lemma numAcc_split s : forall acc n rest,
  numAcc acc s = Some n ->
  split ":" (s ++ String ":" rest) = s :: split ":" rest.
Proof.
  induction s as [|c s IH]; intros acc n rest; cbn [numAcc].
  - reflexivity.
  - destruct (digitVal c) as [v|] eqn:Hv; [|discriminate].
    destruct (digitVal_plain c v Hv) as (_ & Hc & _). intros Hn.
    rewrite append_String. cbn [split]. rewrite Hc.
    now rewrite (IH _ _ rest Hn).
Qed.

Lemma numAcc_split_alone s : forall acc n,
  numAcc acc s = Some n -> split ":" s = [s].
Proof.
  induction s as [|c s IH]; intros acc n; cbn [numAcc].
  - reflexivity.
  - destruct (digitVal c) as [v|] eqn:Hv; [|discriminate].
    destruct (digitVal_plain c v Hv) as (_ & Hc & _). intros Hn.
    cbn [split]. rewrite Hc.
    now rewrite (IH _ _ Hn).
Qed.

Lemma num_truthy s n : num s = Some n -> orElse s "0" = s.
Proof. destruct s; [discriminate | reflexivity]. Qed.

Lemma hour_minute_pieces hs ms h m d0 d1 :
  num hs = Some h -> num ms = Some m ->
  parseInt (orDefault (splitAt (Some (hs ++ ":" ++ ms)%string) 0) d0) = Some h /\
  parseInt (orDefault (splitAt (Some (hs ++ ":" ++ ms)%string) 1) d1) = Some m.
Proof.
  intros Hh Hm. unfold splitAt.
  assert (Hs : split ":" (hs ++ ":" ++ ms) = [hs; ms]).
  { assert (Hh' : numAcc 0 hs = Some h) by (destruct hs; [discriminate | exact Hh]).
    assert (Hm' : numAcc 0 ms = Some m) by (destruct ms; [discriminate | exact Hm]).
    change (":" ++ ms)%string with (String ":" ms).
    rewrite (numAcc_split _ _ _ ms Hh'). now rewrite (numAcc_split_alone _ _ _ Hm'). }
  rewrite Hs. cbn. unfold orElse.
  destruct hs as [|c1 hs]; [discriminate|]. destruct ms as [|c2 ms]; [discriminate|].
  cbn [truthy]. split; now apply num_parseInt.
Qed.

End SettingsFacts.

(** X21: Every keyword of [KEYWORD_ARRAY] is non-empty, trimmed and in lower
    case, whatever [KEYWORDS] holds; unset or empty, it gives [asbestos]. *)
Theorem KEYWORD_ARRAY_is_in_normal_form (env : Settings.Env) :
  Forall (fun k => k <> ""%string /\ trim k = k /\ toLowerCase k = k)
         (Settings.KEYWORD_ARRAY env) /\
  (Settings.KEYWORDS env = None \/ Settings.KEYWORDS env = Some ""%string ->
   Settings.KEYWORD_ARRAY env = ["asbestos"%string]).
Proof.
  split.
  - unfold Settings.KEYWORD_ARRAY. apply list.Forall_forall. intros k Hin.
    apply list_elem_of_In, filter_In in Hin as [Hin Hlen].
    apply in_map_iff in Hin as (x & <- & _).
    split; [|split].
    + intros Heq. rewrite Heq in Hlen. discriminate.
    + now rewrite trim_toLowerCase, trim_idem.
    + apply toLowerCase_idem.
  - unfold Settings.KEYWORD_ARRAY, Settings.orDefault.
    intros [-> | ->]; reflexivity.
Qed.

(** X22: A [KEYWORDS] value of commas and white space only leaves no keyword at
    all; with [KEYWORD_MATCH_TYPE=all] every non-empty text is then a match,
    and otherwise none is. *)
Theorem blank_KEYWORDS_leave_no_keyword (env : Settings.Env) (cfg : Config)
    (s text : string) :
  Settings.config env = Some cfg ->
  Settings.KEYWORDS env = Some s -> s <> ""%string -> blankList s = true ->
  KEYWORD_ARRAY cfg = [] /\
  keywordMatch text (KEYWORD_ARRAY cfg) (MATCH_TYPE cfg) =
    bool_decide (Settings.KEYWORD_MATCH_TYPE env = Some "all"%string) && truthy text.
Proof.
  intros Hcfg Hk Hne Hb. unfold Settings.config in Hcfg.
  destruct (Settings.START_HOUR env); [|discriminate].
  destruct (Settings.START_MINUTE env); [|discriminate].
  destruct (Settings.END_HOUR env); [|discriminate].
  destruct (Settings.END_MINUTE env); [|discriminate].
  destruct (Settings.DAILY_LIMIT env); [|discriminate].
  destruct (Settings.MORNING_LIMIT env); [|discriminate].
  cbn in Hcfg. injection Hcfg as <-. cbn [KEYWORD_ARRAY MATCH_TYPE].
  rewrite (KEYWORD_ARRAY_blank env s Hk Hne Hb). split; [reflexivity|].
  unfold keywordMatch, Settings.MATCH_TYPE. rewrite truthy_toLowerCase.
  destruct (Settings.KEYWORD_MATCH_TYPE env) as [mt|].
  - destruct (String.eqb mt "all") eqn:Hmt.
    + apply String.eqb_eq in Hmt. subst mt.
      rewrite bool_decide_eq_true_2 by reflexivity. now destruct (truthy text).
    + apply String.eqb_neq in Hmt.
      rewrite bool_decide_eq_false_2 by congruence. now destruct (truthy text).
  - rewrite bool_decide_eq_false_2 by discriminate. now destruct (truthy text).
Qed.

(** X23: A window given as [h:m], each part a run of decimal digits, is read as
    the numbers [h] and [m], for the start and for the end. *)
Theorem time_window_is_read_as_hours_and_minutes (env : Settings.Env)
    (hs ms hs' ms' : string) (h m h' m' : Z) :
  num hs = Some h -> num ms = Some m -> num hs' = Some h' -> num ms' = Some m' ->
  Settings.TIME_WINDOW_START env = Some (hs ++ ":" ++ ms)%string ->
  Settings.TIME_WINDOW_END env = Some (hs' ++ ":" ++ ms')%string ->
  Settings.START_HOUR env = Some h /\ Settings.START_MINUTE env = Some m /\
  Settings.END_HOUR env = Some h' /\ Settings.END_MINUTE env = Some m'.
Proof.
  intros Hh Hm Hh' Hm' Hs He.
  unfold Settings.START_HOUR, Settings.START_MINUTE, Settings.END_HOUR,
    Settings.END_MINUTE. rewrite Hs, He.
  destruct (hour_minute_pieces hs ms h m "8" "0" Hh Hm) as [-> ->].
  destruct (hour_minute_pieces hs' ms' h' m' "18" "0" Hh' Hm') as [-> ->].
  now repeat split.
Qed.

(** X24: Unset or empty, the window is 8:00 to 18:00; digits without a colon
    are the hour, with minute 0; a value that begins with the colon gets the
    default hour, and digits after the colon are still read as the minute. *)
Theorem time_window_defaults (env : Settings.Env) :
  (Settings.TIME_WINDOW_START env = None \/
   Settings.TIME_WINDOW_START env = Some ""%string ->
     Settings.START_HOUR env = Some 8 /\ Settings.START_MINUTE env = Some 0) /\
  (Settings.TIME_WINDOW_END env = None \/
   Settings.TIME_WINDOW_END env = Some ""%string ->
     Settings.END_HOUR env = Some 18 /\ Settings.END_MINUTE env = Some 0) /\
  (forall hs h, num hs = Some h ->
     (Settings.TIME_WINDOW_START env = Some hs ->
        Settings.START_HOUR env = Some h /\ Settings.START_MINUTE env = Some 0) /\
     (Settings.TIME_WINDOW_END env = Some hs ->
        Settings.END_HOUR env = Some h /\ Settings.END_MINUTE env = Some 0)) /\
  (forall ms m, num ms = Some m ->
     (Settings.TIME_WINDOW_START env = Some (String ":" ms) ->
        Settings.START_HOUR env = Some 8 /\ Settings.START_MINUTE env = Some m) /\
     (Settings.TIME_WINDOW_END env = Some (String ":" ms) ->
        Settings.END_HOUR env = Some 18 /\ Settings.END_MINUTE env = Some m)) /\
  (forall rest,
     (Settings.TIME_WINDOW_START env = Some (String ":" rest) ->
        Settings.START_HOUR env = Some 8) /\
     (Settings.TIME_WINDOW_END env = Some (String ":" rest) ->
        Settings.END_HOUR env = Some 18)).
Proof.
  unfold Settings.START_HOUR, Settings.START_MINUTE, Settings.END_HOUR,
    Settings.END_MINUTE.
  split; [|split; [|split; [|split]]].
  - intros [-> | ->]; split; reflexivity.
  - intros [-> | ->]; split; reflexivity.
  - intros hs h Hh.
    assert (Hh' : numAcc 0 hs = Some h) by (destruct hs; [discriminate | exact Hh]).
    assert (Hp : Settings.parseInt (orElse hs "8") = Some h
                 /\ Settings.parseInt (orElse hs "18") = Some h).
    { unfold orElse. destruct hs as [|c hs]; [discriminate|]. cbn [truthy].
      split; now apply num_parseInt. }
    split; intros ->; unfold Settings.splitAt;
      rewrite (numAcc_split_alone _ _ _ Hh'); cbn;
      (split; [apply Hp | reflexivity]).
  - intros ms m Hm.
    assert (Hm' : numAcc 0 ms = Some m) by (destruct ms; [discriminate | exact Hm]).
    assert (Hs : Settings.split ":" (String ":" ms) = [""%string; ms]).
    { cbn [Settings.split]. cbn [Ascii.eqb Bool.eqb].
      now rewrite (numAcc_split_alone _ _ _ Hm'). }
    assert (Hp : Settings.parseInt (orElse ms "0") = Some m).
    { unfold orElse. destruct ms as [|c ms]; [discriminate|]. cbn [truthy].
      now apply num_parseInt. }
    split; intros ->; unfold Settings.splitAt; rewrite Hs; cbn;
      (split; [reflexivity | exact Hp]).
  - intros rest. split; intros ->; reflexivity.
Qed.

(** ** The earlier variant *)

Section VariantFacts.
Context `{host : DateHost}.

Lemma V1_processArticle_isoHost clock a st :
  V1.processArticle clock a st = @processArticle (isoHost host) clock a st.
Proof. reflexivity. Qed.

Lemma V1_forEachArticle_isoHost clock k leadsOnPage st :
  V1.forEachArticle clock k leadsOnPage st
  = @forEachArticle (isoHost host) clock k leadsOnPage st.
Proof.
  revert k st. induction leadsOnPage as [|a rest IH]; intros k st; cbn; [reflexivity|].
  now rewrite IH.
Qed.

Lemma isoStamped_transitioned t l :
  fourDigitYear t -> isoStamped l -> isoStamped (transitioned (toISOString t) l).
Proof.
  intros Ht [Hm Hh]. split; [exact Hm|]. cbn.
  apply Forall_app. split; [exact Hh|].
  constructor; [|constructor]. now apply isISO8601_toISOString.
Qed.

Lemma isoStamped_created t status s :
  fourDigitYear t -> isoStamped (created (toISOString t) status s).
Proof.
  intros Ht. pose proof (isISO8601_toISOString t Ht) as Hiso.
  split; [exact Hiso|]. cbn. constructor; [exact Hiso | constructor].
Qed.

Lemma V1_processArticle_isoStamped clock a st :
  fourDigitYear clock ->
  Forall isoStamped (matchedLeads (cs_cache st)) ->
  Forall isoStamped (matchedLeads (cs_cache (V1.processArticle clock a st))).
Proof.
  intros Ht Hall. unfold V1.processArticle. cbv zeta.
  destruct (list_find _ _) as [[i lead]|] eqn:Hf.
  - destruct (_ && _); [|exact Hall]. cbn.
    apply list_find_id_lookup in Hf as [Hl _].
    apply Forall_insert; [exact Hall|].
    apply (isoStamped_transitioned clock lead Ht).
    eapply list.Forall_lookup_1; eassumption.
  - destruct (s_hasMatch a), (s_status a) as [status|]; try exact Hall.
    cbn. constructor; [|exact Hall].
    apply (isoStamped_created clock status a Ht).
Qed.

Lemma V1_forEachArticle_isoStamped clock k leadsOnPage st :
  (forall j, fourDigitYear (clock j)) ->
  Forall isoStamped (matchedLeads (cs_cache st)) ->
  Forall isoStamped (matchedLeads (cs_cache (V1.forEachArticle clock k leadsOnPage st))).
Proof.
  intros Ht. revert k st. induction leadsOnPage as [|a rest IH]; intros k st Hall; cbn.
  - exact Hall.
  - apply IH. now apply V1_processArticle_isoStamped.
Qed.

End VariantFacts.

(** X25: The cycle of the earlier variant is the cycle of the later one on a
    host whose [toLocaleString] prints the ISO string. *)
Theorem variant1_cycle_is_the_cycle_of_an_ISO_host `{host : DateHost} `{JsonHost}
    (cfg : Config) (clock : nat -> Z) (doc : Document) (cache : Cache)
    (fs : FileSystem) :
  V1.performScrapeCycle cfg clock doc cache fs
  = @performScrapeCycle (isoHost host) _ cfg clock doc cache fs.
Proof.
  unfold V1.performScrapeCycle, performScrapeCycle.
  destruct (emapM _ _) as [leadsOnPage|e]; [|reflexivity].
  now rewrite V1_forEachArticle_isoHost.
Qed.

(** X26: The turn of the earlier variant is the turn of the later one with the
    limits 2 and 1, and it never throws. *)
Theorem variant1_turn_has_limits_two_and_one `{DateHost} (cfg : Config)
    (cache : Cache) (rd : Readings) :
  V1.decide_turn cfg cache rd = decide_turn (withLimits 2 1 cfg) cache rd /\
  exists d, V1.decide_turn cfg cache rd = Ok d.
Proof.
  split; [reflexivity|].
  unfold V1.decide_turn. cbv zeta.
  destruct (_ || _); [eauto|].
  destruct (_ <=? _); [eauto|].
  destruct (_ =? _) eqn:Hone; [|eauto].
  apply Z.eqb_eq in Hone.
  destruct (getTodaysMatches _ _) as [|first rest]; [cbn in Hone; lia|].
  destruct (_ && _); eauto.
Qed.

(** X27: In the earlier variant, a ledger whose stamps are all ISO-8601
    date-times stays so through a cycle (for years on four digits). *)
Theorem variant1_stamps_are_ISO `{DateHost} `{JsonHost} (cfg : Config)
    (clock : nat -> Z) (doc : Document) (cache : Cache) (fs : FileSystem) :
  (forall k, fourDigitYear (clock k)) ->
  Forall isoStamped (matchedLeads cache) ->
  Forall isoStamped (matchedLeads (r_cache (V1.performScrapeCycle cfg clock doc cache fs))).
Proof.
  intros Ht Hall. unfold V1.performScrapeCycle.
  destruct (emapM _ _) as [leadsOnPage|e]; cbn; [|exact Hall].
  now apply V1_forEachArticle_isoStamped.
Qed.

(** X28: In the earlier variant, on every host, a new Potential Lead raises
    the count of its local day by one: its ISO stamp is read back exactly. *)
Theorem variant1_new_lead_counts_today `{DateHost} (clock now : Z) (s : Scraped)
    (st : CycleState) :
  fourDigitYear clock -> sameLocalDay clock now ->
  s_id s ∉ ids (cs_cache st) ->
  s_hasMatch s = true -> s_status s = Some PotentialLead ->
  let cache := cs_cache st in
  let cache' := cs_cache (V1.processArticle clock s st) in
  matchedLeads cache' = created (toISOString clock) PotentialLead s :: matchedLeads cache /\
  dailyCount now cache' = dailyCount now cache + 1.
Proof.
  intros Ht Hd Hnew Hm Hs cache cache'. subst cache cache'.
  apply list_find_id_None in Hnew.
  unfold V1.processArticle. cbv zeta. rewrite Hnew, Hm, Hs. cbn [cs_cache matchedLeads].
  split; [reflexivity|].
  unfold dailyCount. cbn [matchedLeads List.filter].
  assert (Hc : countsToday now
                 {| id := s_id s; matchedOn := toISOString clock; links := s_links s;
                    content := s_content s; currentStatus := PotentialLead;
                    statusHistory := [{| datetime_changed := toISOString clock;
                                         new_status := PotentialLead |}] |} = true).
  { unfold countsToday. cbn [currentStatus matchedOn].
    rewrite (Date_parse_toISOString _ Ht).
    rewrite bool_decide_eq_true_2 by reflexivity. cbn [andb].
    rewrite <- (localMidnight_sameLocalDay _ _ Hd).
    pose proof (localMidnight_bounds clock).
    apply andb_true_iff. split; [apply Z.leb_le | apply Z.ltb_lt]; lia. }
  rewrite Hc. cbn [length]. lia.
Qed.

(** ** The accepting scraper *)

Section AcceptFacts.
Import Accept.

Lemma has_spec seen t : has seen t = true <-> t ∈ seen.
Proof. unfold has. apply bool_decide_eq_true. Qed.

Lemma leadsToClick_new seen els t :
  t ∈ leadsToClick seen els ->
  (t ∉ seen) /\ exists el, el ∈ els /\ leadInfo el = Some t.
Proof.
  induction els as [|el rest IH]; cbn; [intros Hin; inversion Hin|].
  assert (Hrest : t ∈ leadsToClick seen rest ->
                  (t ∉ seen) /\ exists el', el' ∈ el :: rest /\ leadInfo el' = Some t).
  { intros Hin. destruct (IH Hin) as (Hn & el' & Hel & Hi).
    split; [exact Hn|]. exists el'. split; [now right | exact Hi]. }
  destruct (leadInfo el) as [title|] eqn:Hi; [|exact Hrest].
  destruct (has seen title) eqn:Hh; [exact Hrest|].
  intros [-> | Hin]%elem_of_cons; [|now apply Hrest].
  split.
  - intros Hc. apply has_spec in Hc. congruence.
  - exists el. split; [now left | exact Hi].
Qed.

Lemma add_new seen t : t ∉ seen -> add t seen = seen ++ [t].
Proof.
  intros Hn. unfold add, has. now rewrite bool_decide_eq_false_2.
Qed.

(** One run leaves everything as it was, or takes the first title that
    comes into question. *)
Lemma scrapeAndAcceptLeads_cases page seen fs :
  let r := scrapeAndAcceptLeads page seen fs in
  r = {| acceptedCount := 0; titles := seen; disk := fs; emailed := [] |} \/
  exists t rest,
    leadsToClick seen (articles page) = t :: rest /\ (t ∉ seen) /\
    r = {| acceptedCount := if handleFound page && processOk page then 1 else 0;
           titles := seen ++ [t];
           disk := if handleFound page && processOk page
                   then saveAcceptedLeads (seen ++ [t]) fs else fs;
           emailed := if handleFound page then [t] else [] |}.
Proof.
  cbv zeta. unfold scrapeAndAcceptLeads.
  destruct (articles page) as [|el els] eqn:Ha; [now left|].
  destruct (leadsToClick seen (el :: els)) as [|t rest] eqn:Hl; [now left|].
  right. exists t, rest. split; [reflexivity|].
  assert (Hn : t ∉ seen).
  { apply (leadsToClick_new seen (el :: els) t). rewrite Hl. now left. }
  split; [exact Hn|]. rewrite (add_new _ _ Hn).
  destruct (handleFound page), (processOk page); reflexivity.
Qed.

Lemma scrapeAndAcceptLeads_invariant page seen fs :
  NoDup seen ->
  let r := scrapeAndAcceptLeads page seen fs in
  NoDup (titles r) /\ seen `prefix_of` titles r /\
  0 <= acceptedCount r <= Z.of_nat (length (emailed r)) /\
  (length (emailed r) <= 1)%nat /\
  (forall t, t ∈ emailed r -> (t ∉ seen) /\ t ∈ titles r).
Proof.
  intros Hnd. cbv zeta.
  destruct (scrapeAndAcceptLeads_cases page seen fs) as [-> | (t & rest & _ & Hn & ->)];
    cbn.
  - split; [exact Hnd|]. split; [reflexivity|]. split; [lia|]. split; [lia|].
    intros t Hin. inversion Hin.
  - split.
    { apply list.NoDup_app. split; [exact Hnd|]. split.
      - intros x Hx [-> | Hc]%elem_of_cons; [contradiction | inversion Hc].
      - apply list.NoDup_singleton. }
    split; [now exists [t]|].
    destruct (handleFound page), (processOk page); cbn;
      (split; [lia|]); (split; [lia|]); intros x Hin.
    1,2: apply list_elem_of_singleton in Hin; subst x;
         (split; [exact Hn | apply elem_of_app; right; now left]).
    all: inversion Hin.
Qed.

End AcceptFacts.

(** X29: One run accepts at most one lead: the first article with an [Accept]
    link whose title is not in the set.  The title enters the set in memory
    also when the run fails; the mail goes out before the click; the file
    is written only when the run succeeds, and then holds the whole set. *)
Theorem accept_run_takes_the_first_new_title (page : Accept.PageRun)
    (acceptedLeadTitles : list string) (fs : FileSystem) :
  let r := Accept.scrapeAndAcceptLeads page acceptedLeadTitles fs in
  let candidates := Accept.leadsToClick acceptedLeadTitles (Accept.articles page) in
  (Accept.acceptedCount r = 0 \/ Accept.acceptedCount r = 1) /\
  (Accept.acceptedCount r = 1 <->
     candidates <> [] /\ Accept.handleFound page = true /\ Accept.processOk page = true) /\
  (candidates = [] ->
     Accept.titles r = acceptedLeadTitles /\ Accept.emailed r = [] /\
     Accept.disk r = fs) /\
  (forall t rest, candidates = t :: rest ->
     (t ∉ acceptedLeadTitles) /\
     Accept.titles r = acceptedLeadTitles ++ [t] /\
     Accept.emailed r = (if Accept.handleFound page then [t] else []) /\
     (Accept.acceptedCount r = 0 -> Accept.disk r = fs) /\
     (Accept.acceptedCount r = 1 -> writeRefused fs = false ->
        fileContent (Accept.disk r) = Some (Accept.stringifyTitles (Accept.titles r)))).
Proof.
  cbv zeta.
  destruct (scrapeAndAcceptLeads_cases page acceptedLeadTitles fs)
    as [Hr | (t & rest & Hl & Hn & Hr)].
  - rewrite Hr. cbn.
    assert (Hc : Accept.leadsToClick acceptedLeadTitles (Accept.articles page) = []).
    { unfold Accept.scrapeAndAcceptLeads in Hr.
      destruct (Accept.articles page) as [|el els]; [reflexivity|].
      destruct (Accept.leadsToClick _ _) as [|t rest] eqn:Hl; [reflexivity|].
      exfalso.
      assert (Hn : t ∉ acceptedLeadTitles).
      { apply (leadsToClick_new acceptedLeadTitles (el :: els) t). rewrite Hl. now left. }
      rewrite (add_new _ _ Hn) in Hr.
      assert (Ht : Accept.titles
                     (if Accept.handleFound page
                      then if Accept.processOk page
                           then {| Accept.acceptedCount := 1;
                                   Accept.titles := acceptedLeadTitles ++ [t];
                                   Accept.disk := Accept.saveAcceptedLeads
                                                    (acceptedLeadTitles ++ [t]) fs;
                                   Accept.emailed := [t] |}
                           else {| Accept.acceptedCount := 0;
                                   Accept.titles := acceptedLeadTitles ++ [t];
                                   Accept.disk := fs; Accept.emailed := [t] |}
                      else {| Accept.acceptedCount := 0;
                              Accept.titles := acceptedLeadTitles ++ [t];
                              Accept.disk := fs; Accept.emailed := [] |})
                   = acceptedLeadTitles ++ [t])
        by (destruct (Accept.handleFound page), (Accept.processOk page); reflexivity).
      rewrite Hr in Ht. cbn in Ht.
      apply (f_equal length) in Ht. rewrite length_app in Ht. cbn in Ht. lia. }
    rewrite Hc.
    split; [now left|]. split; [split; [discriminate | now intros [? _]]|].
    split; [now intros _|]. discriminate.
  - rewrite Hr, Hl. cbn.
    split; [destruct (_ && _); [now right | now left]|].
    split.
    { destruct (Accept.handleFound page), (Accept.processOk page); cbn;
        (split; [intros Hc; try discriminate Hc; now repeat split
                | intros (_ & H1 & H2); try discriminate; reflexivity]). }
    split; [discriminate|].
    intros t' rest' [= <- <-].
    split; [exact Hn|]. split; [reflexivity|]. split; [reflexivity|].
    destruct (Accept.handleFound page), (Accept.processOk page); cbn;
      (split; [try discriminate; reflexivity|]); try discriminate.
    intros _ Hw. unfold Accept.saveAcceptedLeads, fs_writeFile. now rewrite Hw.
Qed.

(** X30: Over any sequence of runs on the same set, the set only grows and
    has no duplicate, no title is mailed twice and none that was in the set
    at the start, and there is at most one mail per run. *)
Theorem no_title_is_taken_twice (pages : list Accept.PageRun)
    (acceptedLeadTitles : list string) (fs : FileSystem) :
  NoDup acceptedLeadTitles ->
  let r := Accept.runJobs pages acceptedLeadTitles fs in
  NoDup (Accept.titles r) /\
  acceptedLeadTitles `prefix_of` Accept.titles r /\
  NoDup (Accept.emailed r) /\
  (forall t, t ∈ Accept.emailed r -> (t ∉ acceptedLeadTitles) /\ t ∈ Accept.titles r) /\
  0 <= Accept.acceptedCount r <= Z.of_nat (length (Accept.emailed r)) /\
  (length (Accept.emailed r) <= length pages)%nat.
Proof.
  revert acceptedLeadTitles fs.
  induction pages as [|page rest IH]; intros seen fs Hnd; cbn.
  - split; [exact Hnd|]. split; [reflexivity|]. split; [constructor|].
    split; [intros t Hin; inversion Hin|]. split; lia.
  - destruct (scrapeAndAcceptLeads_invariant page seen fs Hnd)
      as (Hnd1 & Hpre1 & Hcount1 & Hlen1 & Hem1).
    cbv zeta in *.
    destruct (IH (Accept.titles (Accept.scrapeAndAcceptLeads page seen fs))
                 (Accept.disk (Accept.scrapeAndAcceptLeads page seen fs)) Hnd1)
      as (Hnd2 & Hpre2 & Hndm2 & Hem2 & Hcount2 & Hlen2).
    split; [exact Hnd2|]. split; [now transitivity
      (Accept.titles (Accept.scrapeAndAcceptLeads page seen fs))|].
    split.
    { apply list.NoDup_app. split; [|split; [|exact Hndm2]].
      - destruct (Accept.emailed (Accept.scrapeAndAcceptLeads page seen fs))
          as [|x [|y l]]; [constructor | apply list.NoDup_singleton | cbn in Hlen1; lia].
      - intros t Hin1 Hin2. apply Hem1 in Hin1 as [_ Hin1].
        apply Hem2 in Hin2 as [Hin2 _]. contradiction. }
    split.
    { intros t [Hin | Hin]%elem_of_app.
      - apply Hem1 in Hin as [Hn Hin]. split; [exact Hn|].
        destruct Hpre2 as [more ->]. apply elem_of_app. now left.
      - apply Hem2 in Hin as [Hn Hin]. split; [|exact Hin].
        intros Hc. apply Hn. destruct Hpre1 as [more ->]. apply elem_of_app. now left. }
    rewrite length_app. split; lia.
Qed.

(** ** Evaluations of the further properties *)

Section MoreEvaluations.
Import Demo JsDate.
#[local] Existing Instance dateHost.
#[local] Existing Instance jsonHost.

Local Ltac evaluate := vm_compute; repeat split; congruence.

(** X2, witness: a lead created at 9:00 is on the page as wait-listed, next to a new
    article: both histories begin at [matchedOn] and end at the status. *)
Lemma cycle_keeps_histories_consistent_witness :
  let cache := {| matchedLeads := [leadAt "a" (at_ 9 0 0)] |} in
  let doc := pageOf [waitlistArticle "a"; quoteArticle "b"] in
  let r := performScrapeCycle cfg (fun _ => at_ 10 0 0) doc cache emptyDisk in
  Forall historyConsistent (matchedLeads cache) /\
  Forall historyConsistent (matchedLeads (r_cache r)) /\
  map currentStatus (matchedLeads (r_cache r)) = [PotentialLead; TransitionedToWaitlisted].
Proof.
  intros cache doc r.
  assert (Hc : Forall historyConsistent (matchedLeads cache)).
  { constructor; [|constructor]. split; eexists; split; reflexivity. }
  split; [exact Hc|]. split; [|vm_compute; reflexivity].
  exact (cycle_keeps_histories_consistent cfg (fun _ => at_ 10 0 0) doc cache emptyDisk Hc).
Defined.

(** X9, witness: two new articles: the one lower on the page ends up in front. *)
Lemma new_leads_go_in_front_in_reverse_page_order_witness :
  let cache := {| matchedLeads := [leadAt "z" (at_ 9 0 0)] |} in
  let doc := pageOf [quoteArticle "a"; waitlistArticle "b"] in
  let leadsOnPage := [scrapedQuote "a"; scrapedWaitlist "b"] in
  emapM (scrapeArticle doc (KEYWORD_ARRAY cfg) (MATCH_TYPE cfg)) (doc_articles doc)
    = Ok leadsOnPage /\
  ids (r_cache (performScrapeCycle cfg (fun _ => at_ 10 0 0) doc cache emptyDisk))
    = ["b"; "a"; "z"]%string.
Proof.
  intros cache doc leadsOnPage.
  assert (He : emapM (scrapeArticle doc (KEYWORD_ARRAY cfg) (MATCH_TYPE cfg))
                 (doc_articles doc) = Ok leadsOnPage) by (vm_compute; reflexivity).
  assert (Hm : Forall (fun s => s_hasMatch s = true) leadsOnPage)
    by (repeat constructor).
  assert (Hnd : NoDup (s_id <$> leadsOnPage))
    by (apply (bool_decide_unpack _); vm_compute; exact I).
  assert (Hnew : forall s, s ∈ leadsOnPage -> s_id s ∉ ids cache).
  { apply list.Forall_forall. apply (bool_decide_unpack _). vm_compute. exact I. }
  split; [exact He|].
  exact (new_leads_go_in_front_in_reverse_page_order cfg (fun _ => at_ 10 0 0)
           doc cache emptyDisk leadsOnPage He Hm Hnd Hnew).
Defined.

(** X5, witness: an article about a fence, on a page whose banner mentions asbestos. *)
Lemma document_emphasis_matches_every_article_witness :
  let article :=
    {| art_id := "fence"; art_anchors := []; art_outerHTML := "<article></article>";
       art_statusSpan := None; art_h2 := ["New fence"]; art_h4 := []; art_h4p := [];
       art_textContent := "New fence" |}%string in
  let doc := {| doc_emphasis := ["Asbestos awareness week"%string];
                doc_articles := [article] |} in
  exists s, scrapeArticle doc ["asbestos"%string] MatchEach article = Ok s /\
            s_status s = Some PotentialLead.
Proof.
  intros article doc.
  assert (Hh2 : art_h2 article = "New fence"%string :: []) by reflexivity.
  assert (Hnw : forall t, art_statusSpan article = Some t ->
                          JsString.trim t <> "Waitlist"%string)
    by (intros t Ht; discriminate Ht).
  apply (proj1 (document_emphasis_matches_every_article doc ["asbestos"%string]
                  article "New fence"%string [] Hh2 Hnw)).
  constructor. split; [discriminate|].
  exists ""%string, " awareness week"%string. vm_compute. reflexivity.
Defined.

(** X6, witness: one article without a heading, after a matching one: nothing of the
    page is recorded. *)
Lemma headless_article_aborts_the_cycle_witness :
  let headless :=
    {| art_id := "ad"; art_anchors := []; art_outerHTML := "<article></article>";
       art_statusSpan := None; art_h2 := []; art_h4 := []; art_h4p := [];
       art_textContent := "Sponsored" |}%string in
  let doc := pageOf [quoteArticle "a"; headless] in
  performScrapeCycle cfg (fun _ => at_ 10 0 0) doc noLeads emptyDisk =
    {| r_newMatchFound := false; r_cache := noLeads; r_fs := emptyDisk; r_sent := [] |}.
Proof.
  intros headless doc.
  assert (Hin : headless ∈ doc_articles doc) by (right; left).
  assert (Hh2 : art_h2 headless = []) by reflexivity.
  assert (Hnw : forall t, art_statusSpan headless = Some t ->
                          JsString.trim t <> "Waitlist"%string)
    by (intros t Ht; discriminate Ht).
  exact (headless_article_aborts_the_cycle cfg (fun _ => at_ 10 0 0) doc noLeads
           emptyDisk headless Hin Hh2 Hnw).
Defined.

(** X10, witness: at 19:00 the loop sleeps 13 hours, and wakes at 8:00 inside the window. *)
Lemma idle_sleep_ends_at_a_window_start_witness :
  let rd := turnAt (at_ 19 0 0) in
  let rd' := turnAt (at_ 19 0 0 + 46800000) in
  decide_turn cfg noLeads rd = Ok (OutsideWindow 46800000) /\
  0 < 46800000 /\
  rd_now rd' = windowStart cfg (rd_now rd') /\
  isOutsideWindow (decide_turn cfg noLeads rd') = false.
Proof.
  intros rd rd'.
  assert (Hd : withinOneDay rd) by evaluate.
  assert (Hs : 0 <= startOffset cfg < msPerDay) by evaluate.
  assert (Hse : startOffset cfg <= endOffset cfg) by evaluate.
  assert (Hdec : decide_turn cfg noLeads rd = Ok (OutsideWindow 46800000))
    by (vm_compute; reflexivity).
  assert (Hn : rd_now rd' = rd_now rd + 46800000) by reflexivity.
  split; [exact Hdec|].
  exact (idle_sleep_ends_at_a_window_start cfg noLeads noLeads rd rd' 46800000
           Hd Hs Hse Hdec Hn).
Defined.


(** X12, witness: two leads of the morning and a morning limit of two at 10:00: asleep
    for two hours, and no pause at noon. *)
Lemma morning_pause_ends_at_noon_witness :
  let cache := {| matchedLeads := [leadAt "b" (at_ 9 30 0); leadAt "a" (at_ 9 0 0)] |} in
  let rd := turnAt (at_ 10 0 0) in
  let rd' := turnAt (at_ 12 0 0) in
  decide_turn cfgMorning2 cache rd = Ok (MorningPause 7200000) /\
  0 < 7200000 /\
  rd_now rd' = localNoon (rd_now rd') /\
  isMorningPause (decide_turn cfgMorning2 cache rd') = false.
Proof.
  intros cache rd rd'.
  assert (Hd : withinOneDay rd) by evaluate.
  assert (Hd' : withinOneDay rd') by evaluate.
  assert (Hdec : decide_turn cfgMorning2 cache rd = Ok (MorningPause 7200000))
    by (vm_compute; reflexivity).
  assert (Hn : rd_now rd' = rd_now rd + 7200000) by (vm_compute; reflexivity).
  split; [exact Hdec|].
  exact (morning_pause_ends_at_noon cfgMorning2 cache cache rd rd' 7200000
           Hd Hd' Hdec Hn).
Defined.

(** X13, witness: a window from 18:00 to 8:00 is closed at 20:00 as at any other time. *)
Lemma inverted_window_never_opens_witness :
  let night := {| KEYWORD_ARRAY := ["asbestos"%string]; MATCH_TYPE := MatchEach;
                  START_HOUR := 18; START_MINUTE := 0; END_HOUR := 8; END_MINUTE := 0;
                  DAILY_LIMIT := 6; MORNING_LIMIT := 3 |} in
  endOffset night < startOffset night /\
  isOutsideWindow (decide_turn night noLeads (turnAt (at_ 20 0 0))) = true.
Proof.
  intros night.
  assert (Hinv : endOffset night < startOffset night) by evaluate.
  split; [exact Hinv|].
  exact (inverted_window_never_opens night noLeads (turnAt (at_ 20 0 0)) Hinv).
Defined.

(** X14, witness: [MORNING_MATCHES_LIMIT=0] at 9:00 with no lead yet. *)
Lemma zero_morning_limit_stops_the_loop_witness :
  let rd := turnAt (at_ 9 0 0) in
  withinOneDay rd /\
  exists e, decide_turn (withLimits 6 0 cfg) noLeads rd = Throw e.
Proof.
  intros rd.
  assert (Hd : withinOneDay rd) by evaluate.
  split; [exact Hd|].
  apply (proj2 (zero_morning_limit_stops_the_loop (withLimits 6 0 cfg) noLeads rd Hd)).
  evaluate.
Defined.

(** X15, witness: the ledger a cycle has written is the ledger the next turn reads. *)
Lemma saved_ledger_is_what_the_next_turn_loads_witness :
  let doc := pageOf [quoteArticle "a"] in
  let r := performScrapeCycle cfg (fun _ => at_ 10 0 0) doc noLeads emptyDisk in
  r_fs r <> emptyDisk /\
  initializeCache (r_fs r) = Ok (r_cache r, r_fs r).
Proof.
  intros doc r.
  assert (Hw : writeRefused emptyDisk = false) by reflexivity.
  assert (Hch : r_fs r <> emptyDisk) by (vm_compute; congruence).
  assert (Hrt : JSON_parse (JSON_stringify (r_cache r)) = Some (r_cache r))
    by (vm_compute; reflexivity).
  assert (Hne : JsString.trim (JSON_stringify (r_cache r)) <> ""%string)
    by (vm_compute; congruence).
  split; [exact Hch|].
  exact (saved_ledger_is_what_the_next_turn_loads cfg (fun _ => at_ 10 0 0) doc
           noLeads emptyDisk Hw Hch Hrt Hne).
Defined.

(** X16, witness: a directory that cannot be written: the turn at 10:00 finds lead [a]
    and notifies it, and so does the turn a minute later. *)
Lemma refused_writes_make_every_turn_start_over_witness :
  let readOnly := {| fileContent := None; writeRefused := true |} in
  let doc := pageOf [quoteArticle "a"] in
  let turn1 := main_turn cfg (turnAt (at_ 10 0 0)) (fun _ => at_ 10 0 1) doc readOnly in
  let turn2 := main_turn cfg (turnAt (at_ 10 1 0)) (fun _ => at_ 10 1 1) doc (t_fs turn1) in
  t_fs turn1 = readOnly /\
  t_decision turn1 = Ok Active /\ t_decision turn2 = Ok Active /\
  Forall2 sameNotice (t_sent turn1) (t_sent turn2) /\
  "a"%string ∈ notified (t_sent turn1) /\ "a"%string ∈ notified (t_sent turn2).
Proof.
  intros readOnly doc turn1 turn2.
  assert (Hw : writeRefused readOnly = true) by reflexivity.
  destruct (refused_writes_make_every_turn_start_over cfg (turnAt (at_ 10 0 0))
              (turnAt (at_ 10 1 0)) (fun _ => at_ 10 0 1) (fun _ => at_ 10 1 1)
              doc readOnly Hw) as (cache0 & Hinit & Hfs & Hd1 & Hd2 & Hagain).
  assert (Hc : cache0 = noLeads).
  { assert (Hi : initializeCache readOnly = Ok (noLeads, readOnly))
      by (vm_compute; reflexivity).
    rewrite Hi in Hinit. now injection Hinit as <-. }
  subst cache0.
  assert (Ha1 : t_decision turn1 = Ok Active) by (vm_compute; reflexivity).
  assert (Ha2 : t_decision turn2 = Ok Active) by (vm_compute; reflexivity).
  destruct (Hagain Ha1 Ha2) as [Hsame Hnew].
  split; [exact Hfs|]. split; [exact Ha1|]. split; [exact Ha2|].
  split; [exact Hsame|].
  apply (Hnew [] (scrapedQuote "a") []).
  - vm_compute. reflexivity.
  - reflexivity.
  - apply (bool_decide_unpack _). vm_compute. exact I.
  - apply (bool_decide_unpack _). vm_compute. exact I.
Defined.

(** X18, witness: the screenshot for the second new lead fails: the first lead has been
    notified, and the file does not have it. *)
Lemma failed_screenshot_loses_earlier_leads_witness :
  let faults := {| reloadFails := false; screenshotOk := fun k => (k =? 0)%nat |} in
  let doc := pageOf [quoteArticle "a"; quoteArticle "b"] in
  let r := performScrapeCycleWith faults cfg (fun _ => at_ 10 0 0) doc noLeads emptyDisk in
  r_newMatchFound r = true /\ r_fs r = emptyDisk /\
  ids (r_cache r) = ["a"%string] /\
  map (fun n => id (n_lead n)) (r_sent r) = ["a"%string].
Proof.
  intros faults doc r.
  assert (Hr : reloadFails faults = false) by reflexivity.
  assert (He : emapM (scrapeArticle doc (KEYWORD_ARRAY cfg) (MATCH_TYPE cfg))
                 (doc_articles doc) = Ok ([scrapedQuote "a"] ++ scrapedQuote "b" :: []))
    by (vm_compute; reflexivity).
  assert (Hok : forall j, (j < length [scrapedQuote "a"])%nat ->
                          screenshotOk faults j = true).
  { intros j Hj. destruct j as [|j]; [reflexivity | cbn in Hj; lia]. }
  assert (Hfail : screenshotOk faults (length [scrapedQuote "a"]) = false)
    by reflexivity.
  assert (Hnew : s_id (scrapedQuote "b") ∉
                 ids (cs_cache (forEachArticle (fun _ => at_ 10 0 0) 0 [scrapedQuote "a"]
                                  (fresh noLeads))))
    by (apply (bool_decide_unpack _); vm_compute; exact I).
  assert (Hm : s_hasMatch (scrapedQuote "b") = true) by reflexivity.
  unfold r.
  rewrite (failed_screenshot_loses_earlier_leads faults cfg (fun _ => at_ 10 0 0) doc
             noLeads emptyDisk [scrapedQuote "a"] [] (scrapedQuote "b")
             Hr He Hok Hfail Hnew Hm).
  vm_compute. repeat split; reflexivity.
Defined.

(** X19, witness: one day, two hours, three minutes and four seconds. *)
Lemma formatElapsedTime_splits_the_seconds_witness :
  exists days hours minutes seconds,
    0 <= days /\ 0 <= hours < 24 /\ 0 <= minutes < 60 /\ 0 <= seconds < 60 /\
    93784000 / 1000 = days * 86400 + hours * 3600 + minutes * 60 + seconds /\
    formatElapsedTime (Some 93784000) =
      JsString.join ", "
        (part days " day(s)" ++ part hours " hour(s)" ++
         part minutes " minute(s)" ++ [(JsString.ofZ seconds ++ " second(s)")%string]).
Proof.
  assert (Hms : 0 <= 93784000) by lia.
  exact (formatElapsedTime_splits_the_seconds 93784000 Hms).
Defined.

(** X20, witness: a lead stamped an hour and five seconds in the future. *)
Lemma formatElapsedTime_negative_prints_seconds_only_witness :
  formatElapsedTime (Some (-3605000)) = "-5 second(s)"%string /\
  exists seconds,
    -60 < seconds <= 0 /\ ((-3605000) / 1000 - seconds) mod 60 = 0 /\
    formatElapsedTime (Some (-3605000)) = (JsString.ofZ seconds ++ " second(s)")%string.
Proof.
  assert (Hms : -3605000 < 0) by lia.
  split; [vm_compute; reflexivity|].
  exact (formatElapsedTime_negative_prints_seconds_only (-3605000) Hms).
Defined.

(** X22, witness: [KEYWORDS=" , ,"] with [KEYWORD_MATCH_TYPE=all]: every text matches. *)
Lemma blank_KEYWORDS_leave_no_keyword_witness :
  let env := {| Settings.TIME_WINDOW_START := None; Settings.TIME_WINDOW_END := None;
                Settings.DAILY_MATCHES_LIMIT := None;
                Settings.MORNING_MATCHES_LIMIT := None;
                Settings.KEYWORDS := Some " , ,"%string;
                Settings.KEYWORD_MATCH_TYPE := Some "all"%string |} in
  let cfg' := withLimits 6 3 {| KEYWORD_ARRAY := []; MATCH_TYPE := MatchAll;
                START_HOUR := 8; START_MINUTE := 0; END_HOUR := 18; END_MINUTE := 0;
                DAILY_LIMIT := 6; MORNING_LIMIT := 3 |} in
  Settings.config env = Some cfg' /\
  KEYWORD_ARRAY cfg' = [] /\
  keywordMatch "Lawn mowing" (KEYWORD_ARRAY cfg') (MATCH_TYPE cfg') = true.
Proof.
  intros env cfg'.
  assert (Hcfg : Settings.config env = Some cfg') by (vm_compute; reflexivity).
  assert (Hk : Settings.KEYWORDS env = Some " , ,"%string) by reflexivity.
  assert (Hne : " , ,"%string <> ""%string) by discriminate.
  assert (Hb : blankList " , ," = true) by (vm_compute; reflexivity).
  split; [exact Hcfg|].
  destruct (blank_KEYWORDS_leave_no_keyword env cfg' " , ," "Lawn mowing"
              Hcfg Hk Hne Hb) as [H1 H2].
  split; [exact H1|]. rewrite H2. vm_compute. reflexivity.
Defined.

(** X23, witness: [TIME_WINDOW_START=7:30] and [TIME_WINDOW_END=16:45]. *)
Lemma time_window_is_read_as_hours_and_minutes_witness :
  let env := {| Settings.TIME_WINDOW_START := Some "7:30"%string;
                Settings.TIME_WINDOW_END := Some "16:45"%string;
                Settings.DAILY_MATCHES_LIMIT := None;
                Settings.MORNING_MATCHES_LIMIT := None;
                Settings.KEYWORDS := None; Settings.KEYWORD_MATCH_TYPE := None |} in
  Settings.START_HOUR env = Some 7 /\ Settings.START_MINUTE env = Some 30 /\
  Settings.END_HOUR env = Some 16 /\ Settings.END_MINUTE env = Some 45.
Proof.
  intros env.
  assert (Hh : num "7" = Some 7) by (vm_compute; reflexivity).
  assert (Hm : num "30" = Some 30) by (vm_compute; reflexivity).
  assert (Hh' : num "16" = Some 16) by (vm_compute; reflexivity).
  assert (Hm' : num "45" = Some 45) by (vm_compute; reflexivity).
  assert (Hs : Settings.TIME_WINDOW_START env = Some ("7" ++ ":" ++ "30")%string)
    by reflexivity.
  assert (He : Settings.TIME_WINDOW_END env = Some ("16" ++ ":" ++ "45")%string)
    by reflexivity.
  exact (time_window_is_read_as_hours_and_minutes env "7" "30" "16" "45" 7 30 16 45
           Hh Hm Hh' Hm' Hs He).
Defined.

(** X27, witness: the earlier variant at 16:23:33: the stamps are ISO-8601. *)
Lemma variant1_stamps_are_ISO_witness :
  let clock := fun _ : nat => at_ 16 23 33 in
  let cache := {| matchedLeads :=
                    [created (toISOString (at_ 9 0 0)) PotentialLead (scrapedQuote "a")] |} in
  let doc := pageOf [waitlistArticle "a"; quoteArticle "b"] in
  let r := V1.performScrapeCycle cfg clock doc cache emptyDisk in
  Forall isoStamped (matchedLeads (r_cache r)) /\
  map matchedOn (matchedLeads (r_cache r))
    = ["2026-11-03T06:23:33.000Z"; "2026-11-02T23:00:00.000Z"]%string.
Proof.
  intros clock cache doc r.
  assert (Ht : forall k, fourDigitYear (clock k)) by (intros k; evaluate).
  assert (Hc : Forall isoStamped (matchedLeads cache)).
  { constructor; [|constructor]. split; [vm_compute; reflexivity|].
    constructor; [vm_compute; reflexivity | constructor]. }
  split; [|vm_compute; reflexivity].
  exact (variant1_stamps_are_ISO cfg clock doc cache emptyDisk Ht Hc).
Defined.

(** X28, witness: the earlier variant: the lead created at 9:00 counts at 14:00. *)
Lemma variant1_new_lead_counts_today_witness :
  let st := fresh noLeads in
  let cache' := cs_cache (V1.processArticle (at_ 9 0 0) (scrapedQuote "a") st) in
  dailyCount (at_ 14 0 0) cache' = dailyCount (at_ 14 0 0) noLeads + 1.
Proof.
  intros st cache'.
  assert (Ht : fourDigitYear (at_ 9 0 0)) by evaluate.
  assert (Hd : sameLocalDay (at_ 9 0 0) (at_ 14 0 0)) by (vm_compute; reflexivity).
  assert (Hnew : s_id (scrapedQuote "a") ∉ ids (cs_cache st))
    by (apply (bool_decide_unpack _); vm_compute; exact I).
  assert (Hm : s_hasMatch (scrapedQuote "a") = true) by reflexivity.
  assert (Hs : s_status (scrapedQuote "a") = Some PotentialLead) by reflexivity.
  exact (proj2 (variant1_new_lead_counts_today (at_ 9 0 0) (at_ 14 0 0)
                  (scrapedQuote "a") st Ht Hd Hnew Hm Hs)).
Defined.

(** X30, witness: three runs on a page with two untitled leads and one titled: the
    click fails in the first run, and the untitled title is taken once. *)
Lemma no_title_is_taken_twice_witness :
  let untitled := {| Accept.la_anchors := [" Accept "%string]; Accept.la_h2 := None |} in
  let roof := {| Accept.la_anchors := ["Accept"%string];
                 Accept.la_h2 := Some " Roof repair "%string |} in
  let page ok := {| Accept.articles := [untitled; untitled; roof];
                    Accept.handleFound := true; Accept.processOk := ok |} in
  let r := Accept.runJobs [page false; page true; page true] ["Old job"%string]
             emptyDisk in
  Accept.titles r = ["Old job"; "Lead with no title found"; "Roof repair"]%string /\
  Accept.emailed r = ["Lead with no title found"; "Roof repair"]%string /\
  Accept.acceptedCount r = 1 /\
  NoDup (Accept.emailed r) /\
  (forall t, t ∈ Accept.emailed r -> (t ∉ ["Old job"%string]) /\ t ∈ Accept.titles r).
Proof.
  intros untitled roof page r.
  assert (Hnd : NoDup ["Old job"%string]) by (apply list.NoDup_singleton).
  destruct (no_title_is_taken_twice [page false; page true; page true]
              ["Old job"%string] emptyDisk Hnd) as (_ & _ & Hem & Hin & _).
  split; [vm_compute; reflexivity|]. split; [vm_compute; reflexivity|].
  split; [vm_compute; reflexivity|]. split; [exact Hem | exact Hin].
Defined.

End MoreEvaluations.
